(** * Schema type-system validation (src/type/validate.js)

    A shallow embedding of the schema validator: the diagnostic sink
    ([SchemaValidationContext]), the node locator ([getFieldNode] and
    friends), the three checkers ([validateRootTypes], [validateDirectives],
    [validateTypes] with [validateObjectImplementsInterface]) and the entry
    points [validateSchema] and [assertValidSchema].

    JavaScript objects whose keys are iterated with [Object.keys] are
    association lists in key order; [undefined] is [None]; the array a
    context pushes to is a list in push order; the set of interface names an
    object type has been seen to implement is a [gset string].

    The checkers are given twice: as functions on the sink, over the values
    that [String] converts, and in [Raw] as functions that can throw, over
    all values; on the former values the two agree ([Raw_validateSchema]).
    The rule [UniqueOperationNames] of src/unnamed/part_000 comes last. *)

From Stdlib Require Import String Ascii List Bool Arith Lia.
From stdpp Require Import base gmap strings.
Import ListNotations.

Set Warnings "-register-all,-clear-no-such-hyp".
#[local] Arguments String.append !s1 s2 : simpl nomatch.
Local Open Scope string_scope.
Local Open Scope list_scope.

(** ** Syntax nodes

    Modelled from the spec: the syntax nodes a declaration can carry
    (language/ast is not among the sources), with the properties the node
    locator reads: [name.value], [interfaces], [fields], [arguments], [type],
    [operationTypes] and [operation]. *)

Record NameNode := { value : string }.

(** A reference to a named type; [nt_loc] is where the reference stands in
    the source, which tells two references to the same name apart. *)
Record NamedTypeNode := { nt_name : NameNode; nt_loc : nat }.

Inductive TypeNode :=
| NamedType (n : NamedTypeNode)
| ListType (type : TypeNode)
| NonNullType (type : TypeNode).

Record InputValueDefinitionNode := {
  iv_name : NameNode;
  iv_type : TypeNode
}.

Record FieldDefinitionNode := {
  fd_name : NameNode;
  fd_arguments : option (list InputValueDefinitionNode);
  fd_type : TypeNode
}.

(** The definition or extension node of a named type. [td_interfaces] and
    [td_fields] are [None] on the node kinds that have no such property. *)
Record TypeDefinitionNode := {
  td_name : NameNode;
  td_interfaces : option (list NamedTypeNode);
  td_fields : option (list FieldDefinitionNode)
}.

Record OperationTypeDefinitionNode := {
  operation : string;
  ot_type : NamedTypeNode
}.

Record SchemaDefinitionNode := {
  operationTypes : list OperationTypeDefinitionNode
}.

Record DirectiveDefinitionNode := { dd_name : NameNode }.

(** Any node a diagnostic can point at. *)
Inductive ASTNode :=
| N_Schema (n : SchemaDefinitionNode)
| N_TypeDefinition (n : TypeDefinitionNode)
| N_FieldDefinition (n : FieldDefinitionNode)
| N_InputValueDefinition (n : InputValueDefinitionNode)
| N_Type (n : TypeNode)
| N_DirectiveDefinition (n : DirectiveDefinitionNode)
| N_Other (kind : string).

(** A slot that holds a node or [undefined]. *)
Definition MaybeNode := option ASTNode.

(** ** Types, fields and arguments *)

Inductive TypeClass :=
| GraphQLScalarType
| GraphQLObjectType
| GraphQLInterfaceType
| GraphQLUnionType
| GraphQLEnumType
| GraphQLInputObjectType.

Definition TypeClass_eqb (a b : TypeClass) : bool :=
  match a, b with
  | GraphQLScalarType, GraphQLScalarType
  | GraphQLObjectType, GraphQLObjectType
  | GraphQLInterfaceType, GraphQLInterfaceType
  | GraphQLUnionType, GraphQLUnionType
  | GraphQLEnumType, GraphQLEnumType
  | GraphQLInputObjectType, GraphQLInputObjectType => true
  | _, _ => false
  end.

(** Modelled from the spec: the Type of the data model, as a field or an
    argument is declared with it (type/definition is not among the sources).
    A named type is
    referred to by its class and its name (names are unique in a schema), so
    that [===] on two named types is equality of the two references. *)
Inductive GraphQLType :=
| Named (cls : TypeClass) (name : string)
| GraphQLList (ofType : GraphQLType)
| GraphQLNonNull (ofType : GraphQLType).

Record GraphQLArgument := {
  arg_name : string;
  arg_type : GraphQLType
}.

Record GraphQLField := {
  field_type : GraphQLType;
  field_args : list GraphQLArgument
}.

(** A JavaScript object used as a map, in [Object.keys] order. *)
Definition ObjMap (A : Type) := list (string * A).

Definition Object_keys {A} (m : ObjMap A) : list string := map fst m.

Fixpoint prop {A} (m : ObjMap A) (key : string) : option A :=
  match m with
  | [] => None
  | (k, v) :: rest => if String.eqb k key then Some v else prop rest key
  end.

(** Modelled from the spec: a named type as the data model has it, with
    the accessors the validator calls on it (type/definition is not among
    the sources). [getFields] is only
    read on object and interface types, [getInterfaces] only on object
    types; [getTypes], the names of the members of a union type, is read by
    the type comparators and never by the validator. *)
Inductive TypeObj := mkTypeObj {
  constructor : TypeClass;
  name : string;
  getFields : ObjMap GraphQLField;
  getInterfaces : list TypeObj;
  getTypes : list string;
  astNode : option TypeDefinitionNode;
  extensionASTNodes : option (list TypeDefinitionNode)
}.

(** What a slot that is meant to hold a type can hold at run time, among
    the values [String] converts; [OtherValue str node] is any other object,
    with its rendering and its [astNode]. The values [String] raises on are
    those of [Raw.Value] below. *)
Inductive JSValue :=
| Falsy (str : string)
| TypeValue (t : TypeObj)
| ListValue (ofType : GraphQLType)
| NonNullValue (ofType : GraphQLType)
| OtherValue (str : string) (node : MaybeNode).

Inductive DirectiveValue :=
| GraphQLDirective (name : string) (node : option DirectiveDefinitionNode)
| NotDirective (v : JSValue).

(** ** Diagnostics *)

(** Modelled from the spec: the Diagnostic of the data model, as
    [new GraphQLError(message, nodes)] builds it (error/GraphQLError is not
    among the sources): the message and the node list it is given. *)
Record GraphQLError := mkGraphQLError {
  message : string;
  nodes : list MaybeNode
}.

(** ** Schema *)

(** Modelled from the spec: the Schema of the data model, with the
    accessors the validator calls on it (type/schema is not among the
    sources) and the slot [__validationErrors] the validator reads and
    writes; the slot is [None] as long as nothing was stored. *)
Record GraphQLSchema := {
  schema_astNode : option SchemaDefinitionNode;
  getQueryType : JSValue;
  getMutationType : JSValue;
  getSubscriptionType : JSValue;
  getDirectives : list DirectiveValue;
  getTypeMap : ObjMap JSValue;
  __validationErrors : option (list GraphQLError)
}.

(** ** JavaScript primitives used by the validator *)

(** Modelled from the spec: the rendering [String(type)] of a type
    (type/definition.js is not among the sources). A named type renders as
    its name, a list as its element in brackets, a non-null as its element
    followed by an exclamation mark. *)
Fixpoint toString (t : GraphQLType) : string :=
  match t with
  | Named _ n => n
  | GraphQLList ofType => "[" +:+ toString ofType +:+ "]"
  | GraphQLNonNull ofType => toString ofType +:+ "!"
  end.

(** [String(v)] on any value. *)
Definition String_ (v : JSValue) : string :=
  match v with
  | Falsy str => str
  | TypeValue t => name t
  | ListValue ofType => toString (GraphQLList ofType)
  | NonNullValue ofType => toString (GraphQLNonNull ofType)
  | OtherValue str _ => str
  end.

(** Truthiness: every object is truthy, also an empty array. *)
Definition truthy (v : JSValue) : bool :=
  match v with
  | Falsy _ => false
  | _ => true
  end.

(** [Boolean] as the callback of [filter]. *)
Definition Boolean {A} (x : option A) : bool :=
  match x with
  | Some _ => true
  | None => false
  end.

(** [v instanceof GraphQLObjectType]. *)
Definition instanceOf (v : JSValue) (c : TypeClass) : bool :=
  match v with
  | TypeValue t => TypeClass_eqb (constructor t) c
  | _ => false
  end.

Definition isType (v : JSValue) : bool :=
  match v with
  | TypeValue _ | ListValue _ | NonNullValue _ => true
  | _ => false
  end.

(** [v && v.astNode]. *)
Definition astNodeOf (v : JSValue) : MaybeNode :=
  match v with
  | TypeValue t => option_map N_TypeDefinition (astNode t)
  | OtherValue _ node => node
  | _ => None
  end.

Definition isNonNull (t : GraphQLType) : bool :=
  match t with
  | GraphQLNonNull _ => true
  | _ => false
  end.

Definition forEach {A S : Type} (l : list A) (f : S -> A -> S) (s : S) : S :=
  fold_left f l s.

Definition LF : string := String (ascii_of_nat 10) EmptyString.

(** The double quote character, as a string. *)
Definition dq : string := String (ascii_of_nat 34) EmptyString.

(** [Array.prototype.join] on an array of strings. *)
Fixpoint join (sep : string) (l : list string) : string :=
  match l with
  | [] => EmptyString
  | [x] => x
  | x :: rest => x +:+ sep +:+ join sep rest
  end.

(** ** Diagnostic sink *)

Record SchemaValidationContext := { _errors : list GraphQLError }.

Definition new_SchemaValidationContext : SchemaValidationContext :=
  {| _errors := [] |}.

(** The second argument of [reportError]: one node (or [undefined]), or an
    array of them. *)
Inductive NodesArg :=
| OneNode (n : MaybeNode)
| NodeArray (ns : list MaybeNode).

Definition reportError (context : SchemaValidationContext) (msg : string)
    (nodes : NodesArg) : SchemaValidationContext :=
  let _nodes :=
    List.filter Boolean
      (match nodes with
       | NodeArray ns => ns
       | OneNode n => [n]
       end) in
  {| _errors := _errors context ++ [mkGraphQLError msg _nodes] |}.

Definition getErrors (context : SchemaValidationContext) : list GraphQLError :=
  _errors context.

(** ** Node locator *)

(** [[type.astNode].concat(type.extensionASTNodes || [])] *)
Definition allASTNodes (type : TypeObj) : list (option TypeDefinitionNode) :=
  astNode type ::
  match extensionASTNodes type with
  | Some l => map Some l
  | None => []
  end.

Definition getAllImplementsInterfaceNode (type iface : TypeObj)
    : list NamedTypeNode :=
  flat_map
    (fun astNode =>
       match astNode with
       | Some n =>
           match td_interfaces n with
           | Some interfaces =>
               List.filter
                 (fun node => String.eqb (value (nt_name node)) (name iface))
                 interfaces
           | None => []
           end
       | None => []
       end)
    (allASTNodes type).

Definition getImplementsInterfaceNode (type iface : TypeObj)
    : option NamedTypeNode :=
  head (getAllImplementsInterfaceNode type iface).

Fixpoint getFieldNode_from (astNodes : list (option TypeDefinitionNode))
    (fieldName : string) : option FieldDefinitionNode :=
  match astNodes with
  | [] => None
  | astNode :: rest =>
      let fieldNode :=
        match astNode with
        | Some n =>
            match td_fields n with
            | Some fields =>
                List.find
                  (fun node => String.eqb (value (fd_name node)) fieldName)
                  fields
            | None => None
            end
        | None => None
        end in
      match fieldNode with
      | Some f => Some f
      | None => getFieldNode_from rest fieldName
      end
  end.

Definition getFieldNode (type : TypeObj) (fieldName : string)
    : option FieldDefinitionNode :=
  getFieldNode_from (allASTNodes type) fieldName.

Definition getFieldTypeNode (type : TypeObj) (fieldName : string)
    : option TypeNode :=
  match getFieldNode type fieldName with
  | Some fieldNode => Some (fd_type fieldNode)
  | None => None
  end.

Definition getFieldArgNode (type : TypeObj) (fieldName argName : string)
    : option InputValueDefinitionNode :=
  match getFieldNode type fieldName with
  | Some fieldNode =>
      match fd_arguments fieldNode with
      | Some arguments =>
          List.find (fun node => String.eqb (value (iv_name node)) argName)
            arguments
      | None => None
      end
  | None => None
  end.

Definition getFieldArgTypeNode (type : TypeObj) (fieldName argName : string)
    : option TypeNode :=
  match getFieldArgNode type fieldName argName with
  | Some fieldArgNode => Some (iv_type fieldArgNode)
  | None => None
  end.

Definition getOperationTypeNode (schema : GraphQLSchema) (type : JSValue)
    (operation_ : string) : MaybeNode :=
  let operationTypeNode :=
    match schema_astNode schema with
    | Some astNode =>
        List.find (fun operationType =>
                     String.eqb (operation operationType) operation_)
          (operationTypes astNode)
    | None => None
    end in
  match operationTypeNode with
  | Some n => Some (N_Type (NamedType (ot_type n)))
  | None => astNodeOf type
  end.

(** ** Completions and arguments of the entry points *)

(** What a [throw] carries: an [Error] built by the validator with its
    message, or a [TypeError] raised by the engine, whose text is the
    engine's. *)
Inductive JSError :=
| Error (msg : string)
| TypeError.

Inductive Completion (A : Type) :=
| Return (a : A)
| Throw (e : JSError).
Arguments Return {A} a.
Arguments Throw {A} e.

(** What a caller can hand to [validateSchema]: a falsy value, a truthy
    value that is not an instance of [GraphQLSchema] (with the name of the
    constructor of its prototype, [None] when it has no prototype, and its
    rendering), or a schema. *)
Inductive SchemaArg :=
| NoSchema
| NotSchema (protoConstructorName : option string) (str : string)
| Schema (s : GraphQLSchema).

(** ** Checkers *)

Section Checkers.

(** The type comparators of utilities/typeComparators, which the validator
    consumes as oracles. *)
Variable isTypeSubTypeOf : GraphQLSchema -> GraphQLType -> GraphQLType -> bool.
Variable isEqualType : GraphQLType -> GraphQLType -> bool.

Definition validateRootTypes (context : SchemaValidationContext)
    (schema : GraphQLSchema) : SchemaValidationContext :=
  let queryType := getQueryType schema in
  let context :=
    if negb (truthy queryType) then
      reportError context "Query root type must be provided."
        (OneNode (option_map N_Schema (schema_astNode schema)))
    else if negb (instanceOf queryType GraphQLObjectType) then
      reportError context
        ("Query root type must be Object type but got: "
           +:+ String_ queryType +:+ ".")
        (OneNode (getOperationTypeNode schema queryType "query"))
    else context in
  let mutationType := getMutationType schema in
  let context :=
    if truthy mutationType && negb (instanceOf mutationType GraphQLObjectType)
    then
      reportError context
        ("Mutation root type must be Object type if provided but got: "
           +:+ (String_ mutationType +:+ "."))
        (OneNode (getOperationTypeNode schema mutationType "mutation"))
    else context in
  let subscriptionType := getSubscriptionType schema in
  if truthy subscriptionType
     && negb (instanceOf subscriptionType GraphQLObjectType)
  then
    reportError context
      ("Subscription root type must be Object type if provided but got: "
         +:+ (String_ subscriptionType +:+ "."))
      (OneNode (getOperationTypeNode schema subscriptionType "subscription"))
  else context.

(** The callback of [directives.forEach]. *)
Definition validateDirective (context : SchemaValidationContext)
    (directive : DirectiveValue) : SchemaValidationContext :=
  match directive with
  | GraphQLDirective _ _ => context
  | NotDirective v =>
      reportError context
        ("Expected directive but got: " +:+ String_ v +:+ ".")
        (OneNode (astNodeOf v))
  end.

Definition validateDirectives (context : SchemaValidationContext)
    (schema : GraphQLSchema) : SchemaValidationContext :=
  let directives := getDirectives schema in
  forEach directives validateDirective context.

(** *** Interface conformance *)

(** Modelled from the spec: [find] of jsutils/find, which is not among the
    sources, on the arguments of a field: the first argument of that name,
    if any. *)
Definition findArg (args : list GraphQLArgument) (argName : string)
    : option GraphQLArgument :=
  List.find (fun arg => String.eqb (arg_name arg) argName) args.

(** The callback of [ifaceField.args.forEach]: each interface field
    argument is implemented, with an equal type. *)
Definition checkIfaceArg (object iface : TypeObj) (fieldName : string)
    (objectField : GraphQLField) (context : SchemaValidationContext)
    (ifaceArg : GraphQLArgument) : SchemaValidationContext :=
  let argName := arg_name ifaceArg in
  let objectArg := findArg (field_args objectField) argName in
  match objectArg with
  | None =>
      reportError context
        (name iface +:+ "." +:+ fieldName +:+ " expects argument " +:+ dq
           +:+ argName +:+ dq +:+ " but "
           +:+ (name object +:+ "." +:+ fieldName
                  +:+ " does not provide it."))
        (NodeArray
           [option_map N_InputValueDefinition
              (getFieldArgNode iface fieldName argName);
            option_map N_FieldDefinition (getFieldNode object fieldName)])
  | Some objectArg =>
      if negb (isEqualType (arg_type ifaceArg) (arg_type objectArg)) then
        reportError context
          (name iface +:+ "." +:+ fieldName +:+ "(" +:+ argName
             +:+ ":) expects type "
             +:+ (dq +:+ toString (arg_type ifaceArg) +:+ dq +:+ " but ")
             +:+ (name object +:+ "." +:+ fieldName +:+ "(" +:+ argName
                    +:+ ":) is type ")
             +:+ (dq +:+ toString (arg_type objectArg) +:+ dq +:+ "."))
          (NodeArray
             [option_map N_Type (getFieldArgTypeNode iface fieldName argName);
              option_map N_Type
                (getFieldArgTypeNode object fieldName argName)])
      else context
  end.

(** The callback of [objectField.args.forEach]: additional arguments must
    not be required. *)
Definition checkObjectArg (object iface : TypeObj) (fieldName : string)
    (ifaceField : GraphQLField) (context : SchemaValidationContext)
    (objectArg : GraphQLArgument) : SchemaValidationContext :=
  let argName := arg_name objectArg in
  let ifaceArg := findArg (field_args ifaceField) argName in
  if negb (Boolean ifaceArg) && isNonNull (arg_type objectArg) then
    reportError context
      (name object +:+ "." +:+ fieldName +:+ "(" +:+ argName
         +:+ ":) is of required type "
         +:+ (dq +:+ toString (arg_type objectArg) +:+ dq
                +:+ " but is not also provided by the ")
         +:+ ("interface " +:+ name iface +:+ "." +:+ fieldName +:+ "."))
      (NodeArray
         [option_map N_Type (getFieldArgTypeNode object fieldName argName);
          option_map N_FieldDefinition (getFieldNode iface fieldName)])
  else context.

(** The callback of [Object.keys(ifaceFieldMap).forEach]. A key of
    [ifaceFieldMap] always has a value; the [None] branch of the second
    lookup is there for totality only. *)
Definition checkIfaceField (schema : GraphQLSchema) (object iface : TypeObj)
    (context : SchemaValidationContext) (fieldName : string)
    : SchemaValidationContext :=
  let objectFieldMap := getFields object in
  let ifaceFieldMap := getFields iface in
  match prop ifaceFieldMap fieldName with
  | None => context
  | Some ifaceField =>
      match prop objectFieldMap fieldName with
      | None =>
          reportError context
            (dq +:+ name iface +:+ dq +:+ " expects field " +:+ dq
               +:+ fieldName +:+ dq +:+ " but " +:+ dq +:+ name object
               +:+ dq +:+ " " +:+ "does not provide it.")
            (NodeArray
               [option_map N_FieldDefinition (getFieldNode iface fieldName);
                option_map N_TypeDefinition (astNode object)])
      | Some objectField =>
          let context :=
            if negb (isTypeSubTypeOf schema (field_type objectField)
                       (field_type ifaceField))
            then
              reportError context
                (name iface +:+ "." +:+ fieldName +:+ " expects type "
                   +:+ (dq +:+ toString (field_type ifaceField) +:+ dq
                          +:+ " but " +:+ name object +:+ "." +:+ fieldName
                          +:+ " is ")
                   +:+ ("type " +:+ dq +:+ toString (field_type objectField)
                          +:+ dq +:+ "."))
                (NodeArray
                   [option_map N_Type (getFieldTypeNode iface fieldName);
                    option_map N_Type (getFieldTypeNode object fieldName)])
            else context in
          let context :=
            forEach (field_args ifaceField)
              (checkIfaceArg object iface fieldName objectField) context in
          forEach (field_args objectField)
            (checkObjectArg object iface fieldName ifaceField) context
      end
  end.

Definition validateObjectImplementsInterface
    (context : SchemaValidationContext) (schema : GraphQLSchema)
    (object iface : TypeObj) : SchemaValidationContext :=
  if negb (TypeClass_eqb (constructor iface) GraphQLInterfaceType) then
    reportError context
      (String_ (TypeValue object)
         +:+ " must only implement Interface types, it cannot "
         +:+ ("implement " +:+ String_ (TypeValue iface) +:+ "."))
      (OneNode
         (option_map (fun n => N_Type (NamedType n))
            (getImplementsInterfaceNode object iface)))
  else
    forEach (Object_keys (getFields iface))
      (checkIfaceField schema object iface) context.

(** *** Type registry walk *)

(** The callback of [type.getInterfaces().forEach]; the state is the pair
    of [implementedTypeNames] and the context. *)
Definition checkImplementedInterface (schema : GraphQLSchema) (type : TypeObj)
    (st : gset string * SchemaValidationContext) (iface : TypeObj)
    : gset string * SchemaValidationContext :=
  let '(implementedTypeNames, context) := st in
  let context :=
    if bool_decide (name iface ∈ implementedTypeNames) then
      reportError context
        (name type +:+ " must declare it implements " +:+ name iface
           +:+ " only once.")
        (NodeArray
           (map (fun n => Some (N_Type (NamedType n)))
              (getAllImplementsInterfaceNode type iface)))
    else context in
  let implementedTypeNames := {[ name iface ]} ∪ implementedTypeNames in
  (implementedTypeNames,
   validateObjectImplementsInterface context schema type iface).

(** The callback of [Object.keys(typeMap).forEach]. *)
Definition validateType (schema : GraphQLSchema)
    (context : SchemaValidationContext) (typeName : string)
    : SchemaValidationContext :=
  let type :=
    match prop (getTypeMap schema) typeName with
    | Some v => v
    | None => Falsy "undefined"
    end in
  let context :=
    if negb (isType type) then
      reportError context
        ("Expected GraphQL type but got: " +:+ String_ type +:+ ".")
        (OneNode (astNodeOf type))
    else context in
  match type with
  | TypeValue t =>
      if TypeClass_eqb (constructor t) GraphQLObjectType then
        let implementedTypeNames : gset string := ∅ in
        snd (forEach (getInterfaces t) (checkImplementedInterface schema t)
               (implementedTypeNames, context))
      else context
  | _ => context
  end.

Definition validateTypes (context : SchemaValidationContext)
    (schema : GraphQLSchema) : SchemaValidationContext :=
  let typeMap := getTypeMap schema in
  forEach (Object_keys typeMap) (validateType schema) context.

(** ** Entry points *)

Definition crossRealmMessage : string :=
  "Cannot use a GraphQLSchema from another module or realm." +:+ LF +:+ LF
  +:+ "Ensure that there is only one instance of " +:+ dq +:+ "graphql" +:+ dq
  +:+ " in the node_modules"
  +:+ LF
  +:+ "directory. If different versions of " +:+ dq +:+ "graphql" +:+ dq
  +:+ " are the dependencies of other"
  +:+ LF
  +:+ "relied on modules, use " +:+ dq +:+ "resolutions" +:+ dq
  +:+ " to ensure only one version is installed."
  +:+ LF +:+ LF
  +:+ "https://yarnpkg.com/en/docs/selective-version-resolutions" +:+ LF +:+ LF
  +:+ "Duplicate " +:+ dq +:+ "graphql" +:+ dq
  +:+ " modules cannot be used at the same time since different"
  +:+ LF
  +:+ "versions may have different capabilities and behavior. The data from one"
  +:+ LF
  +:+ "version used in the function from another could produce confusing and"
  +:+ LF +:+ "spurious results.".

Definition set_validationErrors (schema : GraphQLSchema)
    (errors : list GraphQLError) : GraphQLSchema :=
  {| schema_astNode := schema_astNode schema;
     getQueryType := getQueryType schema;
     getMutationType := getMutationType schema;
     getSubscriptionType := getSubscriptionType schema;
     getDirectives := getDirectives schema;
     getTypeMap := getTypeMap schema;
     __validationErrors := Some errors |}.

(** [validateSchema] returns its completion together with the argument as
    the call leaves it: the schema object is mutated in place. *)
Definition validateSchema (arg : SchemaArg)
    : Completion (list GraphQLError) * SchemaArg :=
  match arg with
  | NoSchema => (Throw (Error "Must provide schema."), arg)
  | NotSchema None _ =>
      (Throw TypeError, arg)
  | NotSchema (Some ctor) str =>
      if String.eqb ctor "GraphQLSchema" then
        (Throw (Error crossRealmMessage), arg)
      else
        (Throw (Error ("Schema must be an instance of GraphQLSchema. "
                         +:+ ("Received: " +:+ str))), arg)
  | Schema schema =>
      match __validationErrors schema with
      | Some errors => (Return errors, arg)
      | None =>
          let context := new_SchemaValidationContext in
          let context := validateRootTypes context schema in
          let context := validateDirectives context schema in
          let context := validateTypes context schema in
          let errors := getErrors context in
          (Return errors, Schema (set_validationErrors schema errors))
      end
  end.

Definition assertValidSchema (arg : SchemaArg) : Completion unit * SchemaArg :=
  match validateSchema arg with
  | (Throw e, arg') => (Throw e, arg')
  | (Return errors, arg') =>
      if negb (Nat.eqb (List.length errors) 0) then
        (Throw (Error (join (LF +:+ LF) (map message errors))), arg')
      else (Return tt, arg')
  end.

End Checkers.

(** ** Type comparators *)

Module TypeComparators.

Fixpoint GraphQLType_eqb (a b : GraphQLType) : bool :=
  match a, b with
  | Named ca na, Named cb nb => TypeClass_eqb ca cb && String.eqb na nb
  | GraphQLList a', GraphQLList b' => GraphQLType_eqb a' b'
  | GraphQLNonNull a', GraphQLNonNull b' => GraphQLType_eqb a' b'
  | _, _ => false
  end.

(** Modelled from the spec: [isEqualType] of utilities/typeComparators,
    which is not among the sources: structural equality over type
    descriptions, including wrapper nesting. *)
Definition isEqualType (typeA typeB : GraphQLType) : bool :=
  GraphQLType_eqb typeA typeB.

(** Modelled from the spec: [schema.isPossibleType] as the comparators use
    it: an object type is a possible type of an interface it implements and
    of a union it is a member of. *)
Definition isPossibleType (schema : GraphQLSchema)
    (abstractClass : TypeClass) (abstractName objectName : string) : bool :=
  match abstractClass with
  | GraphQLInterfaceType =>
      match prop (getTypeMap schema) objectName with
      | Some (TypeValue t) =>
          existsb (fun iface => String.eqb (name iface) abstractName)
            (getInterfaces t)
      | _ => false
      end
  | GraphQLUnionType =>
      match prop (getTypeMap schema) abstractName with
      | Some (TypeValue u) => existsb (String.eqb objectName) (getTypes u)
      | _ => false
      end
  | _ => false
  end.

(** Modelled from the spec: [isTypeSubTypeOf] of utilities/typeComparators,
    which is not among the sources: identical types, List and NonNull wrapper
    compatibility, object-implements-interface and member-of-union are
    subtype-true; anything else is false. *)
Fixpoint isTypeSubTypeOf (schema : GraphQLSchema)
    (maybeSubType superType : GraphQLType) : bool :=
  GraphQLType_eqb maybeSubType superType
  || match maybeSubType, superType with
     | GraphQLNonNull m, GraphQLNonNull s => isTypeSubTypeOf schema m s
     | _, GraphQLNonNull _ => false
     | GraphQLNonNull m, _ => isTypeSubTypeOf schema m superType
     | GraphQLList m, GraphQLList s => isTypeSubTypeOf schema m s
     | _, GraphQLList _ => false
     | GraphQLList _, _ => false
     | Named cm nm, Named cs ns =>
         TypeClass_eqb cm GraphQLObjectType && isPossibleType schema cs ns nm
     end.

End TypeComparators.

(** ** The diagnostics the checkers are expected to report *)

Module Expected.

Definition queryTypeMissing (schema : GraphQLSchema) : GraphQLError :=
  mkGraphQLError "Query root type must be provided."
    (List.filter Boolean [option_map N_Schema (schema_astNode schema)]).

Definition onlyOnceMessage (type : TypeObj) (ifaceName : string) : string :=
  name type +:+ " must declare it implements " +:+ ifaceName +:+ " only once.".

Definition onlyOnce (type iface : TypeObj) : GraphQLError :=
  mkGraphQLError (onlyOnceMessage type (name iface))
    (map (fun n => Some (N_Type (NamedType n)))
       (getAllImplementsInterfaceNode type iface)).

Definition missingField (object iface : TypeObj) (fieldName : string)
    : GraphQLError :=
  mkGraphQLError
    (dq +:+ name iface +:+ dq +:+ " expects field " +:+ dq +:+ fieldName
       +:+ dq +:+ " but " +:+ dq +:+ name object +:+ dq
       +:+ " does not provide it.")
    (List.filter Boolean
       [option_map N_FieldDefinition (getFieldNode iface fieldName);
        option_map N_TypeDefinition (astNode object)]).

Definition argTypeMismatch (object iface : TypeObj) (fieldName : string)
    (ifaceArg objectArg : GraphQLArgument) : GraphQLError :=
  let argName := arg_name ifaceArg in
  mkGraphQLError
    (name iface +:+ "." +:+ fieldName +:+ "(" +:+ argName
       +:+ ":) expects type " +:+ dq +:+ toString (arg_type ifaceArg) +:+ dq
       +:+ " but " +:+ name object +:+ "." +:+ fieldName +:+ "(" +:+ argName
       +:+ ":) is type " +:+ dq +:+ toString (arg_type objectArg) +:+ dq
       +:+ ".")
    (List.filter Boolean
       [option_map N_Type (getFieldArgTypeNode iface fieldName argName);
        option_map N_Type (getFieldArgTypeNode object fieldName argName)]).

Definition fieldTypeMismatch (object iface : TypeObj) (fieldName : string)
    (ifaceField objectField : GraphQLField) : GraphQLError :=
  mkGraphQLError
    (name iface +:+ "." +:+ fieldName +:+ " expects type " +:+ dq
       +:+ toString (field_type ifaceField) +:+ dq +:+ " but "
       +:+ name object +:+ "." +:+ fieldName +:+ " is type " +:+ dq
       +:+ toString (field_type objectField) +:+ dq +:+ ".")
    (List.filter Boolean
       [option_map N_Type (getFieldTypeNode iface fieldName);
        option_map N_Type (getFieldTypeNode object fieldName)]).

Definition requiredExtraArg (object iface : TypeObj) (fieldName : string)
    (objectArg : GraphQLArgument) : GraphQLError :=
  let argName := arg_name objectArg in
  mkGraphQLError
    (name object +:+ "." +:+ fieldName +:+ "(" +:+ argName
       +:+ ":) is of required type " +:+ dq +:+ toString (arg_type objectArg)
       +:+ dq +:+ " but is not also provided by the interface "
       +:+ name iface +:+ "." +:+ fieldName +:+ ".")
    (List.filter Boolean
       [option_map N_Type (getFieldArgTypeNode object fieldName argName);
        option_map N_FieldDefinition (getFieldNode iface fieldName)]).

Definition missingArg (object iface : TypeObj) (fieldName : string)
    (ifaceArg : GraphQLArgument) : GraphQLError :=
  let argName := arg_name ifaceArg in
  mkGraphQLError
    (name iface +:+ "." +:+ fieldName +:+ " expects argument " +:+ dq
       +:+ argName +:+ dq +:+ " but " +:+ name object +:+ "." +:+ fieldName
       +:+ " does not provide it.")
    (List.filter Boolean
       [option_map N_InputValueDefinition
          (getFieldArgNode iface fieldName argName);
        option_map N_FieldDefinition (getFieldNode object fieldName)]).

Definition notInterface (object iface : TypeObj) : GraphQLError :=
  mkGraphQLError
    (name object +:+ " must only implement Interface types, it cannot implement "
       +:+ name iface +:+ ".")
    (List.filter Boolean
       [option_map (fun n => N_Type (NamedType n))
          (getImplementsInterfaceNode object iface)]).

Definition rootNotObject (prefix operation_ : string) (schema : GraphQLSchema)
    (type : JSValue) : GraphQLError :=
  mkGraphQLError (prefix +:+ String_ type +:+ ".")
    (List.filter Boolean [getOperationTypeNode schema type operation_]).

Definition notDirective (v : JSValue) : GraphQLError :=
  mkGraphQLError ("Expected directive but got: " +:+ String_ v +:+ ".")
    (List.filter Boolean [astNodeOf v]).

Definition notType (v : JSValue) : GraphQLError :=
  mkGraphQLError ("Expected GraphQL type but got: " +:+ String_ v +:+ ".")
    (List.filter Boolean [astNodeOf v]).

(** What the root type checker reports for each of the three slots. *)
Definition queryTypeErrors (schema : GraphQLSchema) : list GraphQLError :=
  if negb (truthy (getQueryType schema)) then [queryTypeMissing schema]
  else if negb (instanceOf (getQueryType schema) GraphQLObjectType) then
    [rootNotObject "Query root type must be Object type but got: " "query"
       schema (getQueryType schema)]
  else [].

Definition optionalRootErrors (prefix operation_ : string)
    (schema : GraphQLSchema) (type : JSValue) : list GraphQLError :=
  if truthy type && negb (instanceOf type GraphQLObjectType) then
    [rootNotObject prefix operation_ schema type]
  else [].

Definition mutationTypeErrors (schema : GraphQLSchema) : list GraphQLError :=
  optionalRootErrors
    "Mutation root type must be Object type if provided but got: " "mutation"
    schema (getMutationType schema).

Definition subscriptionTypeErrors (schema : GraphQLSchema)
    : list GraphQLError :=
  optionalRootErrors
    "Subscription root type must be Object type if provided but got: "
    "subscription" schema (getSubscriptionType schema).

End Expected.

(** ** Vocabulary of the properties *)

(** The diagnostics the interface conformance checker can report for one
    object type and one interface. *)
Inductive conformanceError (object iface : TypeObj) : GraphQLError -> Prop :=
| CE_notInterface :
    conformanceError object iface (Expected.notInterface object iface)
| CE_missingField fieldName :
    conformanceError object iface
      (Expected.missingField object iface fieldName)
| CE_fieldTypeMismatch fieldName ifaceField objectField :
    conformanceError object iface
      (Expected.fieldTypeMismatch object iface fieldName ifaceField
         objectField)
| CE_missingArg fieldName ifaceArg :
    conformanceError object iface
      (Expected.missingArg object iface fieldName ifaceArg)
| CE_argTypeMismatch fieldName ifaceArg objectArg :
    conformanceError object iface
      (Expected.argTypeMismatch object iface fieldName ifaceArg objectArg)
| CE_requiredExtraArg fieldName objectArg :
    conformanceError object iface
      (Expected.requiredExtraArg object iface fieldName objectArg).

(** The diagnostics the whole pass can report on a schema. *)
Inductive schemaError (schema : GraphQLSchema) : GraphQLError -> Prop :=
| SE_queryTypeMissing :
    schemaError schema (Expected.queryTypeMissing schema)
| SE_rootNotObject prefix operation_ type :
    In type [getQueryType schema; getMutationType schema;
             getSubscriptionType schema] ->
    schemaError schema (Expected.rootNotObject prefix operation_ schema type)
| SE_notDirective v :
    In (NotDirective v) (getDirectives schema) ->
    schemaError schema (Expected.notDirective v)
| SE_notType typeName v :
    In (typeName, v) (getTypeMap schema) ->
    schemaError schema (Expected.notType v)
| SE_onlyOnce typeName type iface :
    In (typeName, TypeValue type) (getTypeMap schema) ->
    In iface (getInterfaces type) ->
    schemaError schema (Expected.onlyOnce type iface)
| SE_conformance typeName type iface e :
    In (typeName, TypeValue type) (getTypeMap schema) ->
    In iface (getInterfaces type) ->
    conformanceError type iface e ->
    schemaError schema e.

(** A type, and a schema, built without any syntax node. *)
Definition noSyntaxType (t : TypeObj) : Prop :=
  Forall (fun n => n = None) (allASTNodes t).

Definition noSyntaxValue (v : JSValue) : Prop :=
  astNodeOf v = None
  /\ match v with
     | TypeValue t => noSyntaxType t /\ Forall noSyntaxType (getInterfaces t)
     | _ => True
     end.

Definition noSyntax (schema : GraphQLSchema) : Prop :=
  schema_astNode schema = None
  /\ Forall noSyntaxValue
       [getQueryType schema; getMutationType schema;
        getSubscriptionType schema]
  /\ Forall (fun d => match d with
                      | NotDirective v => noSyntaxValue v
                      | GraphQLDirective _ _ => True
                      end) (getDirectives schema)
  /\ Forall (fun kv => noSyntaxValue (snd kv)) (getTypeMap schema).

(** The diagnostics of each of the three checkers on an empty sink. *)
Definition rootTypeDiagnostics (schema : GraphQLSchema) : list GraphQLError :=
  getErrors (validateRootTypes new_SchemaValidationContext schema).

Definition directiveDiagnostics (schema : GraphQLSchema) : list GraphQLError :=
  getErrors (validateDirectives new_SchemaValidationContext schema).

Definition typeDiagnostics
    (isTypeSubTypeOf : GraphQLSchema -> GraphQLType -> GraphQLType -> bool)
    (isEqualType : GraphQLType -> GraphQLType -> bool)
    (schema : GraphQLSchema) : list GraphQLError :=
  getErrors
    (validateTypes isTypeSubTypeOf isEqualType new_SchemaValidationContext
       schema).

(** No entry of the node list is [undefined]. *)
Definition noAbsentNode (e : GraphQLError) : Prop :=
  Forall (fun n => n <> None) (nodes e).

(** How often a message occurs in a list of diagnostics, and how often an
    interface name occurs in a list of interfaces. *)
Definition countMessage (msg : string) (errors : list GraphQLError) : nat :=
  List.length (List.filter (fun e => String.eqb (message e) msg) errors).

Definition countName (n : string) (ifaces : list TypeObj) : nat :=
  List.length (List.filter (fun i => String.eqb (name i) n) ifaces).

(** Reversal, to compare two messages from their last characters on. *)
Fixpoint srev (s : string) : string :=
  match s with
  | EmptyString => EmptyString
  | String c s' => srev s' +:+ String c EmptyString
  end.

(** [framed f]: the step [f] leaves the diagnostics already in the sink
    alone and appends what it would report to an empty sink. *)
Definition framed (f : SchemaValidationContext -> SchemaValidationContext)
    : Prop :=
  forall context,
    getErrors (f context)
    = getErrors context ++ getErrors (f new_SchemaValidationContext).

(** ** A sample schema

    [interface Node { id(format: String): String  name: String }] and
    [type User implements Node & Node { id(format: String!, extra: String!,
    opt: String): String! }] with [extend type User implements Node]; no
    query root type. *)

Module Sample.

Definition StringType : GraphQLType := Named GraphQLScalarType "String".

Definition namedAt (n : string) (loc : nat) : NamedTypeNode :=
  {| nt_name := {| value := n |}; nt_loc := loc |}.

Definition named (n : string) : NamedTypeNode := namedAt n 0.

Definition arg (n : string) (t : GraphQLType) : GraphQLArgument :=
  {| arg_name := n; arg_type := t |}.

Definition Node_id : GraphQLField :=
  {| field_type := StringType; field_args := [arg "format" StringType] |}.

Definition Node_name : GraphQLField :=
  {| field_type := StringType; field_args := [] |}.

Definition NodeDefinition : TypeDefinitionNode :=
  {| td_name := {| value := "Node" |};
     td_interfaces := None;
     td_fields :=
       Some [ {| fd_name := {| value := "id" |};
                 fd_arguments :=
                   Some [ {| iv_name := {| value := "format" |};
                             iv_type := NamedType (named "String") |} ];
                 fd_type := NamedType (named "String") |};
              {| fd_name := {| value := "name" |};
                 fd_arguments := Some [];
                 fd_type := NamedType (named "String") |} ] |}.

Definition Node : TypeObj :=
  {| constructor := GraphQLInterfaceType;
     name := "Node";
     getFields := [("id", Node_id); ("name", Node_name)];
     getInterfaces := [];
     getTypes := [];
     astNode := Some NodeDefinition;
     extensionASTNodes := None |}.

Definition User_id : GraphQLField :=
  {| field_type := GraphQLNonNull StringType;
     field_args :=
       [arg "format" (GraphQLNonNull StringType);
        arg "extra" (GraphQLNonNull StringType);
        arg "opt" StringType] |}.

Definition UserDefinition : TypeDefinitionNode :=
  {| td_name := {| value := "User" |};
     td_interfaces := Some [namedAt "Node" 1; namedAt "Node" 2];
     td_fields := None |}.

Definition UserExtension : TypeDefinitionNode :=
  {| td_name := {| value := "User" |};
     td_interfaces := Some [namedAt "Node" 3];
     td_fields := None |}.

Definition User : TypeObj :=
  {| constructor := GraphQLObjectType;
     name := "User";
     getFields := [("id", User_id)];
     getInterfaces := [Node; Node; Node];
     getTypes := [];
     astNode := Some UserDefinition;
     extensionASTNodes := Some [UserExtension] |}.

Definition schema : GraphQLSchema :=
  {| schema_astNode := None;
     getQueryType := Falsy "undefined";
     getMutationType := Falsy "undefined";
     getSubscriptionType := Falsy "undefined";
     getDirectives := [];
     getTypeMap := [("Node", TypeValue Node); ("User", TypeValue User)];
     __validationErrors := None |}.

(** A schema built without syntax nodes: an interface [Plain] with one
    field, an object type [Bare] that implements it twice and declares no
    field at all, and no query root type. *)
Definition Plain : TypeObj :=
  {| constructor := GraphQLInterfaceType;
     name := "Plain";
     getFields := [("id", Node_name)];
     getInterfaces := [];
     getTypes := [];
     astNode := None;
     extensionASTNodes := None |}.

Definition Bare : TypeObj :=
  {| constructor := GraphQLObjectType;
     name := "Bare";
     getFields := [];
     getInterfaces := [Plain; Plain];
     getTypes := [];
     astNode := None;
     extensionASTNodes := None |}.

Definition bareSchema : GraphQLSchema :=
  {| schema_astNode := None;
     getQueryType := Falsy "undefined";
     getMutationType := Falsy "undefined";
     getSubscriptionType := Falsy "undefined";
     getDirectives := [];
     getTypeMap := [("Plain", TypeValue Plain); ("Bare", TypeValue Bare)];
     __validationErrors := None |}.

(** A schema that is valid: [type Query { ok: String }]. *)
Definition Query : TypeObj :=
  {| constructor := GraphQLObjectType;
     name := "Query";
     getFields := [("ok", Node_name)];
     getInterfaces := [];
     getTypes := [];
     astNode := None;
     extensionASTNodes := None |}.

Definition validSchema : GraphQLSchema :=
  {| schema_astNode := None;
     getQueryType := TypeValue Query;
     getMutationType := Falsy "undefined";
     getSubscriptionType := Falsy "undefined";
     getDirectives := [];
     getTypeMap := [("Query", TypeValue Query)];
     __validationErrors := None |}.

(** [type Conforming implements Plain { id: String }] in a valid schema. *)
Definition Conforming : TypeObj :=
  {| constructor := GraphQLObjectType;
     name := "Conforming";
     getFields := [("id", Node_name)];
     getInterfaces := [Plain];
     getTypes := [];
     astNode := None;
     extensionASTNodes := None |}.

Definition conformingSchema : GraphQLSchema :=
  {| schema_astNode := None;
     getQueryType := TypeValue Query;
     getMutationType := Falsy "undefined";
     getSubscriptionType := Falsy "undefined";
     getDirectives := [GraphQLDirective "skip" None];
     getTypeMap :=
       [("Query", TypeValue Query); ("Plain", TypeValue Plain);
        ("Conforming", TypeValue Conforming)];
     __validationErrors := None |}.

(** [schema { query: Node }] with the interface [Node] as query root type
    and a directive list whose second entry is no directive. *)
Definition definedSchema : GraphQLSchema :=
  {| schema_astNode :=
       Some {| operationTypes :=
                 [ {| operation := "query"; ot_type := named "Node" |} ] |};
     getQueryType := TypeValue Node;
     getMutationType := Falsy "undefined";
     getSubscriptionType := Falsy "undefined";
     getDirectives :=
       [GraphQLDirective "skip" None;
        NotDirective (OtherValue "[object Object]" None)];
     getTypeMap := [("Node", TypeValue Node)];
     __validationErrors := None |}.

(** [schema { mutation: User, query: User, query: Node }] with the
    interface [Node] as query root type: the operation [query] is declared
    twice. *)
Definition redeclaredSchema : GraphQLSchema :=
  {| schema_astNode :=
       Some {| operationTypes :=
                 [ {| operation := "mutation"; ot_type := namedAt "User" 4 |};
                   {| operation := "query"; ot_type := namedAt "User" 5 |};
                   {| operation := "query"; ot_type := namedAt "Node" 6 |} ] |};
     getQueryType := TypeValue Node;
     getMutationType := Falsy "undefined";
     getSubscriptionType := Falsy "undefined";
     getDirectives := [];
     getTypeMap := [("Node", TypeValue Node)];
     __validationErrors := None |}.

End Sample.

(** ** The diagnostics of the type walker, as lists *)

Section DiagnosticLists.

Variable isTypeSubTypeOf : GraphQLSchema -> GraphQLType -> GraphQLType -> bool.
Variable isEqualType : GraphQLType -> GraphQLType -> bool.

(** What one argument of an interface field calls for. *)
Definition ifaceArgDiagnostics (object iface : TypeObj) (fieldName : string)
    (objectField : GraphQLField) (ifaceArg : GraphQLArgument)
    : list GraphQLError :=
  match findArg (field_args objectField) (arg_name ifaceArg) with
  | None => [Expected.missingArg object iface fieldName ifaceArg]
  | Some objectArg =>
      if isEqualType (arg_type ifaceArg) (arg_type objectArg) then []
      else [Expected.argTypeMismatch object iface fieldName ifaceArg objectArg]
  end.

(** An argument of the object field that the interface field does not have
    and whose type is a NonNull wrapper. *)
Definition isRequiredExtraArg (ifaceField : GraphQLField)
    (objectArg : GraphQLArgument) : bool :=
  negb (Boolean (findArg (field_args ifaceField) (arg_name objectArg)))
  && isNonNull (arg_type objectArg).

(** What one field of an interface calls for. *)
Definition fieldDiagnostics (schema : GraphQLSchema) (object iface : TypeObj)
    (fieldName : string) : list GraphQLError :=
  match prop (getFields iface) fieldName with
  | None => []
  | Some ifaceField =>
      match prop (getFields object) fieldName with
      | None => [Expected.missingField object iface fieldName]
      | Some objectField =>
          (if isTypeSubTypeOf schema (field_type objectField)
                (field_type ifaceField)
           then []
           else [Expected.fieldTypeMismatch object iface fieldName ifaceField
                   objectField])
          ++ flat_map (ifaceArgDiagnostics object iface fieldName objectField)
               (field_args ifaceField)
          ++ map (Expected.requiredExtraArg object iface fieldName)
               (List.filter (isRequiredExtraArg ifaceField)
                  (field_args objectField))
      end
  end.

(** What one claimed interface of an object type calls for. *)
Definition conformanceDiagnostics (schema : GraphQLSchema)
    (object iface : TypeObj) : list GraphQLError :=
  if TypeClass_eqb (constructor iface) GraphQLInterfaceType then
    flat_map (fieldDiagnostics schema object iface)
      (Object_keys (getFields iface))
  else [Expected.notInterface object iface].

(** What a list of interface references of [type] calls for, given the
    names [seen] on earlier references and what the conformance check
    reports for a reference: for each reference in turn, the "only once"
    diagnostic when its name was seen, then the conformance diagnostics. *)
Fixpoint referenceDiagnostics (type : TypeObj)
    (conformance : TypeObj -> list GraphQLError) (seen : list string)
    (ifaces : list TypeObj) : list GraphQLError :=
  match ifaces with
  | [] => []
  | iface :: rest =>
      (if existsb (String.eqb (name iface)) seen
       then [Expected.onlyOnce type iface] else [])
      ++ conformance iface
      ++ referenceDiagnostics type conformance (seen ++ [name iface]) rest
  end.

(** A defect of an object type against a claimed interface, with the
    diagnostic that reports it. *)
Inductive conformanceDefect (schema : GraphQLSchema) (object iface : TypeObj)
    : GraphQLError -> Prop :=
| CD_notInterface :
    constructor iface <> GraphQLInterfaceType ->
    conformanceDefect schema object iface (Expected.notInterface object iface)
| CD_missingField fieldName ifaceField :
    constructor iface = GraphQLInterfaceType ->
    prop (getFields iface) fieldName = Some ifaceField ->
    prop (getFields object) fieldName = None ->
    conformanceDefect schema object iface
      (Expected.missingField object iface fieldName)
| CD_fieldTypeMismatch fieldName ifaceField objectField :
    constructor iface = GraphQLInterfaceType ->
    prop (getFields iface) fieldName = Some ifaceField ->
    prop (getFields object) fieldName = Some objectField ->
    isTypeSubTypeOf schema (field_type objectField) (field_type ifaceField)
    = false ->
    conformanceDefect schema object iface
      (Expected.fieldTypeMismatch object iface fieldName ifaceField
         objectField)
| CD_missingArg fieldName ifaceField objectField ifaceArg :
    constructor iface = GraphQLInterfaceType ->
    prop (getFields iface) fieldName = Some ifaceField ->
    prop (getFields object) fieldName = Some objectField ->
    In ifaceArg (field_args ifaceField) ->
    findArg (field_args objectField) (arg_name ifaceArg) = None ->
    conformanceDefect schema object iface
      (Expected.missingArg object iface fieldName ifaceArg)
| CD_argTypeMismatch fieldName ifaceField objectField ifaceArg objectArg :
    constructor iface = GraphQLInterfaceType ->
    prop (getFields iface) fieldName = Some ifaceField ->
    prop (getFields object) fieldName = Some objectField ->
    In ifaceArg (field_args ifaceField) ->
    findArg (field_args objectField) (arg_name ifaceArg) = Some objectArg ->
    isEqualType (arg_type ifaceArg) (arg_type objectArg) = false ->
    conformanceDefect schema object iface
      (Expected.argTypeMismatch object iface fieldName ifaceArg objectArg)
| CD_requiredExtraArg fieldName ifaceField objectField objectArg :
    constructor iface = GraphQLInterfaceType ->
    prop (getFields iface) fieldName = Some ifaceField ->
    prop (getFields object) fieldName = Some objectField ->
    In objectArg (field_args objectField) ->
    findArg (field_args ifaceField) (arg_name objectArg) = None ->
    isNonNull (arg_type objectArg) = true ->
    conformanceDefect schema object iface
      (Expected.requiredExtraArg object iface fieldName objectArg).

(** A defect of a schema, with the diagnostic that reports it. *)
Inductive schemaDefect (schema : GraphQLSchema) : GraphQLError -> Prop :=
| SD_queryTypeMissing :
    truthy (getQueryType schema) = false ->
    schemaDefect schema (Expected.queryTypeMissing schema)
| SD_queryNotObject :
    truthy (getQueryType schema) = true ->
    instanceOf (getQueryType schema) GraphQLObjectType = false ->
    schemaDefect schema
      (Expected.rootNotObject "Query root type must be Object type but got: "
         "query" schema (getQueryType schema))
| SD_mutationNotObject :
    truthy (getMutationType schema) = true ->
    instanceOf (getMutationType schema) GraphQLObjectType = false ->
    schemaDefect schema
      (Expected.rootNotObject
         "Mutation root type must be Object type if provided but got: "
         "mutation" schema (getMutationType schema))
| SD_subscriptionNotObject :
    truthy (getSubscriptionType schema) = true ->
    instanceOf (getSubscriptionType schema) GraphQLObjectType = false ->
    schemaDefect schema
      (Expected.rootNotObject
         "Subscription root type must be Object type if provided but got: "
         "subscription" schema (getSubscriptionType schema))
| SD_notDirective v :
    In (NotDirective v) (getDirectives schema) ->
    schemaDefect schema (Expected.notDirective v)
| SD_notType typeName v :
    prop (getTypeMap schema) typeName = Some v ->
    isType v = false ->
    schemaDefect schema (Expected.notType v)
| SD_onlyOnce typeName type pre iface post :
    prop (getTypeMap schema) typeName = Some (TypeValue type) ->
    constructor type = GraphQLObjectType ->
    getInterfaces type = pre ++ iface :: post ->
    In (name iface) (map name pre) ->
    schemaDefect schema (Expected.onlyOnce type iface)
| SD_conformance typeName type iface e :
    prop (getTypeMap schema) typeName = Some (TypeValue type) ->
    constructor type = GraphQLObjectType ->
    In iface (getInterfaces type) ->
    conformanceDefect schema type iface e ->
    schemaDefect schema e.

End DiagnosticLists.

(** The interface references written on the definition node and on the
    extension nodes of a type, in that order. *)
Definition interfaceReferences (type : TypeObj) : list NamedTypeNode :=
  flat_map
    (fun astNode =>
       match astNode with
       | Some n =>
           match td_interfaces n with
           | Some interfaces => interfaces
           | None => []
           end
       | None => []
       end)
    (allASTNodes type).

(** ** The pass with its exceptions *)

Module Raw.

(** What a slot can hold at run time, beyond the values of [JSValue]: an
    object without [toString] and [valueOf], such as [Object.create(null)],
    which is truthy, is an instance of no class, lets its [astNode] be read
    and makes [String(v)] raise a TypeError; and a type object like [t]
    whose [getInterfaces()] returns an array with [undefined] among its
    entries ([None]), as a reference to an interface not yet defined when
    the type is built leaves one. *)
Inductive Value :=
| Plain (v : JSValue)
| NoToString (node : MaybeNode)
| WithInterfaces (t : TypeObj) (interfaces : list (option TypeObj)).

Inductive Directive :=
| IsDirective (name : string) (node : option DirectiveDefinitionNode)
| IsNotDirective (v : Value).

Record RawSchema := {
  rawASTNode : option SchemaDefinitionNode;
  rawQueryType : Value;
  rawMutationType : Value;
  rawSubscriptionType : Value;
  rawDirectives : list Directive;
  rawTypeMap : ObjMap Value;
  rawValidationErrors : option (list GraphQLError)
}.

Inductive Arg :=
| NoArg
| NotASchema (protoConstructorName : option string) (str : string)
| ASchema (s : RawSchema).

(** The entries of an interface array that are defined. *)
Definition definedInterfaces (interfaces : list (option TypeObj))
    : list TypeObj :=
  flat_map (fun iface => match iface with
                         | Some i => [i]
                         | None => []
                         end) interfaces.

Definition withInterfaces (t : TypeObj) (interfaces : list TypeObj)
    : TypeObj :=
  {| constructor := constructor t;
     name := name t;
     getFields := getFields t;
     getInterfaces := interfaces;
     getTypes := getTypes t;
     astNode := astNode t;
     extensionASTNodes := extensionASTNodes t |}.

(** The value as the comparators and the conformance check get it: they
    render no value and read no interface array. *)
Definition plainValue (v : Value) : JSValue :=
  match v with
  | Plain v => v
  | NoToString node => OtherValue EmptyString node
  | WithInterfaces t interfaces =>
      TypeValue (withInterfaces t (definedInterfaces interfaces))
  end.

(** [String(v)] *)
Definition toString (v : Value) : Completion string :=
  match v with
  | Plain v => Return (String_ v)
  | NoToString _ => Throw TypeError
  | WithInterfaces t _ => Return (String_ (TypeValue t))
  end.

Definition isTruthy (v : Value) : bool :=
  match v with
  | Plain v => truthy v
  | NoToString _ => true
  | WithInterfaces t _ => truthy (TypeValue t)
  end.

Definition isInstanceOf (v : Value) (c : TypeClass) : bool :=
  match v with
  | Plain v => instanceOf v c
  | NoToString _ => false
  | WithInterfaces t _ => instanceOf (TypeValue t) c
  end.

Definition isAType (v : Value) : bool :=
  match v with
  | Plain v => isType v
  | NoToString _ => false
  | WithInterfaces t _ => isType (TypeValue t)
  end.

(** [v && v.astNode] *)
Definition nodeOf (v : Value) : MaybeNode :=
  match v with
  | Plain v => astNodeOf v
  | NoToString node => node
  | WithInterfaces t _ => astNodeOf (TypeValue t)
  end.

(** [type instanceof GraphQLObjectType] and then [type.getInterfaces()]:
    the type object and the array. *)
Definition objectInterfaces (v : Value)
    : option (TypeObj * list (option TypeObj)) :=
  match v with
  | Plain (TypeValue t) =>
      if TypeClass_eqb (constructor t) GraphQLObjectType
      then Some (t, map Some (getInterfaces t)) else None
  | WithInterfaces t interfaces =>
      if TypeClass_eqb (constructor t) GraphQLObjectType
      then Some (withInterfaces t (definedInterfaces interfaces), interfaces)
      else None
  | _ => None
  end.

Definition plainDirective (d : Directive) : DirectiveValue :=
  match d with
  | IsDirective n node => GraphQLDirective n node
  | IsNotDirective v => NotDirective (plainValue v)
  end.

Definition plainSchema (schema : RawSchema) : GraphQLSchema :=
  {| schema_astNode := rawASTNode schema;
     getQueryType := plainValue (rawQueryType schema);
     getMutationType := plainValue (rawMutationType schema);
     getSubscriptionType := plainValue (rawSubscriptionType schema);
     getDirectives := map plainDirective (rawDirectives schema);
     getTypeMap := map (fun kv => (fst kv, plainValue (snd kv)))
                     (rawTypeMap schema);
     __validationErrors := rawValidationErrors schema |}.

(** A schema none of whose values is out of the ordinary. *)
Definition ofDirective (d : DirectiveValue) : Directive :=
  match d with
  | GraphQLDirective n node => IsDirective n node
  | NotDirective v => IsNotDirective (Plain v)
  end.

Definition ofSchema (schema : GraphQLSchema) : RawSchema :=
  {| rawASTNode := schema_astNode schema;
     rawQueryType := Plain (getQueryType schema);
     rawMutationType := Plain (getMutationType schema);
     rawSubscriptionType := Plain (getSubscriptionType schema);
     rawDirectives := map ofDirective (getDirectives schema);
     rawTypeMap := map (fun kv => (fst kv, Plain (snd kv)))
                     (getTypeMap schema);
     rawValidationErrors := __validationErrors schema |}.

Definition ofArg (arg : SchemaArg) : Arg :=
  match arg with
  | NoSchema => NoArg
  | NotSchema ctor str => NotASchema ctor str
  | Schema s => ASchema (ofSchema s)
  end.

Definition bind {A B} (c : Completion A) (f : A -> Completion B)
    : Completion B :=
  match c with
  | Return a => f a
  | Throw e => Throw e
  end.

(** [l.forEach(f)] where [f] can throw: what is left of the list after a
    throw is not visited. *)
Definition forEachOrThrow {A S : Type} (l : list A)
    (f : S -> A -> Completion S) (s : S) : Completion S :=
  fold_left (fun c a => bind c (fun s => f s a)) l (Return s).

(** The values on which the pass throws: a value [String] cannot convert
    in a root slot, as an entry of the directive list or as a value of the
    type map, each of which the checkers render; and an object type of the
    type map with an interface entry that is [undefined], whose [name] the
    walker reads. *)
Definition unrenderable (v : Value) : bool :=
  match v with
  | NoToString _ => true
  | _ => false
  end.

Definition directiveRaises (d : Directive) : bool :=
  match d with
  | IsDirective _ _ => false
  | IsNotDirective v => unrenderable v
  end.

Definition entryRaises (v : Value) : bool :=
  unrenderable v
  || match objectInterfaces v with
     | Some (_, interfaces) =>
         existsb (fun iface => negb (Boolean iface)) interfaces
     | None => false
     end.

Definition keyRaises (typeMap : ObjMap Value) (typeName : string) : bool :=
  match prop typeMap typeName with
  | Some v => entryRaises v
  | None => false
  end.

Definition raises (schema : RawSchema) : bool :=
  (unrenderable (rawQueryType schema)
   || unrenderable (rawMutationType schema)
   || unrenderable (rawSubscriptionType schema))
  || existsb directiveRaises (rawDirectives schema)
  || existsb (keyRaises (rawTypeMap schema))
       (Object_keys (rawTypeMap schema)).

Section Checkers.

Variable isTypeSubTypeOf : GraphQLSchema -> GraphQLType -> GraphQLType -> bool.
Variable isEqualType : GraphQLType -> GraphQLType -> bool.

Definition getOperationTypeNode (schema : RawSchema) (type : Value)
    (operation_ : string) : MaybeNode :=
  let operationTypeNode :=
    match rawASTNode schema with
    | Some astNode =>
        List.find (fun operationType =>
                     String.eqb (operation operationType) operation_)
          (operationTypes astNode)
    | None => None
    end in
  match operationTypeNode with
  | Some n => Some (N_Type (NamedType (ot_type n)))
  | None => nodeOf type
  end.

Definition validateRootTypes (context : SchemaValidationContext)
    (schema : RawSchema) : Completion SchemaValidationContext :=
  let queryType := rawQueryType schema in
  bind
    (if negb (isTruthy queryType) then
       Return
         (reportError context "Query root type must be provided."
            (OneNode (option_map N_Schema (rawASTNode schema))))
     else if negb (isInstanceOf queryType GraphQLObjectType) then
       bind (toString queryType) (fun str =>
       Return
         (reportError context
            ("Query root type must be Object type but got: " +:+ str +:+ ".")
            (OneNode (getOperationTypeNode schema queryType "query"))))
     else Return context)
    (fun context =>
  let mutationType := rawMutationType schema in
  bind
    (if isTruthy mutationType
        && negb (isInstanceOf mutationType GraphQLObjectType)
     then
       bind (toString mutationType) (fun str =>
       Return
         (reportError context
            ("Mutation root type must be Object type if provided but got: "
               +:+ (str +:+ "."))
            (OneNode (getOperationTypeNode schema mutationType "mutation"))))
     else Return context)
    (fun context =>
  let subscriptionType := rawSubscriptionType schema in
  if isTruthy subscriptionType
     && negb (isInstanceOf subscriptionType GraphQLObjectType)
  then
    bind (toString subscriptionType) (fun str =>
    Return
      (reportError context
         ("Subscription root type must be Object type if provided but got: "
            +:+ (str +:+ "."))
         (OneNode
            (getOperationTypeNode schema subscriptionType "subscription"))))
  else Return context)).

Definition validateDirective (context : SchemaValidationContext)
    (directive : Directive) : Completion SchemaValidationContext :=
  match directive with
  | IsDirective _ _ => Return context
  | IsNotDirective v =>
      bind (toString v) (fun str =>
      Return
        (reportError context
           ("Expected directive but got: " +:+ str +:+ ".")
           (OneNode (nodeOf v))))
  end.

Definition validateDirectives (context : SchemaValidationContext)
    (schema : RawSchema) : Completion SchemaValidationContext :=
  let directives := rawDirectives schema in
  forEachOrThrow directives validateDirective context.

(** The callback of [type.getInterfaces().forEach] on an entry of the
    array: reading [iface.name] of [undefined] raises a TypeError. *)
Definition checkInterfaceEntry (schema : RawSchema) (type : TypeObj)
    (st : gset string * SchemaValidationContext) (iface : option TypeObj)
    : Completion (gset string * SchemaValidationContext) :=
  match iface with
  | None => Throw TypeError
  | Some iface =>
      Return
        (checkImplementedInterface isTypeSubTypeOf isEqualType
           (plainSchema schema) type st iface)
  end.

Definition validateType (schema : RawSchema)
    (context : SchemaValidationContext) (typeName : string)
    : Completion SchemaValidationContext :=
  let type :=
    match prop (rawTypeMap schema) typeName with
    | Some v => v
    | None => Plain (Falsy "undefined")
    end in
  bind
    (if negb (isAType type) then
       bind (toString type) (fun str =>
       Return
         (reportError context
            ("Expected GraphQL type but got: " +:+ str +:+ ".")
            (OneNode (nodeOf type))))
     else Return context)
    (fun context =>
  match objectInterfaces type with
  | Some (type, interfaces) =>
      let implementedTypeNames : gset string := ∅ in
      bind
        (forEachOrThrow interfaces (checkInterfaceEntry schema type)
           (implementedTypeNames, context))
        (fun st => Return (snd st))
  | None => Return context
  end).

Definition validateTypes (context : SchemaValidationContext)
    (schema : RawSchema) : Completion SchemaValidationContext :=
  let typeMap := rawTypeMap schema in
  forEachOrThrow (Object_keys typeMap) (validateType schema) context.

Definition storeErrors (schema : RawSchema) (errors : list GraphQLError)
    : RawSchema :=
  {| rawASTNode := rawASTNode schema;
     rawQueryType := rawQueryType schema;
     rawMutationType := rawMutationType schema;
     rawSubscriptionType := rawSubscriptionType schema;
     rawDirectives := rawDirectives schema;
     rawTypeMap := rawTypeMap schema;
     rawValidationErrors := Some errors |}.

(** [validateSchema], with the exceptions of the checkers: an exception
    leaves the function before the result is stored. *)
Definition validateSchema (arg : Arg) : Completion (list GraphQLError) * Arg :=
  match arg with
  | NoArg => (Throw (Error "Must provide schema."), arg)
  | NotASchema None _ => (Throw TypeError, arg)
  | NotASchema (Some ctor) str =>
      if String.eqb ctor "GraphQLSchema" then
        (Throw (Error crossRealmMessage), arg)
      else
        (Throw (Error ("Schema must be an instance of GraphQLSchema. "
                         +:+ ("Received: " +:+ str))), arg)
  | ASchema schema =>
      match rawValidationErrors schema with
      | Some errors => (Return errors, arg)
      | None =>
          let context := new_SchemaValidationContext in
          match
            bind (validateRootTypes context schema) (fun context =>
            bind (validateDirectives context schema) (fun context =>
            validateTypes context schema))
          with
          | Throw e => (Throw e, arg)
          | Return context =>
              let errors := getErrors context in
              (Return errors, ASchema (storeErrors schema errors))
          end
      end
  end.

End Checkers.




End Raw.

(** ** Conformance, as the checker decides it *)

(** What [validateObjectImplementsInterface] accepts without a word: the
    claimed interface is an interface, and for each of its fields the object
    type has a field of that name whose type is a subtype, which takes each
    argument of the interface field with an equal type, and whose further
    arguments are not of NonNull type. *)
Definition Conforms
    (isTypeSubTypeOf : GraphQLSchema -> GraphQLType -> GraphQLType -> bool)
    (isEqualType : GraphQLType -> GraphQLType -> bool)
    (schema : GraphQLSchema) (object iface : TypeObj) : Prop :=
  constructor iface = GraphQLInterfaceType
  /\ forall fieldName ifaceField,
       prop (getFields iface) fieldName = Some ifaceField ->
       exists objectField,
         prop (getFields object) fieldName = Some objectField
         /\ isTypeSubTypeOf schema (field_type objectField)
              (field_type ifaceField) = true
         /\ (forall ifaceArg,
               In ifaceArg (field_args ifaceField) ->
               exists objectArg,
                 findArg (field_args objectField) (arg_name ifaceArg)
                 = Some objectArg
                 /\ isEqualType (arg_type ifaceArg) (arg_type objectArg)
                    = true)
         /\ (forall objectArg,
               In objectArg (field_args objectField) ->
               findArg (field_args ifaceField) (arg_name objectArg) = None ->
               isNonNull (arg_type objectArg) = false).

(** ** The rule "unique operation names" (src/unnamed/part_000) *)

Module UniqueOperationNames.

(** Modelled from the spec: a Name node of a query document (language/ast is
    not among the sources), with the position that tells two nodes of the
    same value apart. *)
Record Name := { name_value : string; name_loc : nat }.

(** Modelled from the spec: an operation definition node, of which the rule
    reads [name] only; [None] is an operation without a name. *)
Record OperationDefinitionNode := { op_name : option Name }.

(** Modelled from the spec: the diagnostic [new GraphQLError(message,
    nodes)] builds in this rule, whose nodes are Name nodes. *)
Record RuleError := mkRuleError {
  rule_message : string;
  rule_nodes : list Name
}.

Definition duplicateOperationNameMessage (operationName : string) : string :=
  "There can be only one operation named " +:+ dq +:+ operationName +:+ dq
  +:+ ".".

(** What the closures of the visitor share: [knownOperationNames] and the
    errors reported to the context so far. *)
Record RuleState := {
  knownOperationNames : gmap string Name;
  reported : list RuleError
}.

Definition initial : RuleState :=
  {| knownOperationNames := ∅; reported := [] |}.

(** Modelled from the spec: [context.reportError(error)] of the query
    validation context, which is not among the sources: the error is added
    after the ones reported before. *)
Definition reportRuleError (st : RuleState) (error : RuleError) : RuleState :=
  {| knownOperationNames := knownOperationNames st;
     reported := reported st ++ [error] |}.

(** The handler [OperationDefinition(node)]: the state it leaves and the
    value it returns. *)
Definition OperationDefinition (st : RuleState)
    (node : OperationDefinitionNode) : RuleState * bool :=
  let operationName := op_name node in
  match operationName with
  | Some operationName =>
      match knownOperationNames st !! name_value operationName with
      | Some known =>
          (reportRuleError st
             (mkRuleError
                (duplicateOperationNameMessage (name_value operationName))
                [known; operationName]),
           false)
      | None =>
          ({| knownOperationNames :=
                <[ name_value operationName := operationName ]>
                  (knownOperationNames st);
              reported := reported st |},
           false)
      end
  | None => (st, false)
  end.

(** The handler [FragmentDefinition: () => false]. *)
Definition FragmentDefinition (st : RuleState) : RuleState * bool :=
  (st, false).

(** The handler [OperationDefinition] called on each of these nodes, in
    this order. *)
Definition enterOperations (nodes : list OperationDefinitionNode)
    (st : RuleState) : RuleState :=
  forEach nodes (fun st node => fst (OperationDefinition st node)) st.

(** The Name nodes of the operations that have one, in order. *)
Definition operationNames (nodes : list OperationDefinitionNode) : list Name :=
  flat_map (fun node => match op_name node with
                        | Some n => [n]
                        | None => []
                        end) nodes.

(** The first Name node of that value. *)
Definition firstNamed (n : string) (names : list Name) : option Name :=
  List.find (fun x => String.eqb (name_value x) n) names.

(** What the rule is to report for these Name nodes after the nodes [seen]:
    for each node whose value a node before it has, in order, the error
    that cites the first node of that value and then this node. *)
Fixpoint duplicates (seen names : list Name) : list RuleError :=
  match names with
  | [] => []
  | current :: rest =>
      match firstNamed (name_value current) seen with
      | Some first =>
          [mkRuleError (duplicateOperationNameMessage (name_value current))
             [first; current]]
      | None => []
      end
      ++ duplicates (seen ++ [current]) rest
  end.

Definition countNamed (n : string) (names : list Name) : nat :=
  List.length (List.filter (fun x => String.eqb (name_value x) n) names).

Definition countRuleMessage (msg : string) (errors : list RuleError) : nat :=
  List.length
    (List.filter (fun e => String.eqb (rule_message e) msg) errors).

(** [query A], [query], [query B], [query A], [query A] *)
Definition sampleOperations : list OperationDefinitionNode :=
  [ {| op_name := Some {| name_value := "A"; name_loc := 1 |} |};
    {| op_name := None |};
    {| op_name := Some {| name_value := "B"; name_loc := 3 |} |};
    {| op_name := Some {| name_value := "A"; name_loc := 4 |} |};
    {| op_name := Some {| name_value := "A"; name_loc := 5 |} |} ].

(** [query A], [query], [query B] *)
Definition distinctOperations : list OperationDefinitionNode :=
  [ {| op_name := Some {| name_value := "A"; name_loc := 1 |} |};
    {| op_name := None |};
    {| op_name := Some {| name_value := "B"; name_loc := 3 |} |} ].

End UniqueOperationNames.

(** * Properties *)

(** ** Strings *)

Lemma append_nil_r (s : string) : s +:+ EmptyString = s.
Proof. induction s as [|c s IH]; simpl; [reflexivity | now rewrite IH]. Qed.

Lemma append_assoc (s t u : string) : (s +:+ t) +:+ u = s +:+ (t +:+ u).
Proof. induction s as [|c s IH]; simpl; [reflexivity | now rewrite IH]. Qed.

Lemma append_inv_head (s t u : string) : s +:+ t = s +:+ u -> t = u.
Proof.
  induction s as [|c s IH]; simpl; intros H; [exact H |].
  injection H as H. auto.
Qed.

Lemma srev_append (s t : string) : srev (s +:+ t) = srev t +:+ srev s.
Proof.
  induction s as [|c s IH]; simpl.
  - now rewrite append_nil_r.
  - now rewrite IH, append_assoc.
Qed.

Lemma srev_involutive (s : string) : srev (srev s) = s.
Proof.
  induction s as [|c s IH]; simpl; [reflexivity |].
  now rewrite srev_append, IH.
Qed.

Lemma append_inv_tail (s t u : string) : s +:+ u = t +:+ u -> s = t.
Proof.
  intros H. apply (f_equal srev) in H. rewrite !srev_append in H.
  apply append_inv_head in H.
  apply (f_equal srev) in H. now rewrite !srev_involutive in H.
Qed.

(** ** The sink only grows *)

Lemma getErrors_reportError context msg nodes :
  getErrors (reportError context msg nodes)
  = getErrors context
    ++ [mkGraphQLError msg
          (List.filter Boolean
             match nodes with NodeArray ns => ns | OneNode n => [n] end)].
Proof. reflexivity. Qed.

Lemma framed_id : framed (fun context => context).
Proof. intros c. simpl. now rewrite app_nil_r. Qed.

Lemma framed_reportError msg nodes :
  framed (fun context => reportError context msg nodes).
Proof. intros c. reflexivity. Qed.

Lemma framed_compose f g : framed f -> framed g -> framed (fun c => g (f c)).
Proof.
  intros Hf Hg c.
  rewrite (Hg (f c)), (Hf c), (Hg (f new_SchemaValidationContext)).
  now rewrite app_assoc.
Qed.

Lemma framed_if (b : bool) f g :
  framed f -> framed g -> framed (fun c => if b then f c else g c).
Proof. destruct b; auto. Qed.

Lemma framed_ext f g : (forall c, f c = g c) -> framed f -> framed g.
Proof. intros E Hf c. rewrite <- !E. apply Hf. Qed.

Lemma forEach_cons {A S} (f : S -> A -> S) a l s :
  forEach (a :: l) f s = forEach l f (f s a).
Proof. reflexivity. Qed.

Lemma forEach_app {A S} (f : S -> A -> S) l1 l2 s :
  forEach (l1 ++ l2) f s = forEach l2 f (forEach l1 f s).
Proof. unfold forEach. apply fold_left_app. Qed.

Lemma framed_forEach {A} (f : SchemaValidationContext -> A -> SchemaValidationContext) l :
  (forall a, framed (fun c => f c a)) -> framed (forEach l f).
Proof.
  intros Hf. induction l as [|a l IH].
  - apply framed_id.
  - apply (framed_ext (fun c => forEach l f (f c a))); [reflexivity |].
    apply framed_compose; [apply Hf | exact IH].
Qed.

(** What a loop reports is what its steps report, in order. *)
Lemma getErrors_forEach {A} (f : SchemaValidationContext -> A -> SchemaValidationContext) l context :
  (forall a, framed (fun c => f c a)) ->
  getErrors (forEach l f context)
  = getErrors context
    ++ flat_map (fun a => getErrors (f new_SchemaValidationContext a)) l.
Proof.
  intros Hf. revert context. induction l as [|a l IH]; intros c.
  - simpl. now rewrite app_nil_r.
  - rewrite forEach_cons, IH, (Hf a c). simpl. now rewrite app_assoc.
Qed.

(** A diagnostic once reported stays reported. *)
Lemma framed_In f context e :
  framed f -> In e (getErrors context) -> In e (getErrors (f context)).
Proof. intros Hf H. rewrite Hf. apply in_or_app. now left. Qed.

Section WithComparators.

Variable isTypeSubTypeOf : GraphQLSchema -> GraphQLType -> GraphQLType -> bool.
Variable isEqualType : GraphQLType -> GraphQLType -> bool.

Local Abbreviation checkIfaceArg := (checkIfaceArg isEqualType).
Local Abbreviation checkIfaceField :=
  (checkIfaceField isTypeSubTypeOf isEqualType).
Local Abbreviation validateObjectImplementsInterface :=
  (validateObjectImplementsInterface isTypeSubTypeOf isEqualType).
Local Abbreviation checkImplementedInterface :=
  (checkImplementedInterface isTypeSubTypeOf isEqualType).
Local Abbreviation validateType := (validateType isTypeSubTypeOf isEqualType).
Local Abbreviation validateTypes := (validateTypes isTypeSubTypeOf isEqualType).
Local Abbreviation validateSchema := (validateSchema isTypeSubTypeOf isEqualType).
Local Abbreviation assertValidSchema :=
  (assertValidSchema isTypeSubTypeOf isEqualType).

Lemma framed_validateRootTypes schema :
  framed (fun c => validateRootTypes c schema).
Proof.
  intros c. unfold validateRootTypes, getErrors, reportError. cbv zeta.
  repeat match goal with
         | |- context [if ?b then _ else _] => destruct b
         end;
    simpl; rewrite <- ?app_assoc, ?app_nil_r; reflexivity.
Qed.

Lemma framed_validateDirective directive :
  framed (fun c => validateDirective c directive).
Proof.
  destruct directive; [apply framed_id | apply framed_reportError].
Qed.

Lemma framed_validateDirectives schema :
  framed (fun c => validateDirectives c schema).
Proof. apply framed_forEach, framed_validateDirective. Qed.

Lemma framed_checkIfaceArg object iface fieldName objectField ifaceArg :
  framed (fun c => checkIfaceArg object iface fieldName objectField c ifaceArg).
Proof.
  unfold checkIfaceArg.
  destruct (findArg _ _); [| apply framed_reportError].
  apply framed_if; [apply framed_reportError | apply framed_id].
Qed.

Lemma framed_checkObjectArg object iface fieldName ifaceField objectArg :
  framed (fun c => checkObjectArg object iface fieldName ifaceField c objectArg).
Proof.
  unfold checkObjectArg.
  apply framed_if; [apply framed_reportError | apply framed_id].
Qed.

Lemma framed_checkIfaceField schema object iface fieldName :
  framed (fun c => checkIfaceField schema object iface c fieldName).
Proof.
  unfold checkIfaceField.
  destruct (prop (getFields iface) fieldName); [| apply framed_id].
  destruct (prop (getFields object) fieldName); [| apply framed_reportError].
  apply (framed_compose (fun c => forEach _ _ (if _ : bool then _ else c))).
  - apply (framed_compose (fun c => if _ : bool then _ else c)).
    + apply framed_if; [apply framed_reportError | apply framed_id].
    + apply framed_forEach. intros a. apply framed_checkIfaceArg.
  - apply framed_forEach. intros a. apply framed_checkObjectArg.
Qed.

Lemma framed_validateObjectImplementsInterface schema object iface :
  framed (fun c => validateObjectImplementsInterface c schema object iface).
Proof.
  unfold validateObjectImplementsInterface.
  apply framed_if; [apply framed_reportError |].
  apply framed_forEach. intros a. apply framed_checkIfaceField.
Qed.

(** *** The loop over the interfaces of an object type *)

(** One occurrence of an interface: the name is recorded, the duplicate
    diagnostic is reported when it was recorded before, and the conformance
    check runs in either case. *)
Lemma checkImplementedInterface_step schema type implemented context iface :
  fst (checkImplementedInterface schema type (implemented, context) iface)
  = {[ name iface ]} ∪ implemented
  /\ getErrors
       (snd (checkImplementedInterface schema type (implemented, context)
               iface))
     = getErrors context
       ++ (if bool_decide (name iface ∈ implemented)
           then [Expected.onlyOnce type iface] else [])
       ++ getErrors
            (validateObjectImplementsInterface new_SchemaValidationContext
               schema type iface).
Proof.
  simpl. split; [reflexivity |].
  rewrite framed_validateObjectImplementsInterface.
  destruct (bool_decide (name iface ∈ implemented)).
  - rewrite getErrors_reportError, <- app_assoc. f_equal. f_equal.
    unfold Expected.onlyOnce, Expected.onlyOnceMessage. f_equal. f_equal.
    induction (getAllImplementsInterfaceNode type iface) as [|n l IH];
      simpl; [reflexivity | now rewrite IH].
  - reflexivity.
Qed.

(** The names recorded after a run of occurrences are the names seen so
    far. *)
Lemma implementedTypeNames_forEach schema type ifaces implemented context :
  fst (forEach ifaces (checkImplementedInterface schema type)
         (implemented, context))
  = list_to_set (map name ifaces) ∪ implemented.
Proof.
  revert implemented context.
  induction ifaces as [|iface l IH]; intros implemented context.
  - simpl. set_solver.
  - rewrite forEach_cons.
    pose proof (checkImplementedInterface_step schema type implemented
                  context iface) as [H1 _].
    destruct (checkImplementedInterface schema type (implemented, context)
                iface) as [implemented' context'].
    simpl in H1. rewrite IH, H1. simpl. set_solver.
Qed.

Lemma framed_interfaces schema type ifaces implemented :
  framed (fun c => snd (forEach ifaces (checkImplementedInterface schema type)
                          (implemented, c))).
Proof.
  revert implemented.
  induction ifaces as [|iface l IH]; intros implemented.
  - apply framed_id.
  - intros c. rewrite !forEach_cons.
    pose proof (checkImplementedInterface_step schema type implemented c
                  iface) as [H1 H2].
    pose proof (checkImplementedInterface_step schema type implemented
                  new_SchemaValidationContext iface) as [H3 H4].
    destruct (checkImplementedInterface schema type (implemented, c) iface)
      as [i1 c1].
    destruct (checkImplementedInterface schema type
                (implemented, new_SchemaValidationContext) iface)
      as [i2 c2].
    simpl in H1, H2, H3, H4. subst i1 i2.
    rewrite (IH _ c1), (IH _ c2), H2, H4. simpl.
    now rewrite <- !app_assoc.
Qed.

Lemma framed_validateType schema typeName :
  framed (fun c => validateType schema c typeName).
Proof.
  unfold validateType. cbv zeta.
  destruct (prop (getTypeMap schema) typeName) as [[str|t|ofType|ofType|str node]|];
    simpl; try apply framed_reportError; try apply framed_id.
  destruct (TypeClass_eqb (constructor t) GraphQLObjectType);
    [apply framed_interfaces | apply framed_id].
Qed.

Lemma framed_validateTypes schema :
  framed (fun c => validateTypes c schema).
Proof. apply framed_forEach. intros a. apply framed_validateType. Qed.

(** *** Every reported diagnostic is of a known shape *)

Lemma Forall_reportError (P : GraphQLError -> Prop) context msg nodes :
  Forall P (getErrors context) ->
  P (mkGraphQLError msg
       (List.filter Boolean
          match nodes with NodeArray ns => ns | OneNode n => [n] end)) ->
  Forall P (getErrors (reportError context msg nodes)).
Proof.
  intros Hc He. rewrite getErrors_reportError.
  apply Forall_app. split; [exact Hc | constructor; [exact He | constructor]].
Qed.

Lemma Forall_forEach {A} (P : GraphQLError -> Prop)
    (f : SchemaValidationContext -> A -> SchemaValidationContext) l context :
  (forall c a, In a l -> Forall P (getErrors c) -> Forall P (getErrors (f c a))) ->
  Forall P (getErrors context) ->
  Forall P (getErrors (forEach l f context)).
Proof.
  revert context. induction l as [|a l IH]; intros c Hf Hc; [exact Hc |].
  rewrite forEach_cons. apply IH.
  - intros c' a' Ha'. apply Hf. now right.
  - apply Hf; [now left | exact Hc].
Qed.

(** Brings the message of a [reportError] call and the message of an
    expected diagnostic to the same shape. *)
Ltac same_error :=
  cbv beta delta
    [Expected.notInterface Expected.missingField Expected.fieldTypeMismatch
     Expected.missingArg Expected.argTypeMismatch Expected.requiredExtraArg
     Expected.rootNotObject Expected.notDirective Expected.notType
     Expected.queryTypeMissing Expected.onlyOnce Expected.onlyOnceMessage]
    zeta;
  f_equal; rewrite ?append_assoc; reflexivity.

Lemma checkIfaceArg_sound object iface fieldName objectField context ifaceArg :
  Forall (conformanceError object iface) (getErrors context) ->
  Forall (conformanceError object iface)
    (getErrors
       (checkIfaceArg object iface fieldName objectField context ifaceArg)).
Proof.
  intros Hc. unfold checkIfaceArg. cbv zeta.
  destruct (findArg _ _) as [objectArg|].
  - destruct (negb _); [| exact Hc].
    apply Forall_reportError; [exact Hc |].
    replace (mkGraphQLError _ _)
      with (Expected.argTypeMismatch object iface fieldName ifaceArg objectArg)
      by same_error.
    constructor.
  - apply Forall_reportError; [exact Hc |].
    replace (mkGraphQLError _ _)
      with (Expected.missingArg object iface fieldName ifaceArg)
      by same_error.
    constructor.
Qed.

Lemma checkObjectArg_sound object iface fieldName ifaceField context objectArg :
  Forall (conformanceError object iface) (getErrors context) ->
  Forall (conformanceError object iface)
    (getErrors
       (checkObjectArg object iface fieldName ifaceField context objectArg)).
Proof.
  intros Hc. unfold checkObjectArg. cbv zeta.
  destruct (_ && _); [| exact Hc].
  apply Forall_reportError; [exact Hc |].
  replace (mkGraphQLError _ _)
    with (Expected.requiredExtraArg object iface fieldName objectArg)
    by same_error.
  constructor.
Qed.

Lemma checkIfaceField_sound schema object iface context fieldName :
  Forall (conformanceError object iface) (getErrors context) ->
  Forall (conformanceError object iface)
    (getErrors (checkIfaceField schema object iface context fieldName)).
Proof.
  intros Hc. unfold checkIfaceField. cbv zeta.
  destruct (prop (getFields iface) fieldName) as [ifaceField|]; [| exact Hc].
  destruct (prop (getFields object) fieldName) as [objectField|].
  - apply Forall_forEach; [intros; now apply checkObjectArg_sound |].
    apply Forall_forEach; [intros; now apply checkIfaceArg_sound |].
    destruct (negb _); [| exact Hc].
    apply Forall_reportError; [exact Hc |].
    replace (mkGraphQLError _ _)
      with (Expected.fieldTypeMismatch object iface fieldName ifaceField
              objectField)
      by same_error.
    constructor.
  - apply Forall_reportError; [exact Hc |].
    replace (mkGraphQLError _ _)
      with (Expected.missingField object iface fieldName)
      by same_error.
    constructor.
Qed.

Lemma validateObjectImplementsInterface_sound schema object iface context :
  Forall (conformanceError object iface) (getErrors context) ->
  Forall (conformanceError object iface)
    (getErrors (validateObjectImplementsInterface context schema object iface)).
Proof.
  intros Hc. unfold validateObjectImplementsInterface.
  destruct (negb _).
  - apply Forall_reportError; [exact Hc |].
    replace (mkGraphQLError _ _) with (Expected.notInterface object iface)
      by same_error.
    constructor.
  - apply Forall_forEach; [| exact Hc].
    intros; now apply checkIfaceField_sound.
Qed.

Lemma prop_In {A} (m : ObjMap A) key v : prop m key = Some v -> In (key, v) m.
Proof.
  induction m as [|[k w] m IH]; simpl; [discriminate |].
  destruct (String.eqb k key) eqn:E.
  - intros [= ->]. apply String.eqb_eq in E. subst. now left.
  - intros H. right. now apply IH.
Qed.

Lemma prop_keys {A} (m : ObjMap A) key :
  In key (Object_keys m) -> exists v, prop m key = Some v.
Proof.
  induction m as [|[k w] m IH]; simpl; [intros [] |].
  intros [-> | H].
  - rewrite String.eqb_refl. eauto.
  - destruct (String.eqb k key); eauto.
Qed.

Lemma prop_Some_keys {A} (m : ObjMap A) key v :
  prop m key = Some v -> In key (Object_keys m).
Proof.
  intros H. apply prop_In in H.
  apply in_map_iff. now exists (key, v).
Qed.

Lemma validateRootTypes_sound schema context :
  Forall (schemaError schema) (getErrors context) ->
  Forall (schemaError schema) (getErrors (validateRootTypes context schema)).
Proof.
  intros Hc. unfold validateRootTypes. cbv zeta.
  assert (Hq : Forall (schemaError schema)
                 (getErrors
                    (if negb (truthy (getQueryType schema)) then
                       reportError context "Query root type must be provided."
                         (OneNode (option_map N_Schema (schema_astNode schema)))
                     else if negb (instanceOf (getQueryType schema)
                                     GraphQLObjectType) then
                       reportError context
                         ("Query root type must be Object type but got: "
                            +:+ String_ (getQueryType schema) +:+ ".")
                         (OneNode (getOperationTypeNode schema
                                     (getQueryType schema) "query"))
                     else context))).
  { destruct (negb (truthy _)).
    - apply Forall_reportError; [exact Hc | apply SE_queryTypeMissing].
    - destruct (negb (instanceOf _ _)); [| exact Hc].
      apply Forall_reportError; [exact Hc |].
      apply (SE_rootNotObject schema
               "Query root type must be Object type but got: " "query").
      simpl. auto. }
  set (c1 := if negb (truthy (getQueryType schema)) then _ else _) in *.
  clearbody c1.
  assert (Hm : Forall (schemaError schema)
                 (getErrors
                    (if truthy (getMutationType schema)
                        && negb (instanceOf (getMutationType schema)
                                   GraphQLObjectType)
                     then
                       reportError c1
                         ("Mutation root type must be Object type if provided but got: "
                            +:+ (String_ (getMutationType schema) +:+ "."))
                         (OneNode (getOperationTypeNode schema
                                     (getMutationType schema) "mutation"))
                     else c1))).
  { destruct (_ && _); [| exact Hq].
    apply Forall_reportError; [exact Hq |].
    apply (SE_rootNotObject schema
             "Mutation root type must be Object type if provided but got: "
             "mutation").
    simpl. auto. }
  set (c2 := if truthy (getMutationType schema) && _ then _ else _) in *.
  clearbody c2.
  destruct (_ && _); [| exact Hm].
  apply Forall_reportError; [exact Hm |].
  apply (SE_rootNotObject schema
           "Subscription root type must be Object type if provided but got: "
           "subscription").
  simpl. auto.
Qed.

Lemma validateDirectives_sound schema context :
  Forall (schemaError schema) (getErrors context) ->
  Forall (schemaError schema) (getErrors (validateDirectives context schema)).
Proof.
  intros Hc. unfold validateDirectives. cbv zeta.
  apply Forall_forEach; [| exact Hc].
  intros c [n node|v] Hin Hc'; unfold validateDirective; [exact Hc' |].
  apply Forall_reportError; [exact Hc' |].
  now apply SE_notDirective.
Qed.

Lemma interfaces_sound schema typeName type ifaces implemented context :
  In (typeName, TypeValue type) (getTypeMap schema) ->
  incl ifaces (getInterfaces type) ->
  Forall (schemaError schema) (getErrors context) ->
  Forall (schemaError schema)
    (getErrors
       (snd (forEach ifaces (checkImplementedInterface schema type)
               (implemented, context)))).
Proof.
  intros Hin. revert implemented context.
  induction ifaces as [|iface l IH]; intros implemented c Hincl Hc;
    [exact Hc |].
  rewrite forEach_cons.
  pose proof (checkImplementedInterface_step schema type implemented c iface)
    as [_ H2].
  destruct (checkImplementedInterface schema type (implemented, c) iface)
    as [i1 c1].
  simpl in H2.
  assert (Hi : In iface (getInterfaces type)) by (apply Hincl; now left).
  apply IH; [intros x Hx; apply Hincl; now right |].
  rewrite H2. apply Forall_app. split; [exact Hc |].
  apply Forall_app. split.
  - destruct (bool_decide _); constructor; [| constructor].
    now apply (SE_onlyOnce schema typeName).
  - eapply List.Forall_impl;
      [| apply validateObjectImplementsInterface_sound; constructor].
    intros e He. now apply (SE_conformance schema typeName type iface).
Qed.

Lemma validateType_sound schema context typeName :
  In typeName (Object_keys (getTypeMap schema)) ->
  Forall (schemaError schema) (getErrors context) ->
  Forall (schemaError schema) (getErrors (validateType schema context typeName)).
Proof.
  intros Hk Hc. unfold validateType. cbv zeta.
  destruct (prop_keys _ _ Hk) as [v Hv]. rewrite Hv.
  apply prop_In in Hv.
  destruct v as [str|t|ofType|ofType|str node]; cbn [isType negb];
    try exact Hc;
    try (apply Forall_reportError; [exact Hc |];
         now apply (SE_notType schema typeName)).
  destruct (TypeClass_eqb (constructor t) GraphQLObjectType); [| exact Hc].
  apply (interfaces_sound schema typeName); auto using incl_refl.
Qed.

Lemma validateTypes_sound schema context :
  Forall (schemaError schema) (getErrors context) ->
  Forall (schemaError schema) (getErrors (validateTypes context schema)).
Proof.
  intros Hc. unfold validateTypes. cbv zeta.
  apply Forall_forEach; [| exact Hc].
  intros c a Ha Hc'. now apply validateType_sound.
Qed.

(** The first run of the pass on a schema: the three checkers in order on
    a fresh sink. *)
Lemma schema_sound schema :
  Forall (schemaError schema)
    (getErrors
       (validateTypes
          (validateDirectives
             (validateRootTypes new_SchemaValidationContext schema) schema)
          schema)).
Proof.
  apply validateTypes_sound, validateDirectives_sound, validateRootTypes_sound.
  constructor.
Qed.

(** *** What one interface field contributes *)

Lemma In_getErrors_forEach {A}
    (f : SchemaValidationContext -> A -> SchemaValidationContext) l context a e :
  (forall a, framed (fun c => f c a)) ->
  In a l ->
  In e (getErrors (f new_SchemaValidationContext a)) ->
  In e (getErrors (forEach l f context)).
Proof.
  intros Hf Ha He. rewrite getErrors_forEach by exact Hf.
  apply in_or_app. right. apply in_flat_map. eauto.
Qed.

Lemma checkIfaceArg_errors object iface fieldName objectField context ifaceArg :
  getErrors (checkIfaceArg object iface fieldName objectField context ifaceArg)
  = getErrors context
    ++ match findArg (field_args objectField) (arg_name ifaceArg) with
       | None => [Expected.missingArg object iface fieldName ifaceArg]
       | Some objectArg =>
           if isEqualType (arg_type ifaceArg) (arg_type objectArg) then []
           else [Expected.argTypeMismatch object iface fieldName ifaceArg
                   objectArg]
       end.
Proof.
  unfold checkIfaceArg. cbv zeta.
  destruct (findArg _ _) as [objectArg|].
  - destruct (isEqualType _ _); cbn [negb]; [now rewrite app_nil_r |].
    rewrite getErrors_reportError. f_equal; try (f_equal; same_error).
  - rewrite getErrors_reportError. f_equal; try (f_equal; same_error).
Qed.

Lemma checkObjectArg_errors object iface fieldName ifaceField context objectArg :
  getErrors (checkObjectArg object iface fieldName ifaceField context objectArg)
  = getErrors context
    ++ (if negb (Boolean (findArg (field_args ifaceField) (arg_name objectArg)))
           && isNonNull (arg_type objectArg)
        then [Expected.requiredExtraArg object iface fieldName objectArg]
        else []).
Proof.
  unfold checkObjectArg. cbv zeta.
  destruct (_ && _); [| now rewrite app_nil_r].
  rewrite getErrors_reportError. f_equal; try (f_equal; same_error).
Qed.

Lemma checkIfaceField_errors schema object iface context fieldName
    ifaceField objectField :
  prop (getFields iface) fieldName = Some ifaceField ->
  prop (getFields object) fieldName = Some objectField ->
  getErrors (checkIfaceField schema object iface context fieldName)
  = getErrors context
    ++ (if isTypeSubTypeOf schema (field_type objectField)
             (field_type ifaceField)
        then []
        else [Expected.fieldTypeMismatch object iface fieldName ifaceField
                objectField])
    ++ flat_map
         (fun ifaceArg =>
            getErrors
              (checkIfaceArg object iface fieldName objectField
                 new_SchemaValidationContext ifaceArg))
         (field_args ifaceField)
    ++ flat_map
         (fun objectArg =>
            getErrors
              (checkObjectArg object iface fieldName ifaceField
                 new_SchemaValidationContext objectArg))
         (field_args objectField).
Proof.
  intros Hi Ho. unfold checkIfaceField. cbv zeta. rewrite Hi, Ho.
  rewrite getErrors_forEach by (intros a; apply framed_checkObjectArg).
  rewrite getErrors_forEach by (intros a; apply framed_checkIfaceArg).
  destruct (isTypeSubTypeOf _ _ _); cbn [negb].
  - now rewrite <- !app_assoc.
  - rewrite getErrors_reportError, <- !app_assoc.
    f_equal. cbn [app]. f_equal; try same_error.
Qed.

Lemma checkIfaceField_missing schema object iface context fieldName ifaceField :
  prop (getFields iface) fieldName = Some ifaceField ->
  prop (getFields object) fieldName = None ->
  getErrors (checkIfaceField schema object iface context fieldName)
  = getErrors context ++ [Expected.missingField object iface fieldName].
Proof.
  intros Hi Ho. unfold checkIfaceField. cbv zeta. rewrite Hi, Ho.
  rewrite getErrors_reportError. f_equal; try (f_equal; same_error).
Qed.

Lemma In_validateObjectImplementsInterface schema object iface context
    fieldName e :
  constructor iface = GraphQLInterfaceType ->
  In fieldName (Object_keys (getFields iface)) ->
  In e (getErrors
          (checkIfaceField schema object iface new_SchemaValidationContext
             fieldName)) ->
  In e (getErrors
          (validateObjectImplementsInterface context schema object iface)).
Proof.
  intros Hc Hk He. unfold validateObjectImplementsInterface.
  rewrite Hc. simpl.
  apply (In_getErrors_forEach _ _ _ fieldName); auto.
  intros a. apply framed_checkIfaceField.
Qed.

(** *** The diagnostics of the walker, as lists *)

Local Abbreviation ifaceArgDiagnostics := (ifaceArgDiagnostics isEqualType).
Local Abbreviation fieldDiagnostics :=
  (fieldDiagnostics isTypeSubTypeOf isEqualType).
Local Abbreviation conformanceDiagnostics :=
  (conformanceDiagnostics isTypeSubTypeOf isEqualType).

Lemma getErrors_forEach_flat_map {A}
    (f : SchemaValidationContext -> A -> SchemaValidationContext)
    (g : A -> list GraphQLError) l context :
  (forall c a, getErrors (f c a) = getErrors c ++ g a) ->
  getErrors (forEach l f context) = getErrors context ++ flat_map g l.
Proof.
  intros Hf. revert context.
  induction l as [|a l IH]; intros context.
  - simpl. now rewrite app_nil_r.
  - rewrite forEach_cons, IH, Hf. cbn [flat_map]. now rewrite <- app_assoc.
Qed.

Lemma flat_map_if_filter {A B} (p : A -> bool) (g : A -> B) l :
  flat_map (fun a => if p a then [g a] else []) l = map g (List.filter p l).
Proof.
  induction l as [|a l IH]; [reflexivity |].
  cbn [flat_map List.filter]. rewrite IH. now destruct (p a).
Qed.

Lemma checkIfaceArg_exact object iface fieldName objectField context ifaceArg :
  getErrors (checkIfaceArg object iface fieldName objectField context ifaceArg)
  = getErrors context
    ++ ifaceArgDiagnostics object iface fieldName objectField ifaceArg.
Proof. apply checkIfaceArg_errors. Qed.

Lemma checkObjectArg_exact object iface fieldName ifaceField context objectArg :
  getErrors (checkObjectArg object iface fieldName ifaceField context objectArg)
  = getErrors context
    ++ (if isRequiredExtraArg ifaceField objectArg
        then [Expected.requiredExtraArg object iface fieldName objectArg]
        else []).
Proof. apply checkObjectArg_errors. Qed.

Lemma checkIfaceField_exact schema object iface context fieldName :
  getErrors (checkIfaceField schema object iface context fieldName)
  = getErrors context ++ fieldDiagnostics schema object iface fieldName.
Proof.
  unfold fieldDiagnostics.
  destruct (prop (getFields iface) fieldName) as [ifaceField|] eqn:Hi.
  - destruct (prop (getFields object) fieldName) as [objectField|] eqn:Ho.
    + unfold checkIfaceField. cbv zeta. rewrite Hi, Ho.
      rewrite (getErrors_forEach_flat_map _ _ _ _
                 (checkObjectArg_exact object iface fieldName ifaceField)).
      rewrite (getErrors_forEach_flat_map _ _ _ _
                 (checkIfaceArg_exact object iface fieldName objectField)).
      rewrite flat_map_if_filter.
      destruct (isTypeSubTypeOf _ _ _); cbn [negb].
      * now rewrite <- !app_assoc.
      * rewrite getErrors_reportError, <- !app_assoc.
        f_equal. cbn [app]. f_equal; try same_error.
    + now apply checkIfaceField_missing with (ifaceField := ifaceField).
  - unfold checkIfaceField. cbv zeta. rewrite Hi. now rewrite app_nil_r.
Qed.

Lemma validateObjectImplementsInterface_exact schema object iface context :
  getErrors (validateObjectImplementsInterface context schema object iface)
  = getErrors context ++ conformanceDiagnostics schema object iface.
Proof.
  unfold validateObjectImplementsInterface, conformanceDiagnostics.
  destruct (TypeClass_eqb (constructor iface) GraphQLInterfaceType);
    cbn [negb].
  - apply getErrors_forEach_flat_map. intros c a.
    apply checkIfaceField_exact.
  - rewrite getErrors_reportError. f_equal; try (f_equal; same_error).
Qed.

Lemma existsb_eqb_In n (seen : list string) :
  existsb (String.eqb n) seen = true <-> In n seen.
Proof.
  rewrite existsb_exists. split.
  - intros [x [Hx Heq]]. apply String.eqb_eq in Heq. now subst x.
  - intros H. exists n. split; [exact H | apply String.eqb_refl].
Qed.

Lemma interfaces_exact schema type ifaces implemented seen context :
  (forall n, n ∈ implemented <-> In n seen) ->
  getErrors
    (snd (forEach ifaces (checkImplementedInterface schema type)
            (implemented, context)))
  = getErrors context
    ++ referenceDiagnostics type
         (fun iface =>
            getErrors
              (validateObjectImplementsInterface new_SchemaValidationContext
                 schema type iface))
         seen ifaces.
Proof.
  revert implemented seen context.
  induction ifaces as [|iface ifaces IH]; intros implemented seen context Hs.
  - simpl. now rewrite app_nil_r.
  - rewrite forEach_cons.
    pose proof (checkImplementedInterface_step schema type implemented
                  context iface) as [H1 H2].
    destruct (checkImplementedInterface schema type (implemented, context)
                iface) as [implemented' context'] eqn:Hstep.
    cbn [fst snd] in H1, H2.
    rewrite (IH implemented' (seen ++ [name iface]) context').
    + rewrite H2. cbn [referenceDiagnostics]. rewrite <- !app_assoc.
      f_equal. f_equal.
      destruct (existsb (String.eqb (name iface)) seen) eqn:He.
      * apply existsb_eqb_In, Hs in He. now rewrite bool_decide_eq_true_2.
      * rewrite bool_decide_eq_false_2; [reflexivity |].
        intros Hin. apply Hs, existsb_eqb_In in Hin. congruence.
    + intros n. rewrite H1, elem_of_union, elem_of_singleton, Hs, in_app_iff.
      cbn [In]. intuition congruence.
Qed.

Lemma referenceDiagnostics_app type conformance seen pre post :
  referenceDiagnostics type conformance seen (pre ++ post)
  = referenceDiagnostics type conformance seen pre
    ++ referenceDiagnostics type conformance (seen ++ map name pre) post.
Proof.
  revert seen. induction pre as [|iface pre IH]; intros seen.
  - simpl. now rewrite app_nil_r.
  - cbn [app referenceDiagnostics map]. rewrite IH, <- !app_assoc.
    cbn [app]. reflexivity.
Qed.

Lemma referenceDiagnostics_ext type f g seen ifaces :
  (forall iface, f iface = g iface) ->
  referenceDiagnostics type f seen ifaces
  = referenceDiagnostics type g seen ifaces.
Proof.
  intros H. revert seen. induction ifaces as [|iface ifaces IH]; intros seen.
  - reflexivity.
  - cbn [referenceDiagnostics]. now rewrite IH, H.
Qed.

Lemma validateType_object schema context typeName type :
  prop (getTypeMap schema) typeName = Some (TypeValue type) ->
  constructor type = GraphQLObjectType ->
  getErrors (validateType schema context typeName)
  = getErrors context
    ++ referenceDiagnostics type
         (fun iface =>
            getErrors
              (validateObjectImplementsInterface new_SchemaValidationContext
                 schema type iface))
         [] (getInterfaces type).
Proof.
  intros Hp Hc. unfold validateType. cbv zeta. rewrite Hp, Hc.
  cbn [isType negb TypeClass_eqb].
  apply interfaces_exact. intros n. cbn [In]. set_solver.
Qed.

Lemma validateTypes_exact schema context :
  getErrors (validateTypes context schema)
  = getErrors context
    ++ flat_map
         (fun typeName =>
            getErrors (validateType schema new_SchemaValidationContext typeName))
         (Object_keys (getTypeMap schema)).
Proof.
  unfold validateTypes. cbv zeta.
  apply getErrors_forEach.
  intros a. apply framed_validateType.
Qed.

(** ** Properties of the validator *)

(** C5. An argument an object field declares and the interface field does
    not is reported exactly when its type is a NonNull wrapper: one
    diagnostic then, none when the type is nullable. The loop over the
    arguments of the object field reports these diagnostics and no other;
    they are the last part of what the check of the field reports, after
    the diagnostic of the field type and those of the interface arguments,
    and they are among the diagnostics of the conformance check of the
    object type against the interface. *)
Theorem C5_extra_argument_must_be_nullable object iface fieldName ifaceField
    objectField context objectArg :
  findArg (field_args ifaceField) (arg_name objectArg) = None ->
  getErrors
    (checkObjectArg object iface fieldName ifaceField context objectArg)
  = getErrors context
    ++ (if isNonNull (arg_type objectArg)
        then [Expected.requiredExtraArg object iface fieldName objectArg]
        else [])
  /\ getErrors
       (forEach (field_args objectField)
          (checkObjectArg object iface fieldName ifaceField) context)
     = getErrors context
       ++ map (Expected.requiredExtraArg object iface fieldName)
            (List.filter
               (fun a =>
                  negb (Boolean (findArg (field_args ifaceField) (arg_name a)))
                  && isNonNull (arg_type a))
               (field_args objectField))
  /\ (In objectArg (field_args objectField) ->
      (In objectArg
         (List.filter
            (fun a =>
               negb (Boolean (findArg (field_args ifaceField) (arg_name a)))
               && isNonNull (arg_type a))
            (field_args objectField))
       <-> isNonNull (arg_type objectArg) = true))
  /\ (prop (getFields iface) fieldName = Some ifaceField ->
      prop (getFields object) fieldName = Some objectField ->
      forall schema,
        getErrors (checkIfaceField schema object iface context fieldName)
        = getErrors context
          ++ (if isTypeSubTypeOf schema (field_type objectField)
                   (field_type ifaceField)
              then []
              else [Expected.fieldTypeMismatch object iface fieldName
                      ifaceField objectField])
          ++ flat_map
               (fun ifaceArg =>
                  match
                    findArg (field_args objectField) (arg_name ifaceArg)
                  with
                  | None =>
                      [Expected.missingArg object iface fieldName ifaceArg]
                  | Some objectArg =>
                      if isEqualType (arg_type ifaceArg) (arg_type objectArg)
                      then []
                      else [Expected.argTypeMismatch object iface fieldName
                              ifaceArg objectArg]
                  end)
               (field_args ifaceField)
          ++ map (Expected.requiredExtraArg object iface fieldName)
               (List.filter
                  (fun a =>
                     negb (Boolean
                             (findArg (field_args ifaceField) (arg_name a)))
                     && isNonNull (arg_type a))
                  (field_args objectField))
        /\ (In objectArg (field_args objectField) ->
            isNonNull (arg_type objectArg) = true ->
            In (Expected.requiredExtraArg object iface fieldName objectArg)
              (getErrors
                 (checkIfaceField schema object iface context fieldName))
            /\ (constructor iface = GraphQLInterfaceType ->
                In (Expected.requiredExtraArg object iface fieldName objectArg)
                  (getErrors
                     (validateObjectImplementsInterface context schema object
                        iface))))).
Proof.
  intros Hextra.
  assert (Hloop : forall c,
             getErrors
               (forEach (field_args objectField)
                  (checkObjectArg object iface fieldName ifaceField) c)
             = getErrors c
               ++ map (Expected.requiredExtraArg object iface fieldName)
                    (List.filter
                       (fun a =>
                          negb (Boolean
                                  (findArg (field_args ifaceField)
                                     (arg_name a)))
                          && isNonNull (arg_type a))
                       (field_args objectField))).
  { intros c.
    rewrite (getErrors_forEach_flat_map _ _ _ _
               (checkObjectArg_exact object iface fieldName ifaceField)).
    now rewrite flat_map_if_filter. }
  assert (Hfilter : In objectArg (field_args objectField) ->
             (In objectArg
                (List.filter
                   (fun a =>
                      negb (Boolean
                              (findArg (field_args ifaceField) (arg_name a)))
                      && isNonNull (arg_type a))
                   (field_args objectField))
              <-> isNonNull (arg_type objectArg) = true)).
  { intros Hin. rewrite filter_In, Hextra. cbn [Boolean negb andb].
    tauto. }
  split; [| split; [apply Hloop | split; [exact Hfilter |]]].
  - rewrite checkObjectArg_errors, Hextra. reflexivity.
  - intros Hi Ho schema.
    assert (Hfield : forall c,
               getErrors (checkIfaceField schema object iface c fieldName)
               = getErrors c
                 ++ fieldDiagnostics schema object iface fieldName).
    { intros c. apply checkIfaceField_exact. }
    split.
    + rewrite Hfield. unfold fieldDiagnostics. rewrite Hi, Ho. reflexivity.
    + intros Hin Hnn.
      assert (Hmem : forall c,
                 In (Expected.requiredExtraArg object iface fieldName
                       objectArg)
                   (getErrors
                      (checkIfaceField schema object iface c fieldName))).
      { intros c. rewrite Hfield. unfold fieldDiagnostics. rewrite Hi, Ho.
        apply in_or_app. right. apply in_or_app. right.
        apply in_or_app. right. apply in_map. now apply Hfilter. }
      split; [apply Hmem |].
      intros Hc.
      apply (In_validateObjectImplementsInterface schema object iface
               context fieldName);
        [exact Hc | now apply prop_Some_keys in Hi | apply Hmem].
Qed.

(** C6. An interface field the object type has no field for yields exactly
    one diagnostic, the missing-field one: no type or argument check is made
    for it (what is reported depends on no comparator and on no argument),
    and the loop goes on with the next interface field; the diagnostic is
    among those of the conformance check of the object type against the
    interface. *)
Theorem C6_missing_field schema object iface context fieldName ifaceField rest :
  prop (getFields iface) fieldName = Some ifaceField ->
  prop (getFields object) fieldName = None ->
  getErrors (checkIfaceField schema object iface context fieldName)
  = getErrors context ++ [Expected.missingField object iface fieldName]
  /\ getErrors
       (forEach (fieldName :: rest) (checkIfaceField schema object iface)
          context)
     = getErrors context
       ++ [Expected.missingField object iface fieldName]
       ++ getErrors
            (forEach rest (checkIfaceField schema object iface)
               new_SchemaValidationContext)
  /\ (constructor iface = GraphQLInterfaceType ->
      In (Expected.missingField object iface fieldName)
        (getErrors
           (validateObjectImplementsInterface context schema object iface))).
Proof.
  intros Hi Ho.
  pose proof (checkIfaceField_missing schema object iface context fieldName
                ifaceField Hi Ho) as H.
  split; [exact H | split].
  - rewrite forEach_cons.
    rewrite (framed_forEach (checkIfaceField schema object iface) rest)
      by (intros a; apply framed_checkIfaceField).
    rewrite H. now rewrite <- app_assoc.
  - intros Hc.
    apply (In_validateObjectImplementsInterface schema object iface context
             fieldName); [exact Hc | now apply prop_Some_keys in Hi |].
    rewrite (checkIfaceField_missing schema object iface _ fieldName
               ifaceField Hi Ho).
    now left.
Qed.

(** C3. When the object field has an argument of the name of an interface
    field argument, the mismatch diagnostic is reported when [isEqualType]
    tells the two types apart and nothing is reported when it does not,
    whatever [isTypeSubTypeOf] says of the two types: argument types are
    compared with [isEqualType] alone. The type of the field itself is
    compared with [isTypeSubTypeOf] alone: what the check of the field
    reports is the mismatch diagnostic of the field type when the object
    field type is not a subtype of the interface field type and nothing when
    it is, followed by the diagnostics of the arguments, which depend on
    [isEqualType] and not on [isTypeSubTypeOf]. *)
Theorem C3_argument_types_are_invariant schema object iface context fieldName
    ifaceField objectField :
  prop (getFields iface) fieldName = Some ifaceField ->
  prop (getFields object) fieldName = Some objectField ->
  let argumentDiagnostics :=
    flat_map
      (fun ifaceArg =>
         match findArg (field_args objectField) (arg_name ifaceArg) with
         | None => [Expected.missingArg object iface fieldName ifaceArg]
         | Some objectArg =>
             if isEqualType (arg_type ifaceArg) (arg_type objectArg) then []
             else [Expected.argTypeMismatch object iface fieldName ifaceArg
                     objectArg]
         end)
      (field_args ifaceField)
    ++ map (Expected.requiredExtraArg object iface fieldName)
         (List.filter
            (fun a =>
               negb (Boolean (findArg (field_args ifaceField) (arg_name a)))
               && isNonNull (arg_type a))
            (field_args objectField)) in
  (forall ifaceArg objectArg,
     In ifaceArg (field_args ifaceField) ->
     findArg (field_args objectField) (arg_name ifaceArg) = Some objectArg ->
     isEqualType (arg_type ifaceArg) (arg_type objectArg) = false ->
     getErrors
       (checkIfaceArg object iface fieldName objectField context ifaceArg)
     = getErrors context
       ++ [Expected.argTypeMismatch object iface fieldName ifaceArg objectArg]
     /\ In (Expected.argTypeMismatch object iface fieldName ifaceArg objectArg)
          argumentDiagnostics
     /\ In (Expected.argTypeMismatch object iface fieldName ifaceArg objectArg)
          (getErrors (checkIfaceField schema object iface context fieldName))
     /\ (constructor iface = GraphQLInterfaceType ->
         In (Expected.argTypeMismatch object iface fieldName ifaceArg
               objectArg)
           (getErrors
              (validateObjectImplementsInterface context schema object
                 iface))))
  /\ (forall ifaceArg objectArg,
        findArg (field_args objectField) (arg_name ifaceArg) = Some objectArg ->
        isEqualType (arg_type ifaceArg) (arg_type objectArg) = true ->
        getErrors
          (checkIfaceArg object iface fieldName objectField context ifaceArg)
        = getErrors context)
  /\ getErrors (checkIfaceField schema object iface context fieldName)
     = getErrors context
       ++ (if isTypeSubTypeOf schema (field_type objectField)
                (field_type ifaceField)
           then []
           else [Expected.fieldTypeMismatch object iface fieldName
                   ifaceField objectField])
       ++ argumentDiagnostics
  /\ (isTypeSubTypeOf schema (field_type objectField) (field_type ifaceField)
      = true ->
      getErrors (checkIfaceField schema object iface context fieldName)
      = getErrors context ++ argumentDiagnostics)
  /\ (isTypeSubTypeOf schema (field_type objectField) (field_type ifaceField)
      = false ->
      getErrors (checkIfaceField schema object iface context fieldName)
      = getErrors context
        ++ Expected.fieldTypeMismatch object iface fieldName ifaceField
             objectField
        :: argumentDiagnostics)
  /\ (constructor iface = GraphQLInterfaceType ->
      getErrors
        (validateObjectImplementsInterface context schema object iface)
      = getErrors context
        ++ flat_map
             (fun fieldName =>
                getErrors
                  (checkIfaceField schema object iface
                     new_SchemaValidationContext fieldName))
             (Object_keys (getFields iface))).
Proof.
  intros Hi Ho argumentDiagnostics.
  assert (Hexact : forall c,
             getErrors (checkIfaceField schema object iface c fieldName)
             = getErrors c
               ++ (if isTypeSubTypeOf schema (field_type objectField)
                        (field_type ifaceField)
                   then []
                   else [Expected.fieldTypeMismatch object iface fieldName
                           ifaceField objectField])
               ++ argumentDiagnostics).
  { intros c. rewrite checkIfaceField_exact. unfold fieldDiagnostics.
    rewrite Hi, Ho. reflexivity. }
  split.
  { intros ifaceArg objectArg Hin Hfind Hne.
    assert (Hargs : In (Expected.argTypeMismatch object iface fieldName
                          ifaceArg objectArg) argumentDiagnostics).
    { apply in_or_app. left. apply in_flat_map. exists ifaceArg.
      split; [exact Hin |]. rewrite Hfind, Hne. now left. }
    assert (Hfield : forall c,
               In (Expected.argTypeMismatch object iface fieldName ifaceArg
                     objectArg)
                 (getErrors
                    (checkIfaceField schema object iface c fieldName))).
    { intros c. rewrite Hexact.
      apply in_or_app. right. apply in_or_app. now right. }
    split; [now rewrite checkIfaceArg_errors, Hfind, Hne |].
    split; [exact Hargs |].
    split; [apply Hfield |].
    intros Hc.
    apply (In_validateObjectImplementsInterface schema object iface context
             fieldName); [exact Hc | now apply prop_Some_keys in Hi |].
    apply Hfield. }
  split.
  { intros ifaceArg objectArg Hfind Heq.
    rewrite checkIfaceArg_errors, Hfind, Heq. apply app_nil_r. }
  split; [apply Hexact |].
  split; [intros Hsub; rewrite Hexact, Hsub; reflexivity |].
  split; [intros Hsub; rewrite Hexact, Hsub; reflexivity |].
  intros Hc. unfold validateObjectImplementsInterface. rewrite Hc.
  cbn [TypeClass_eqb negb].
  apply getErrors_forEach. intros a. apply framed_checkIfaceField.
Qed.

(** *** Counting the "only once" diagnostics *)

Lemma onlyOnceMessage_inj type i1 i2 :
  Expected.onlyOnceMessage type i1 = Expected.onlyOnceMessage type i2 ->
  i1 = i2.
Proof.
  unfold Expected.onlyOnceMessage. intros H.
  apply append_inv_head, append_inv_head in H.
  now apply append_inv_tail in H.
Qed.

(** [H] equates two messages that end differently. *)
Ltac differ_at_end H :=
  apply (f_equal srev) in H; unfold dq in H;
  rewrite !srev_append in H; simpl in H; discriminate H.

(** [H] equates two messages that start with the same name and go on
    differently. *)
Ltac differ_after_name H :=
  apply append_inv_head in H; simpl in H; discriminate H.

Lemma conformanceError_not_onlyOnce object iface e ifaceName :
  conformanceError object iface e ->
  message e <> Expected.onlyOnceMessage object ifaceName.
Proof.
  unfold Expected.onlyOnceMessage.
  intros [ | fieldName | fieldName ifaceField objectField
           | fieldName ifaceArg | fieldName ifaceArg objectArg
           | fieldName objectArg ] H; cbn [message] in H.
  - unfold Expected.notInterface in H. cbn [message] in H.
    differ_after_name H.
  - unfold Expected.missingField in H. cbn [message] in H.
    differ_at_end H.
  - unfold Expected.fieldTypeMismatch in H. cbn [message] in H.
    differ_at_end H.
  - unfold Expected.missingArg in H. cbn [message] in H.
    differ_at_end H.
  - unfold Expected.argTypeMismatch in H. cbn [message] in H.
    differ_at_end H.
  - unfold Expected.requiredExtraArg in H. cbn [message] in H.
    differ_after_name H.
Qed.

Lemma countMessage_app msg l1 l2 :
  countMessage msg (l1 ++ l2) = countMessage msg l1 + countMessage msg l2.
Proof. unfold countMessage. now rewrite List.filter_app, length_app. Qed.

Lemma countMessage_none msg l :
  Forall (fun e => message e <> msg) l -> countMessage msg l = 0.
Proof.
  unfold countMessage. induction 1 as [|e l He _ IH]; [reflexivity |].
  simpl. destruct (String.eqb (message e) msg) eqn:E; [| exact IH].
  apply String.eqb_eq in E. contradiction.
Qed.

Lemma countMessage_conformance schema object iface ifaceName :
  countMessage (Expected.onlyOnceMessage object ifaceName)
    (getErrors
       (validateObjectImplementsInterface new_SchemaValidationContext schema
          object iface)) = 0.
Proof.
  apply countMessage_none.
  eapply List.Forall_impl;
    [| apply validateObjectImplementsInterface_sound; constructor].
  intros e He. now apply conformanceError_not_onlyOnce with (iface := iface).
Qed.

Lemma interfaces_count schema type ifaceName ifaces implemented context :
  countMessage (Expected.onlyOnceMessage type ifaceName)
    (getErrors
       (snd (forEach ifaces (checkImplementedInterface schema type)
               (implemented, context))))
  = countMessage (Expected.onlyOnceMessage type ifaceName) (getErrors context)
    + (countName ifaceName ifaces
       - (if bool_decide (ifaceName ∈ implemented) then 0 else 1)).
Proof.
  revert implemented context.
  induction ifaces as [|iface l IH]; intros implemented c.
  - cbn. lia.
  - rewrite forEach_cons.
    pose proof (checkImplementedInterface_step schema type implemented c
                  iface) as [H1 H2].
    destruct (checkImplementedInterface schema type (implemented, c) iface)
      as [i1 c1].
    cbn [fst snd] in H1, H2. subst i1.
    rewrite IH, H2, !countMessage_app, countMessage_conformance.
    unfold countName. cbn [List.filter].
    fold (countName ifaceName l).
    destruct (String.eqb (name iface) ifaceName) eqn:E.
    + apply String.eqb_eq in E. subst ifaceName.
      rewrite (bool_decide_eq_true_2 (name iface ∈ {[name iface]} ∪ implemented))
        by set_solver.
      cbn [List.length].
      destruct (bool_decide (name iface ∈ implemented)).
      * unfold countMessage, Expected.onlyOnce, countName. cbn.
        rewrite String.eqb_refl. cbn. lia.
      * unfold countName. cbn. lia.
    + apply String.eqb_neq in E.
      assert (Hd : countMessage (Expected.onlyOnceMessage type ifaceName)
                     (if bool_decide (name iface ∈ implemented)
                      then [Expected.onlyOnce type iface] else []) = 0).
      { apply countMessage_none. destruct (bool_decide _); constructor;
          [| constructor].
        cbn. intros H. apply onlyOnceMessage_inj in H. contradiction. }
      rewrite Hd.
      assert (Hm : bool_decide (ifaceName ∈ {[name iface]} ∪ implemented)
                   = bool_decide (ifaceName ∈ implemented)).
      { apply bool_decide_ext. set_solver. }
      rewrite Hm. unfold countName. lia.
Qed.

(** What the loop over the interfaces of [type] reports is, for some
    interface of the list, its "only once" diagnostic or one of its
    conformance diagnostics. *)
Lemma interfaces_shape schema type ifaces implemented :
  Forall
    (fun e =>
       exists iface,
         In iface ifaces
         /\ (e = Expected.onlyOnce type iface \/ conformanceError type iface e))
    (getErrors
       (snd (forEach ifaces (checkImplementedInterface schema type)
               (implemented, new_SchemaValidationContext)))).
Proof.
  revert implemented. induction ifaces as [|iface l IH]; intros implemented;
    [constructor |].
  rewrite (framed_interfaces schema type (iface :: l) implemented
             new_SchemaValidationContext).
  cbn [getErrors _errors new_SchemaValidationContext app].
  rewrite forEach_cons.
  pose proof (checkImplementedInterface_step schema type implemented
                new_SchemaValidationContext iface) as [H1 H2].
  destruct (checkImplementedInterface schema type
              (implemented, new_SchemaValidationContext) iface) as [i1 c1].
  cbn [fst snd] in H1, H2.
  rewrite (framed_interfaces schema type l i1 c1), H2.
  cbn [getErrors _errors new_SchemaValidationContext app].
  repeat (apply Forall_app; split).
  - destruct (bool_decide _); constructor; [| constructor].
    exists iface. split; [now left | now left].
  - eapply List.Forall_impl;
      [| apply (validateObjectImplementsInterface_sound schema type iface);
         constructor].
    intros e He. exists iface. split; [now left | now right].
  - eapply List.Forall_impl; [| apply (IH i1)].
    intros e (iface' & Hin & He). exists iface'. split; [now right | exact He].
Qed.

Lemma getAllImplementsInterfaceNode_name type iface iface' :
  name iface = name iface' ->
  getAllImplementsInterfaceNode type iface
  = getAllImplementsInterfaceNode type iface'.
Proof. unfold getAllImplementsInterfaceNode. now intros ->. Qed.

(** The nodes of an "only once" diagnostic: every interface reference of
    that name on the definition node and on the extension nodes of the
    type. *)
Lemma In_getAllImplementsInterfaceNode type iface node :
  In node (getAllImplementsInterfaceNode type iface)
  <-> value (nt_name node) = name iface
      /\ exists astNode interfaces,
           In (Some astNode) (allASTNodes type)
           /\ td_interfaces astNode = Some interfaces
           /\ In node interfaces.
Proof.
  unfold getAllImplementsInterfaceNode. rewrite in_flat_map. split.
  - intros ([n|] & Hn & H); [| destruct H].
    destruct (td_interfaces n) as [interfaces|] eqn:E; [| destruct H].
    apply List.filter_In in H as [H1 H2]. apply String.eqb_eq in H2.
    split; [exact H2 |]. exists n, interfaces. auto.
  - intros (Hv & n & interfaces & Hn & E & Hin).
    exists (Some n). split; [exact Hn |]. rewrite E.
    apply List.filter_In. split; [exact Hin | now apply String.eqb_eq].
Qed.

Lemma filter_flat_map {A B} (p : B -> bool) (f : A -> list B) l :
  List.filter p (flat_map f l) = flat_map (fun a => List.filter p (f a)) l.
Proof.
  induction l as [|a l IH]; [reflexivity |].
  cbn [flat_map]. now rewrite List.filter_app, IH.
Qed.

(** The references an "only once" diagnostic cites are the references of
    that name among all those written on the type, in their order. *)
Lemma getAllImplementsInterfaceNode_references type iface :
  getAllImplementsInterfaceNode type iface
  = List.filter
      (fun node => String.eqb (value (nt_name node)) (name iface))
      (interfaceReferences type).
Proof.
  unfold getAllImplementsInterfaceNode, interfaceReferences.
  rewrite filter_flat_map. apply flat_map_ext.
  intros [n|]; [| reflexivity]. now destruct (td_interfaces n).
Qed.

Lemma countMessage_flat_map {A} msg (f : A -> list GraphQLError) a l :
  In a l -> countMessage msg (f a) <= countMessage msg (flat_map f l).
Proof.
  induction l as [|b l IH]; [intros [] |].
  intros [-> | Hin]; cbn [flat_map]; rewrite countMessage_app.
  - lia.
  - specialize (IH Hin). lia.
Qed.

(** C4. An object type of the type map that lists an interface N times,
    N at least 2, gets exactly N-1 "only once" diagnostics for it from the
    walker. Each of them cites the references of that name written on the
    definition node and on the extension nodes of the type: all of them,
    once each, in that order, and nothing else. The walker visits every key
    of the type map, so the diagnostics are among those of the whole
    walk. *)
Theorem C4_only_once_diagnostics schema typeName type ifaceName :
  prop (getTypeMap schema) typeName = Some (TypeValue type) ->
  constructor type = GraphQLObjectType ->
  2 <= countName ifaceName (getInterfaces type) ->
  let emitted :=
    getErrors (validateType schema new_SchemaValidationContext typeName) in
  countMessage (Expected.onlyOnceMessage type ifaceName) emitted
  = countName ifaceName (getInterfaces type) - 1
  /\ (forall e,
        In e emitted ->
        message e = Expected.onlyOnceMessage type ifaceName ->
        (forall node,
           In (Some (N_Type (NamedType node))) (nodes e)
           <-> value (nt_name node) = ifaceName
               /\ exists astNode interfaces,
                    In (Some astNode) (allASTNodes type)
                    /\ td_interfaces astNode = Some interfaces
                    /\ In node interfaces)
        /\ nodes e
           = map (fun node => Some (N_Type (NamedType node)))
               (List.filter
                  (fun node => String.eqb (value (nt_name node)) ifaceName)
                  (interfaceReferences type)))
  /\ In typeName (Object_keys (getTypeMap schema))
  /\ (forall context,
        getErrors (validateTypes context schema)
        = getErrors context
          ++ flat_map
               (fun key =>
                  getErrors
                    (validateType schema new_SchemaValidationContext key))
               (Object_keys (getTypeMap schema)))
  /\ (forall context e,
        In e emitted -> In e (getErrors (validateTypes context schema)))
  /\ (forall context,
        countName ifaceName (getInterfaces type) - 1
        <= countMessage (Expected.onlyOnceMessage type ifaceName)
             (getErrors (validateTypes context schema))).
Proof.
  intros Hp Hc HN emitted.
  assert (Hkey : In typeName (Object_keys (getTypeMap schema))).
  { now apply prop_Some_keys in Hp. }
  assert (Hcount : countMessage (Expected.onlyOnceMessage type ifaceName)
                     emitted
                   = countName ifaceName (getInterfaces type) - 1).
  { subst emitted. unfold validateType. cbv zeta. rewrite Hp.
    cbn [isType negb]. rewrite Hc. cbn [TypeClass_eqb].
    rewrite interfaces_count.
    rewrite (bool_decide_eq_false_2 (ifaceName ∈ (∅ : gset string)))
      by set_solver.
    change (countMessage (Expected.onlyOnceMessage type ifaceName)
              (getErrors new_SchemaValidationContext)) with 0.
    lia. }
  split; [exact Hcount |].
  split.
  { intros e He Hm. subst emitted. revert He.
    unfold validateType. cbv zeta. rewrite Hp. cbn [isType negb].
    rewrite Hc. cbn [TypeClass_eqb]. intros He.
    pose proof (interfaces_shape schema type (getInterfaces type) ∅) as Hs.
    rewrite List.Forall_forall in Hs.
    destruct (Hs e He) as (iface & Hin & [-> | Hconf]).
    - cbn [message Expected.onlyOnce] in Hm.
      apply onlyOnceMessage_inj in Hm. subst ifaceName.
      split.
      + intros node. rewrite <- In_getAllImplementsInterfaceNode.
        cbn [nodes Expected.onlyOnce]. rewrite in_map_iff. split.
        * intros (n & [= ->] & Hn). exact Hn.
        * intros Hn. eauto.
      + cbn [nodes Expected.onlyOnce].
        now rewrite getAllImplementsInterfaceNode_references.
    - exfalso.
      now apply (conformanceError_not_onlyOnce _ _ _ ifaceName) in Hconf. }
  split; [exact Hkey |].
  split; [apply validateTypes_exact |].
  split.
  { intros context e He. rewrite validateTypes_exact.
    apply in_or_app. right. apply in_flat_map. now exists typeName. }
  intros context. rewrite validateTypes_exact, countMessage_app.
  pose proof (countMessage_flat_map
                (Expected.onlyOnceMessage type ifaceName)
                (fun key =>
                   getErrors
                     (validateType schema new_SchemaValidationContext key))
                typeName (Object_keys (getTypeMap schema)) Hkey) as Hle.
  cbv beta in Hle. subst emitted. rewrite Hcount in Hle. lia.
Qed.

(** *** The entry point *)

Local Abbreviation typeDiagnostics :=
  (typeDiagnostics isTypeSubTypeOf isEqualType).

Lemma getErrors_pass schema :
  getErrors
    (validateTypes
       (validateDirectives
          (validateRootTypes new_SchemaValidationContext schema) schema)
       schema)
  = rootTypeDiagnostics schema ++ directiveDiagnostics schema
    ++ typeDiagnostics schema.
Proof.
  rewrite framed_validateTypes, framed_validateDirectives.
  now rewrite <- app_assoc.
Qed.

Lemma validateSchema_first schema :
  __validationErrors schema = None ->
  validateSchema (Schema schema)
  = (Return (rootTypeDiagnostics schema ++ directiveDiagnostics schema
               ++ typeDiagnostics schema),
     Schema
       (set_validationErrors schema
          (rootTypeDiagnostics schema ++ directiveDiagnostics schema
             ++ typeDiagnostics schema))).
Proof.
  intros H. unfold validateSchema. rewrite H. cbv zeta.
  now rewrite getErrors_pass.
Qed.

Lemma validateSchema_stored schema errors :
  __validationErrors schema = Some errors ->
  validateSchema (Schema schema) = (Return errors, Schema schema).
Proof. intros H. unfold validateSchema. now rewrite H. Qed.

(** C1 (as amended). For every object type of the type map and every
    interface reference on it, in the order of [getInterfaces]: the
    conformance checker runs on the reference whether or not an earlier
    reference has its name; when one has, the "only once" diagnostic is
    reported first, ahead of what the conformance checker reports. What the
    walker reports for the type is what it reports for the earlier
    references, then these diagnostics, then what it reports for the later
    references with the name recorded. The walker does so for every key of
    the type map, and the diagnostics are in the list [validateSchema]
    returns. *)
Theorem C1_every_reference_is_checked schema typeName type pre iface post :
  prop (getTypeMap schema) typeName = Some (TypeValue type) ->
  constructor type = GraphQLObjectType ->
  getInterfaces type = pre ++ iface :: post ->
  let conformance :=
    fun iface =>
      getErrors
        (validateObjectImplementsInterface new_SchemaValidationContext schema
           type iface) in
  let recorded := existsb (String.eqb (name iface)) (map name pre) in
  let reported :=
    (if recorded then [Expected.onlyOnce type iface] else [])
    ++ conformance iface in
  (recorded = true <-> In (name iface) (map name pre))
  /\ (forall context,
        getErrors (validateType schema context typeName)
        = getErrors context
          ++ referenceDiagnostics type conformance [] pre
          ++ reported
          ++ referenceDiagnostics type conformance
               (map name pre ++ [name iface]) post)
  /\ In typeName (Object_keys (getTypeMap schema))
  /\ (forall context,
        getErrors (validateTypes context schema)
        = getErrors context
          ++ flat_map
               (fun key =>
                  getErrors
                    (validateType schema new_SchemaValidationContext key))
               (Object_keys (getTypeMap schema)))
  /\ (forall context e,
        In e reported -> In e (getErrors (validateTypes context schema)))
  /\ (__validationErrors schema = None ->
      exists errors arg',
        validateSchema (Schema schema) = (Return errors, arg')
        /\ forall e, In e reported -> In e errors).
Proof.
  intros Hp Hc Hsplit conformance recorded reported.
  assert (Htype : forall context,
             getErrors (validateType schema context typeName)
             = getErrors context
               ++ referenceDiagnostics type conformance [] pre
               ++ reported
               ++ referenceDiagnostics type conformance
                    (map name pre ++ [name iface]) post).
  { intros context.
    rewrite (validateType_object schema context typeName type Hp Hc), Hsplit.
    rewrite referenceDiagnostics_app. cbn [referenceDiagnostics app].
    subst reported recorded. now rewrite <- !app_assoc. }
  assert (Hkey : In typeName (Object_keys (getTypeMap schema))).
  { now apply prop_Some_keys in Hp. }
  assert (Hwalk : forall context e,
             In e reported -> In e (getErrors (validateTypes context schema))).
  { intros context e He. rewrite validateTypes_exact.
    apply in_or_app. right. apply in_flat_map. exists typeName.
    split; [exact Hkey |]. rewrite Htype.
    apply in_or_app. right. apply in_or_app. right. apply in_or_app.
    now left. }
  split; [apply existsb_eqb_In |].
  split; [exact Htype |].
  split; [exact Hkey |].
  split; [apply validateTypes_exact |].
  split; [exact Hwalk |].
  intros Hnone. rewrite (validateSchema_first schema Hnone).
  eexists. eexists. split; [reflexivity |].
  intros e He. apply in_or_app. right. apply in_or_app. right.
  apply Hwalk, He.
Qed.

Lemma rootTypeDiagnostics_slots schema :
  rootTypeDiagnostics schema
  = Expected.queryTypeErrors schema ++ Expected.mutationTypeErrors schema
    ++ Expected.subscriptionTypeErrors schema.
Proof.
  unfold rootTypeDiagnostics, validateRootTypes, Expected.queryTypeErrors,
    Expected.mutationTypeErrors, Expected.subscriptionTypeErrors,
    Expected.optionalRootErrors.
  cbv zeta.
  destruct (negb (truthy (getQueryType schema)));
    [| destruct (negb (instanceOf (getQueryType schema) GraphQLObjectType))];
    (destruct (truthy (getMutationType schema)
               && negb (instanceOf (getMutationType schema) GraphQLObjectType));
     destruct (truthy (getSubscriptionType schema)
               && negb (instanceOf (getSubscriptionType schema)
                          GraphQLObjectType)));
    reflexivity.
Qed.

(** C7. On a schema not validated before, [validateSchema] returns (it
    does not throw) a list that starts with what the query slot, then the
    mutation slot, then the subscription slot call for; when the query slot
    is absent, that is the diagnostic of message "Query root type must be
    provided.". The root type checker appends the diagnostics of the three
    slots one after the other to any sink, and what it reports for a slot is
    a function of that slot (and of the schema definition node) alone,
    whatever the other two slots hold. *)
Theorem C7_root_type_checks schema :
  (__validationErrors schema = None ->
   exists rest,
     fst (validateSchema (Schema schema))
     = Return
         (Expected.queryTypeErrors schema
            ++ Expected.mutationTypeErrors schema
            ++ Expected.subscriptionTypeErrors schema ++ rest))
  /\ (truthy (getQueryType schema) = false ->
      Expected.queryTypeErrors schema = [Expected.queryTypeMissing schema]
      /\ message (Expected.queryTypeMissing schema)
         = "Query root type must be provided.")
  /\ (forall context,
        getErrors (validateRootTypes context schema)
        = getErrors context ++ Expected.queryTypeErrors schema
          ++ Expected.mutationTypeErrors schema
          ++ Expected.subscriptionTypeErrors schema)
  /\ (forall schema',
        schema_astNode schema' = schema_astNode schema ->
        (getQueryType schema' = getQueryType schema ->
         Expected.queryTypeErrors schema' = Expected.queryTypeErrors schema)
        /\ (getMutationType schema' = getMutationType schema ->
            Expected.mutationTypeErrors schema'
            = Expected.mutationTypeErrors schema)
        /\ (getSubscriptionType schema' = getSubscriptionType schema ->
            Expected.subscriptionTypeErrors schema'
            = Expected.subscriptionTypeErrors schema)).
Proof.
  split; [| split; [| split]].
  - intros Hnone.
    exists (directiveDiagnostics schema ++ typeDiagnostics schema).
    rewrite (validateSchema_first schema Hnone). cbn [fst].
    rewrite rootTypeDiagnostics_slots. now rewrite <- !app_assoc.
  - intros Hq. unfold Expected.queryTypeErrors. rewrite Hq.
    split; reflexivity.
  - intros context. rewrite framed_validateRootTypes.
    fold (rootTypeDiagnostics schema). now rewrite rootTypeDiagnostics_slots.
  - intros schema' Ha.
    unfold Expected.queryTypeErrors, Expected.mutationTypeErrors,
      Expected.subscriptionTypeErrors, Expected.optionalRootErrors,
      Expected.queryTypeMissing, Expected.rootNotObject, getOperationTypeNode.
    rewrite Ha.
    repeat split; intros ->; reflexivity.
Qed.

(** On the schemas of [GraphQLSchema], all of whose values [String]
    converts, [validateSchema] throws exactly when its argument is not a
    schema: absent, a value of another class, or a look-alike from another
    realm. A call that throws leaves its argument as it was and returns no
    list. On such a schema it returns the stored list, or, on the first
    call, all the diagnostics of the root type checker, then of the
    directive checker, then of the type walker. *)
Lemma validateSchema_throws_iff arg :
  ((exists e, fst (validateSchema arg) = Throw e)
   <-> forall schema, arg <> Schema schema)
  /\ (forall e,
        fst (validateSchema arg) = Throw e -> snd (validateSchema arg) = arg)
  /\ (forall schema,
        arg = Schema schema ->
        fst (validateSchema arg)
        = Return
            match __validationErrors schema with
            | Some errors => errors
            | None =>
                rootTypeDiagnostics schema ++ directiveDiagnostics schema
                  ++ typeDiagnostics schema
            end).
Proof.
  split; [| split].
  - destruct arg as [|[ctor|] str|schema].
    + split; [intros _ schema; discriminate | intros _; cbn; eauto].
    + split; [intros _ schema; discriminate |].
      intros _. cbn. destruct (String.eqb ctor "GraphQLSchema"); cbn; eauto.
    + split; [intros _ schema; discriminate | intros _; cbn; eauto].
    + split.
      * intros [e He]. exfalso.
        destruct (__validationErrors schema) as [errors|] eqn:E.
        -- rewrite (validateSchema_stored schema errors E) in He.
           discriminate He.
        -- rewrite (validateSchema_first schema E) in He. discriminate He.
      * intros H. exfalso. now apply (H schema).
  - intros e He. destruct arg as [|[ctor|] str|schema].
    + reflexivity.
    + cbn. now destruct (String.eqb ctor "GraphQLSchema").
    + reflexivity.
    + exfalso. destruct (__validationErrors schema) as [errors|] eqn:E.
      * rewrite (validateSchema_stored schema errors E) in He. discriminate He.
      * rewrite (validateSchema_first schema E) in He. discriminate He.
  - intros schema ->.
    destruct (__validationErrors schema) as [errors|] eqn:E.
    + now rewrite (validateSchema_stored schema errors E).
    + now rewrite (validateSchema_first schema E).
Qed.

(** C9. [assertValidSchema] calls [validateSchema]; when that returns a
    list, it throws exactly when the list is not empty, with the messages of
    the diagnostics, in the order of the list, joined by two line feeds; on
    an empty list it returns normally. *)
Theorem C9_assertValidSchema arg errors arg' :
  validateSchema arg = (Return errors, arg') ->
  assertValidSchema arg
  = (match errors with
     | [] => Return tt
     | _ :: _ => Throw (Error (join (LF +:+ LF) (map message errors)))
     end, arg')
  /\ ((exists e, fst (assertValidSchema arg) = Throw e) <-> errors <> [])
  /\ forall first second others,
       errors = first :: second :: others ->
       fst (assertValidSchema arg)
       = Throw
           (Error
              (message first +:+ LF +:+ LF
                 +:+ join (LF +:+ LF) (map message (second :: others)))).
Proof.
  intros H.
  assert (E : assertValidSchema arg
              = (match errors with
                 | [] => Return tt
                 | _ :: _ =>
                     Throw (Error (join (LF +:+ LF) (map message errors)))
                 end, arg')).
  { unfold assertValidSchema. rewrite H.
    destruct errors; reflexivity. }
  split; [exact E | split].
  - rewrite E. destruct errors as [|e l]; cbn [fst].
    + split; [intros [e He]; discriminate He | intros Hn; now destruct Hn].
    + split; [intros _; discriminate | intros _; eauto].
  - intros first second others ->. rewrite E. reflexivity.
Qed.

(** *** Nodes of the diagnostics *)

Lemma noAbsentNode_filter msg ns :
  noAbsentNode (mkGraphQLError msg (List.filter Boolean ns)).
Proof.
  unfold noAbsentNode. cbn [nodes]. apply List.Forall_forall.
  intros n Hn. apply List.filter_In in Hn as [_ Hn].
  now destruct n.
Qed.

Lemma conformanceError_noAbsentNode object iface e :
  conformanceError object iface e -> noAbsentNode e.
Proof. intros []; apply noAbsentNode_filter. Qed.

Lemma schemaError_noAbsentNode schema e :
  schemaError schema e -> noAbsentNode e.
Proof.
  intros [ | prefix op type _ | v _ | typeName v _ | typeName type iface _ _
         | typeName type iface e' _ _ Hc ];
    try apply noAbsentNode_filter.
  - unfold noAbsentNode, Expected.onlyOnce. cbn [nodes].
    apply List.Forall_forall. intros n Hn.
    apply in_map_iff in Hn as (x & <- & _). discriminate.
  - now apply conformanceError_noAbsentNode in Hc.
Qed.

Lemma getFieldNode_from_noSyntax astNodes fieldName :
  Forall (fun n => n = None) astNodes ->
  getFieldNode_from astNodes fieldName = None.
Proof. induction 1 as [|n l -> _ IH]; [reflexivity | exact IH]. Qed.

Lemma getFieldNode_noSyntax type fieldName :
  noSyntaxType type -> getFieldNode type fieldName = None.
Proof. apply getFieldNode_from_noSyntax. Qed.

Lemma getAllImplementsInterfaceNode_noSyntax type iface :
  noSyntaxType type -> getAllImplementsInterfaceNode type iface = [].
Proof.
  unfold noSyntaxType, getAllImplementsInterfaceNode.
  induction 1 as [|n l -> _ IH]; [reflexivity | exact IH].
Qed.

Lemma astNode_noSyntax type : noSyntaxType type -> astNode type = None.
Proof. unfold noSyntaxType, allASTNodes. now inversion 1. Qed.

Lemma conformanceError_noSyntax object iface e :
  noSyntaxType object -> noSyntaxType iface ->
  conformanceError object iface e -> nodes e = [].
Proof.
  intros Ho Hi [ | fieldName | fieldName ifaceField objectField
               | fieldName ifaceArg | fieldName ifaceArg objectArg
               | fieldName objectArg ];
    cbv beta delta
      [Expected.notInterface Expected.missingField Expected.fieldTypeMismatch
       Expected.missingArg Expected.argTypeMismatch Expected.requiredExtraArg
       getImplementsInterfaceNode getFieldTypeNode getFieldArgNode
       getFieldArgTypeNode nodes] zeta iota;
    rewrite ?(getFieldNode_noSyntax _ _ Ho), ?(getFieldNode_noSyntax _ _ Hi),
      ?(getAllImplementsInterfaceNode_noSyntax _ _ Ho),
      ?(astNode_noSyntax _ Ho);
    reflexivity.
Qed.

Lemma schemaError_noSyntax schema e :
  noSyntax schema -> schemaError schema e -> nodes e = [].
Proof.
  intros (Ha & Hroots & Hdirs & Htypes).
  assert (Htype : forall typeName type,
             In (typeName, TypeValue type) (getTypeMap schema) ->
             noSyntaxType type /\ Forall noSyntaxType (getInterfaces type)).
  { intros typeName type Hin.
    rewrite List.Forall_forall in Htypes.
    now destruct (Htypes _ Hin) as [_ H]. }
  intros [ | prefix op type Hin | v Hin | typeName v Hin
         | typeName type iface Hin Hi | typeName type iface e' Hin Hi Hc ].
  - unfold Expected.queryTypeMissing. cbn [nodes]. now rewrite Ha.
  - unfold Expected.rootNotObject, getOperationTypeNode. cbn [nodes].
    rewrite Ha. rewrite List.Forall_forall in Hroots.
    destruct (Hroots _ Hin) as [-> _]. reflexivity.
  - unfold Expected.notDirective. cbn [nodes].
    rewrite List.Forall_forall in Hdirs.
    destruct (Hdirs _ Hin) as [-> _]. reflexivity.
  - unfold Expected.notType. cbn [nodes].
    rewrite List.Forall_forall in Htypes.
    destruct (Htypes _ Hin) as [H _]. cbn [snd] in H. now rewrite H.
  - destruct (Htype _ _ Hin) as [Ht _].
    unfold Expected.onlyOnce. cbn [nodes].
    now rewrite (getAllImplementsInterfaceNode_noSyntax _ _ Ht).
  - destruct (Htype _ _ Hin) as [Ht Hs].
    rewrite List.Forall_forall in Hs.
    now apply (conformanceError_noSyntax type iface e' Ht (Hs _ Hi)).
Qed.

(** A checker that is framed and reports only diagnostics without absent
    nodes keeps a sink without absent nodes so. *)
Lemma noAbsentNode_preserved f context :
  framed f ->
  Forall noAbsentNode (getErrors (f new_SchemaValidationContext)) ->
  Forall noAbsentNode (getErrors context) ->
  Forall noAbsentNode (getErrors (f context)).
Proof. intros Hf Hn Hc. rewrite Hf. apply Forall_app. now split. Qed.

(** C10. [reportError] appends one diagnostic whose node list is the
    argument (a single node taken as a one-element list, a list taken as it
    is) without its absent entries; so no diagnostic of the sink carries an
    absent node, each checker keeps that so, the list [validateSchema]
    computes has none, and on a schema built without syntax nodes every
    diagnostic carries the empty node list. *)
Theorem C10_nodes_are_present :
  (forall context msg nodes_,
     getErrors (reportError context msg nodes_)
     = getErrors context
       ++ [mkGraphQLError msg
             (List.filter Boolean
                match nodes_ with NodeArray ns => ns | OneNode n => [n] end)]
     /\ (forall n, nodes_ = OneNode (Some n) ->
                   getErrors (reportError context msg nodes_)
                   = getErrors context ++ [mkGraphQLError msg [Some n]])
     /\ (nodes_ = OneNode None \/ nodes_ = NodeArray [None; None] ->
         getErrors (reportError context msg nodes_)
         = getErrors context ++ [mkGraphQLError msg []])
     /\ (Forall noAbsentNode (getErrors context) ->
         Forall noAbsentNode (getErrors (reportError context msg nodes_))))
  /\ (forall schema context,
        Forall noAbsentNode (getErrors context) ->
        Forall noAbsentNode (getErrors (validateRootTypes context schema))
        /\ Forall noAbsentNode (getErrors (validateDirectives context schema))
        /\ Forall noAbsentNode (getErrors (validateTypes context schema))
        /\ forall object iface,
             Forall noAbsentNode
               (getErrors
                  (validateObjectImplementsInterface context schema object
                     iface)))
  /\ (forall schema errors arg',
        __validationErrors schema = None ->
        validateSchema (Schema schema) = (Return errors, arg') ->
        Forall noAbsentNode errors
        /\ (noSyntax schema -> Forall (fun e => nodes e = []) errors)).
Proof.
  split; [| split].
  - intros context msg nodes_. split; [reflexivity | split; [| split]].
    + intros n ->. reflexivity.
    + intros [-> | ->]; reflexivity.
    + intros Hc. apply Forall_reportError; [exact Hc |].
      apply noAbsentNode_filter.
  - intros schema context Hc.
    assert (Hnew : Forall (schemaError schema)
                     (getErrors new_SchemaValidationContext)) by constructor.
    split; [| split; [| split]].
    + apply (noAbsentNode_preserved (fun c => validateRootTypes c schema));
        [apply framed_validateRootTypes | | exact Hc].
      eapply List.Forall_impl;
        [| apply (validateRootTypes_sound schema _ Hnew)].
      apply schemaError_noAbsentNode.
    + apply (noAbsentNode_preserved (fun c => validateDirectives c schema));
        [apply framed_validateDirectives | | exact Hc].
      eapply List.Forall_impl;
        [| apply (validateDirectives_sound schema _ Hnew)].
      apply schemaError_noAbsentNode.
    + apply (noAbsentNode_preserved (fun c => validateTypes c schema));
        [apply framed_validateTypes | | exact Hc].
      eapply List.Forall_impl;
        [| apply (validateTypes_sound schema _ Hnew)].
      apply schemaError_noAbsentNode.
    + intros object iface.
      apply (noAbsentNode_preserved
               (fun c => validateObjectImplementsInterface c schema object
                           iface));
        [apply framed_validateObjectImplementsInterface | | exact Hc].
      eapply List.Forall_impl;
        [| apply validateObjectImplementsInterface_sound; constructor].
      intros e He. now apply conformanceError_noAbsentNode in He.
  - intros schema errors arg' Hnone H.
    unfold validateSchema in H. rewrite Hnone in H. cbv zeta in H.
    injection H as <- _.
    split.
    + eapply List.Forall_impl; [| apply schema_sound].
      apply schemaError_noAbsentNode.
    + intros Hs. eapply List.Forall_impl; [| apply schema_sound].
      intros e. now apply schemaError_noSyntax.
Qed.

End WithComparators.

(** C2. A schema that carries a stored list gets that list back, also when
    the list is empty, and is left as it is. A schema that carries none gets
    the diagnostics of the root type checker, of the directive checker and
    of the type walker, run in that order on a fresh sink, and the list is
    stored on it; every later call on that schema returns the same list and
    leaves the schema alone, whatever comparators it is given and however
    often it is repeated: nothing is checked again. *)
Theorem C2_validate_is_memoized isTypeSubTypeOf isEqualType schema :
  (forall stored,
     __validationErrors schema = Some stored ->
     validateSchema isTypeSubTypeOf isEqualType (Schema schema)
     = (Return stored, Schema schema))
  /\ (__validationErrors schema = None ->
      let errors :=
        getErrors
          (validateTypes isTypeSubTypeOf isEqualType
             (validateDirectives
                (validateRootTypes new_SchemaValidationContext schema) schema)
             schema) in
      let validated := Schema (set_validationErrors schema errors) in
      let again a := snd (validateSchema isTypeSubTypeOf isEqualType a) in
      validateSchema isTypeSubTypeOf isEqualType (Schema schema)
      = (Return errors, validated)
      /\ errors
         = rootTypeDiagnostics schema ++ directiveDiagnostics schema
           ++ typeDiagnostics isTypeSubTypeOf isEqualType schema
      /\ (forall subType equalType,
            validateSchema subType equalType validated
            = (Return errors, validated))
      /\ (forall n,
            Nat.iter n again validated = validated
            /\ fst (validateSchema isTypeSubTypeOf isEqualType
                      (Nat.iter n again validated))
               = Return errors)).
Proof.
  split; [apply validateSchema_stored |].
  intros Hnone errors validated again.
  assert (Hstored : forall subType equalType,
             validateSchema subType equalType validated
             = (Return errors, validated)) by reflexivity.
  split; [| split; [| split]].
  - unfold validateSchema. now rewrite Hnone.
  - apply getErrors_pass.
  - exact Hstored.
  - intros n.
    assert (Hn : Nat.iter n again validated = validated).
    { induction n as [|n IH]; [reflexivity |].
      rewrite Nat.iter_succ, IH. unfold again. now rewrite Hstored. }
    split; [exact Hn |]. rewrite Hn. now rewrite Hstored.
Qed.

(** ** The pass with its exceptions *)

Lemma forEachOrThrow_Throw {A S} (l : list A) (f : S -> A -> Completion S) e :
  fold_left (fun c a => Raw.bind c (fun s => f s a)) l (Throw e) = Throw e.
Proof. induction l as [|a l IH]; [reflexivity | exact IH]. Qed.

Lemma forEachOrThrow_cons {A S} a (l : list A) (f : S -> A -> Completion S) s :
  Raw.forEachOrThrow (a :: l) f s
  = Raw.bind (f s a) (fun s' => Raw.forEachOrThrow l f s').
Proof.
  unfold Raw.forEachOrThrow. cbn [fold_left Raw.bind].
  destruct (f s a); [reflexivity | apply forEachOrThrow_Throw].
Qed.

(** A loop whose callback throws on the marked entries, whatever the
    state, and returns on the others: it throws when an entry is marked,
    and the entries after the first marked one are not visited. *)
Lemma forEachOrThrow_exact {A S} (marked : A -> bool) (l : list A)
    (f : S -> A -> Completion S) (g : S -> A -> S) e s :
  (forall s a, marked a = false -> f s a = Return (g s a)) ->
  (forall s a, marked a = true -> f s a = Throw e) ->
  Raw.forEachOrThrow l f s
  = if existsb marked l then Throw e else Return (forEach l g s).
Proof.
  intros Hreturn Hthrow. revert s.
  induction l as [|a l IH]; intros s; [reflexivity |].
  rewrite forEachOrThrow_cons. cbn [existsb].
  destruct (marked a) eqn:Ha.
  - now rewrite Hthrow.
  - rewrite Hreturn by exact Ha. cbn [Raw.bind orb]. rewrite IH.
    now rewrite forEach_cons.
Qed.

Lemma forEach_map {A B S} (h : A -> B) (g : S -> B -> S) l s :
  forEach l (fun s a => g s (h a)) s = forEach (map h l) g s.
Proof.
  revert s. induction l as [|a l IH]; intros s; [reflexivity |].
  cbn [map]. rewrite !forEach_cons. apply IH.
Qed.

Lemma forEach_definedInterfaces {S} (g : S -> TypeObj -> S) interfaces s :
  forEach interfaces
    (fun s iface => match iface with
                    | Some i => g s i
                    | None => s
                    end) s
  = forEach (Raw.definedInterfaces interfaces) g s.
Proof.
  revert s. induction interfaces as [|[i|] l IH]; intros s; [reflexivity | |].
  - cbn [Raw.definedInterfaces flat_map app]. rewrite !forEach_cons.
    apply IH.
  - cbn [Raw.definedInterfaces flat_map app]. rewrite forEach_cons.
    apply IH.
Qed.

Lemma existsb_map_Some {A} (l : list A) :
  existsb (fun x : option A => negb (Boolean x)) (map Some l) = false.
Proof. induction l as [|a l IH]; [reflexivity | exact IH]. Qed.

Lemma definedInterfaces_map_Some l : Raw.definedInterfaces (map Some l) = l.
Proof.
  induction l as [|a l IH]; [reflexivity |].
  cbn [map Raw.definedInterfaces flat_map app].
  fold (Raw.definedInterfaces (map Some l)). now rewrite IH.
Qed.

(** Except for [String], the operations on a value are those on the value
    the comparators get. *)
Lemma isTruthy_plainValue v : Raw.isTruthy v = truthy (Raw.plainValue v).
Proof. now destruct v. Qed.

Lemma isInstanceOf_plainValue v c :
  Raw.isInstanceOf v c = instanceOf (Raw.plainValue v) c.
Proof. now destruct v. Qed.

Lemma isAType_plainValue v : Raw.isAType v = isType (Raw.plainValue v).
Proof. now destruct v. Qed.

Lemma nodeOf_plainValue v : Raw.nodeOf v = astNodeOf (Raw.plainValue v).
Proof. now destruct v. Qed.

Lemma toString_exact v :
  Raw.toString v
  = if Raw.unrenderable v then Throw TypeError
    else Return (String_ (Raw.plainValue v)).
Proof. now destruct v. Qed.

Lemma unrenderable_not_object v c :
  Raw.unrenderable v = true ->
  truthy (Raw.plainValue v) = true /\ instanceOf (Raw.plainValue v) c = false
  /\ isType (Raw.plainValue v) = false.
Proof. destruct v; try discriminate. now intros _. Qed.

Lemma getOperationTypeNode_plain schema v operation_ :
  Raw.getOperationTypeNode schema v operation_
  = getOperationTypeNode (Raw.plainSchema schema) (Raw.plainValue v)
      operation_.
Proof.
  unfold Raw.getOperationTypeNode, getOperationTypeNode.
  now rewrite nodeOf_plainValue.
Qed.

(** A report whose message renders the value. *)
Lemma report_exact v (b : bool) context (k : string -> SchemaValidationContext) :
  (if b
   then Raw.bind (Raw.toString v) (fun str => Return (k str))
   else Return context)
  = if b && Raw.unrenderable v then Throw TypeError
    else Return (if b then k (String_ (Raw.plainValue v)) else context).
Proof. rewrite toString_exact. now destruct b, (Raw.unrenderable v). Qed.

Lemma plainSchema_ofSchema schema : Raw.plainSchema (Raw.ofSchema schema) = schema.
Proof.
  destruct schema as [node q m su directives typeMap stored].
  unfold Raw.plainSchema, Raw.ofSchema. cbn.
  f_equal.
  - rewrite map_map. rewrite <- (map_id directives) at 2.
    apply map_ext. now intros [n d|v].
  - rewrite map_map. rewrite <- (map_id typeMap) at 2.
    apply map_ext. now intros [k v].
Qed.

Lemma prop_map {A B} (h : A -> B) (m : ObjMap A) key :
  prop (map (fun kv => (fst kv, h (snd kv))) m) key
  = option_map h (prop m key).
Proof.
  induction m as [|[k v] m IH]; [reflexivity |].
  cbn. destruct (String.eqb k key); [reflexivity | exact IH].
Qed.

Lemma keys_map {A B} (h : A -> B) (m : ObjMap A) :
  Object_keys (map (fun kv => (fst kv, h (snd kv))) m) = Object_keys m.
Proof. unfold Object_keys. now rewrite map_map. Qed.

Lemma raises_ofSchema schema : Raw.raises (Raw.ofSchema schema) = false.
Proof.
  unfold Raw.raises. cbn [Raw.ofSchema Raw.rawQueryType Raw.rawMutationType
    Raw.rawSubscriptionType Raw.rawDirectives Raw.rawTypeMap
    Raw.unrenderable orb].
  assert (Hd : existsb Raw.directiveRaises
                 (map Raw.ofDirective (getDirectives schema)) = false).
  { induction (getDirectives schema) as [|[n d|v] l IH];
      [reflexivity | exact IH | exact IH]. }
  rewrite Hd. cbn [orb].
  rewrite keys_map.
  apply not_true_is_false. intros H. apply existsb_exists in H.
  destruct H as (key & _ & H). unfold Raw.keyRaises in H.
  rewrite prop_map in H.
  destruct (prop (getTypeMap schema) key) as [v|]; [| discriminate H].
  cbn [option_map] in H. unfold Raw.entryRaises in H. cbn in H.
  destruct v as [str|t|ofType|ofType|str node]; try discriminate H.
  destruct (TypeClass_eqb (constructor t) GraphQLObjectType);
    [| discriminate H].
  now rewrite existsb_map_Some in H.
Qed.

Section RawPass.

Variable isTypeSubTypeOf : GraphQLSchema -> GraphQLType -> GraphQLType -> bool.
Variable isEqualType : GraphQLType -> GraphQLType -> bool.

(** What each checker does: it throws the TypeError when one of the values
    it renders cannot be converted, or an interface entry it reads is not
    defined; otherwise it returns what the checker without exceptions
    computes. *)
Lemma Raw_validateRootTypes schema context :
  Raw.validateRootTypes context schema
  = if Raw.unrenderable (Raw.rawQueryType schema)
       || Raw.unrenderable (Raw.rawMutationType schema)
       || Raw.unrenderable (Raw.rawSubscriptionType schema)
    then Throw TypeError
    else Return (validateRootTypes context (Raw.plainSchema schema)).
Proof.
  unfold Raw.validateRootTypes, validateRootTypes. cbv zeta.
  rewrite !getOperationTypeNode_plain, !isTruthy_plainValue,
    !isInstanceOf_plainValue.
  cbn [Raw.plainSchema getQueryType getMutationType getSubscriptionType
         schema_astNode].
  set (q := Raw.rawQueryType schema).
  set (m := Raw.rawMutationType schema).
  set (su := Raw.rawSubscriptionType schema).
  assert (Hq : (if negb (truthy (Raw.plainValue q)) then
                  Return
                    (reportError context "Query root type must be provided."
                       (OneNode (option_map N_Schema (Raw.rawASTNode schema))))
                else if negb (instanceOf (Raw.plainValue q) GraphQLObjectType)
                then
                  Raw.bind (Raw.toString q) (fun str =>
                  Return
                    (reportError context
                       ("Query root type must be Object type but got: "
                          +:+ str +:+ ".")
                       (OneNode
                          (getOperationTypeNode (Raw.plainSchema schema)
                             (Raw.plainValue q) "query"))))
                else Return context)
               = if Raw.unrenderable q then Throw TypeError
                 else
                   Return
                     (if negb (truthy (Raw.plainValue q)) then
                        reportError context
                          "Query root type must be provided."
                          (OneNode
                             (option_map N_Schema (Raw.rawASTNode schema)))
                      else if negb (instanceOf (Raw.plainValue q)
                                      GraphQLObjectType)
                      then
                        reportError context
                          ("Query root type must be Object type but got: "
                             +:+ String_ (Raw.plainValue q) +:+ ".")
                          (OneNode
                             (getOperationTypeNode (Raw.plainSchema schema)
                                (Raw.plainValue q) "query"))
                      else context)).
  { rewrite toString_exact.
    destruct (Raw.unrenderable q) eqn:Hu.
    - destruct (unrenderable_not_object q GraphQLObjectType Hu)
        as (-> & -> & _). reflexivity.
    - now destruct (truthy (Raw.plainValue q)),
        (instanceOf (Raw.plainValue q) GraphQLObjectType). }
  rewrite Hq. clear Hq.
  destruct (Raw.unrenderable q); [reflexivity |].
  cbn [orb Raw.bind]. rewrite report_exact.
  destruct (Raw.unrenderable m) eqn:Hm.
  - destruct (unrenderable_not_object m GraphQLObjectType Hm)
      as (-> & -> & _). reflexivity.
  - rewrite andb_false_r. cbn [orb Raw.bind]. rewrite report_exact.
    destruct (Raw.unrenderable su) eqn:Hs.
    + destruct (unrenderable_not_object su GraphQLObjectType Hs)
        as (-> & -> & _). reflexivity.
    + now rewrite andb_false_r.
Qed.

Lemma Raw_validateDirectives schema context :
  Raw.validateDirectives context schema
  = if existsb Raw.directiveRaises (Raw.rawDirectives schema)
    then Throw TypeError
    else Return (validateDirectives context (Raw.plainSchema schema)).
Proof.
  unfold Raw.validateDirectives, validateDirectives. cbv zeta.
  cbn [Raw.plainSchema getDirectives].
  rewrite <- forEach_map.
  apply forEachOrThrow_exact.
  - intros c [n d|v] H; [reflexivity |].
    cbn [Raw.directiveRaises] in H. cbn [Raw.validateDirective].
    rewrite toString_exact, H, nodeOf_plainValue. reflexivity.
  - intros c [n d|v] H; [discriminate H |].
    cbn [Raw.directiveRaises] in H. cbn [Raw.validateDirective].
    now rewrite toString_exact, H.
Qed.

Lemma Raw_validateType schema context typeName :
  Raw.validateType isTypeSubTypeOf isEqualType schema context typeName
  = if Raw.keyRaises (Raw.rawTypeMap schema) typeName then Throw TypeError
    else
      Return
        (validateType isTypeSubTypeOf isEqualType (Raw.plainSchema schema)
           context typeName).
Proof.
  unfold Raw.validateType, validateType, Raw.keyRaises. cbv zeta.
  cbn [Raw.plainSchema getTypeMap]. rewrite prop_map.
  destruct (prop (Raw.rawTypeMap schema) typeName) as [v|];
    cbn [option_map]; [| reflexivity].
  destruct v as [v|node|t interfaces].
  - unfold Raw.entryRaises.
    cbn [Raw.isAType Raw.toString Raw.nodeOf Raw.plainValue Raw.unrenderable
           orb].
    destruct v as [str|t|ofType|ofType|str node];
      cbn [isType negb Raw.bind Raw.objectInterfaces]; try reflexivity.
    destruct (TypeClass_eqb (constructor t) GraphQLObjectType);
      [| reflexivity].
    rewrite existsb_map_Some.
    rewrite (forEachOrThrow_exact (fun iface => negb (Boolean iface)) _ _
               (fun st iface =>
                  match iface with
                  | Some i =>
                      checkImplementedInterface isTypeSubTypeOf isEqualType
                        (Raw.plainSchema schema) t st i
                  | None => st
                  end) TypeError).
    + rewrite existsb_map_Some. cbn [Raw.bind].
      rewrite forEach_definedInterfaces, definedInterfaces_map_Some.
      reflexivity.
    + now intros st [i|].
    + now intros st [i|].
  - reflexivity.
  - unfold Raw.entryRaises.
    cbn [Raw.isAType Raw.toString Raw.nodeOf Raw.plainValue Raw.unrenderable
           orb isType negb Raw.bind Raw.objectInterfaces].
    cbn [Raw.withInterfaces constructor getInterfaces].
    destruct (TypeClass_eqb (constructor t) GraphQLObjectType);
      [| reflexivity].
    rewrite (forEachOrThrow_exact (fun iface => negb (Boolean iface)) _ _
               (fun st iface =>
                  match iface with
                  | Some i =>
                      checkImplementedInterface isTypeSubTypeOf isEqualType
                        (Raw.plainSchema schema)
                        (Raw.withInterfaces t
                           (Raw.definedInterfaces interfaces)) st i
                  | None => st
                  end) TypeError).
    + destruct (existsb _ interfaces); [reflexivity |].
      cbn [Raw.bind]. now rewrite forEach_definedInterfaces.
    + now intros st [i|].
    + now intros st [i|].
Qed.

Lemma Raw_validateTypes schema context :
  Raw.validateTypes isTypeSubTypeOf isEqualType context schema
  = if existsb (Raw.keyRaises (Raw.rawTypeMap schema))
         (Object_keys (Raw.rawTypeMap schema))
    then Throw TypeError
    else
      Return
        (validateTypes isTypeSubTypeOf isEqualType context
           (Raw.plainSchema schema)).
Proof.
  unfold Raw.validateTypes, validateTypes. cbv zeta.
  cbn [Raw.plainSchema getTypeMap]. rewrite keys_map.
  apply forEachOrThrow_exact; intros c key H; rewrite Raw_validateType, H;
    reflexivity.
Qed.

(** [validateSchema] on a schema not validated before: it throws the
    TypeError and stores nothing when the schema holds one of the values
    the pass throws on, and otherwise returns and stores the diagnostics of
    the three checkers. *)
Lemma Raw_validateSchema_first schema :
  Raw.rawValidationErrors schema = None ->
  Raw.validateSchema isTypeSubTypeOf isEqualType (Raw.ASchema schema)
  = if Raw.raises schema then (Throw TypeError, Raw.ASchema schema)
    else
      let errors :=
        rootTypeDiagnostics (Raw.plainSchema schema)
        ++ directiveDiagnostics (Raw.plainSchema schema)
        ++ typeDiagnostics isTypeSubTypeOf isEqualType
             (Raw.plainSchema schema) in
      (Return errors, Raw.ASchema (Raw.storeErrors schema errors)).
Proof.
  intros Hnone. unfold Raw.validateSchema, Raw.raises. rewrite Hnone.
  cbv zeta. rewrite Raw_validateRootTypes.
  destruct (Raw.unrenderable (Raw.rawQueryType schema)
            || Raw.unrenderable (Raw.rawMutationType schema)
            || Raw.unrenderable (Raw.rawSubscriptionType schema));
    [reflexivity |].
  cbn [Raw.bind orb]. rewrite Raw_validateDirectives.
  destruct (existsb Raw.directiveRaises (Raw.rawDirectives schema));
    [reflexivity |].
  cbn [Raw.bind orb]. rewrite Raw_validateTypes.
  destruct (existsb _ (Object_keys (Raw.rawTypeMap schema)));
    [reflexivity |].
  now rewrite (getErrors_pass isTypeSubTypeOf isEqualType).
Qed.

(** On the arguments none of whose values is out of the ordinary,
    [validateSchema] with exceptions is [validateSchema] without. *)
Lemma Raw_validateSchema arg :
  Raw.validateSchema isTypeSubTypeOf isEqualType (Raw.ofArg arg)
  = (fst (validateSchema isTypeSubTypeOf isEqualType arg),
     Raw.ofArg (snd (validateSchema isTypeSubTypeOf isEqualType arg))).
Proof.
  destruct arg as [|[ctor|] str|schema]; try reflexivity.
  - cbn. now destruct (String.eqb ctor "GraphQLSchema").
  - cbn [Raw.ofArg].
    destruct (__validationErrors schema) as [errors|] eqn:Hstored.
    + rewrite (validateSchema_stored isTypeSubTypeOf isEqualType schema
                 errors Hstored).
      unfold Raw.validateSchema.
      change (Raw.rawValidationErrors (Raw.ofSchema schema))
        with (__validationErrors schema).
      now rewrite Hstored.
    + rewrite (validateSchema_first isTypeSubTypeOf isEqualType schema
                 Hstored).
      rewrite Raw_validateSchema_first by exact Hstored.
      rewrite raises_ofSchema, plainSchema_ofSchema. reflexivity.
Qed.


End RawPass.


(** ** The comparators as the spec describes them *)

Lemma TypeClass_eqb_refl c : TypeClass_eqb c c = true.
Proof. now destruct c. Qed.

Lemma GraphQLType_eqb_refl t : TypeComparators.GraphQLType_eqb t t = true.
Proof.
  induction t as [c n | t IH | t IH]; cbn; [| exact IH | exact IH].
  now rewrite TypeClass_eqb_refl, String.eqb_refl.
Qed.

Lemma GraphQLType_eqb_eq a b :
  TypeComparators.GraphQLType_eqb a b = true -> a = b.
Proof.
  revert b. induction a as [c n | a IH | a IH]; intros [c' n' | b | b] H;
    cbn in H; try discriminate H.
  - apply andb_prop in H as [Hc Hn]. apply String.eqb_eq in Hn. subst n'.
    now destruct c, c'.
  - f_equal. now apply IH.
  - f_equal. now apply IH.
Qed.

(** Equal types are subtypes of each other, and some subtypes are not
    equal: the comparison of argument types is the stricter one. *)
Lemma isEqualType_stricter_than_isTypeSubTypeOf schema :
  (forall a b,
     TypeComparators.isEqualType a b = true ->
     TypeComparators.isTypeSubTypeOf schema b a = true)
  /\ TypeComparators.isTypeSubTypeOf schema
       (GraphQLNonNull Sample.StringType) Sample.StringType = true
  /\ TypeComparators.isEqualType Sample.StringType
       (GraphQLNonNull Sample.StringType) = false.
Proof.
  split; [| split; reflexivity].
  intros a b H. apply GraphQLType_eqb_eq in H. subst b.
  destruct a; cbn; now rewrite ?TypeClass_eqb_refl, ?String.eqb_refl,
    ?GraphQLType_eqb_refl.
Qed.

(** ** The properties on the sample schemas *)

Import TypeComparators.

(** [Bare] is an object type of the type map that lists [Plain] twice and
    has none of its fields. At the second reference the name is recorded
    already, and yet the conformance check runs again: the walker reports
    the missing field, the "only once" diagnostic and the missing field once
    more, not the first two alone, and so does [validateSchema] after the
    diagnostic of the query root type. *)
Lemma C1_duplicate_reference_is_checked_again :
  prop (getTypeMap Sample.bareSchema) "Bare" = Some (TypeValue Sample.Bare)
  /\ constructor Sample.Bare = GraphQLObjectType
  /\ getInterfaces Sample.Bare = [Sample.Plain; Sample.Plain]
  /\ getErrors
       (validateTypes isTypeSubTypeOf isEqualType new_SchemaValidationContext
          Sample.bareSchema)
     = [Expected.missingField Sample.Bare Sample.Plain "id";
        Expected.onlyOnce Sample.Bare Sample.Plain;
        Expected.missingField Sample.Bare Sample.Plain "id"]
  /\ getErrors
       (validateTypes isTypeSubTypeOf isEqualType new_SchemaValidationContext
          Sample.bareSchema)
     <> [Expected.missingField Sample.Bare Sample.Plain "id";
         Expected.onlyOnce Sample.Bare Sample.Plain]
  /\ fst (validateSchema isTypeSubTypeOf isEqualType
            (Schema Sample.bareSchema))
     = Return
         [Expected.queryTypeMissing Sample.bareSchema;
          Expected.missingField Sample.Bare Sample.Plain "id";
          Expected.onlyOnce Sample.Bare Sample.Plain;
          Expected.missingField Sample.Bare Sample.Plain "id"].
Proof.
  repeat split; try reflexivity.
  vm_compute. intros H. discriminate H.
Qed.

(** The same schema in the terms of the amended statement: the second
    reference of [Bare] to [Plain] comes after one reference of that
    name. *)
Lemma C1_every_reference_is_checked_witness :
  getErrors
    (validateType isTypeSubTypeOf isEqualType Sample.bareSchema
       new_SchemaValidationContext "Bare")
  = getErrors new_SchemaValidationContext
    ++ referenceDiagnostics Sample.Bare
         (fun iface =>
            getErrors
              (validateObjectImplementsInterface isTypeSubTypeOf isEqualType
                 new_SchemaValidationContext Sample.bareSchema Sample.Bare
                 iface))
         [] [Sample.Plain]
    ++ ((if existsb (String.eqb (name Sample.Plain))
              (map name [Sample.Plain])
         then [Expected.onlyOnce Sample.Bare Sample.Plain] else [])
        ++ getErrors
             (validateObjectImplementsInterface isTypeSubTypeOf isEqualType
                new_SchemaValidationContext Sample.bareSchema Sample.Bare
                Sample.Plain))
    ++ referenceDiagnostics Sample.Bare
         (fun iface =>
            getErrors
              (validateObjectImplementsInterface isTypeSubTypeOf isEqualType
                 new_SchemaValidationContext Sample.bareSchema Sample.Bare
                 iface))
         (map name [Sample.Plain] ++ [name Sample.Plain]) [].
Proof.
  apply (C1_every_reference_is_checked isTypeSubTypeOf isEqualType
           Sample.bareSchema "Bare" Sample.Bare [Sample.Plain] Sample.Plain []);
    reflexivity.
Defined.

(** [User.id] has type [String!], a subtype of the [String] of [Node.id]:
    no diagnostic for the field type. Its argument [format] has type
    [String!] where [Node.id] has [String]: not equal, although a subtype,
    and reported. *)
Lemma C3_argument_types_are_invariant_witness :
  isTypeSubTypeOf Sample.schema (GraphQLNonNull Sample.StringType)
    Sample.StringType = true
  /\ isEqualType Sample.StringType (GraphQLNonNull Sample.StringType) = false
  /\ In (Expected.argTypeMismatch Sample.User Sample.Node "id"
           (Sample.arg "format" Sample.StringType)
           (Sample.arg "format" (GraphQLNonNull Sample.StringType)))
       (getErrors
          (validateObjectImplementsInterface isTypeSubTypeOf isEqualType
             new_SchemaValidationContext Sample.schema Sample.User
             Sample.Node))
  /\ getErrors
       (checkIfaceField isTypeSubTypeOf isEqualType Sample.schema Sample.User
          Sample.Node new_SchemaValidationContext "id")
     = [Expected.argTypeMismatch Sample.User Sample.Node "id"
          (Sample.arg "format" Sample.StringType)
          (Sample.arg "format" (GraphQLNonNull Sample.StringType));
        Expected.requiredExtraArg Sample.User Sample.Node "id"
          (Sample.arg "extra" (GraphQLNonNull Sample.StringType))].
Proof.
  destruct (C3_argument_types_are_invariant isTypeSubTypeOf isEqualType
              Sample.schema Sample.User Sample.Node
              new_SchemaValidationContext
              "id" Sample.Node_id Sample.User_id eq_refl eq_refl)
    as (Hargument & _ & _ & Hsubtype & _).
  destruct (Hargument
              (Sample.arg "format" Sample.StringType)
              (Sample.arg "format" (GraphQLNonNull Sample.StringType))
              (or_introl eq_refl) eq_refl eq_refl)
    as (_ & _ & _ & Hconformance).
  split; [reflexivity | split; [reflexivity | split]].
  - apply Hconformance. reflexivity.
  - rewrite Hsubtype by reflexivity. reflexivity.
Defined.

(** [User] lists [Node] three times, twice on its definition node and once
    on its extension node: two "only once" diagnostics, each citing the
    three references. *)
Lemma C4_only_once_diagnostics_witness :
  countName "Node" (getInterfaces Sample.User) = 3
  /\ countMessage "User must declare it implements Node only once."
       (getErrors
          (validateType isTypeSubTypeOf isEqualType Sample.schema
             new_SchemaValidationContext "User")) = 2
  /\ nodes (Expected.onlyOnce Sample.User Sample.Node)
     = [Some (N_Type (NamedType (Sample.namedAt "Node" 1)));
        Some (N_Type (NamedType (Sample.namedAt "Node" 2)));
        Some (N_Type (NamedType (Sample.namedAt "Node" 3)))].
Proof.
  destruct (C4_only_once_diagnostics isTypeSubTypeOf isEqualType
              Sample.schema "User" Sample.User "Node" eq_refl eq_refl)
    as (Hcount & Hnodes & _).
  - vm_compute. lia.
  - split; [reflexivity | split; [exact Hcount |]].
    destruct (Hnodes (Expected.onlyOnce Sample.User Sample.Node))
      as [_ Hlist].
    + vm_compute. right. right. right. left. reflexivity.
    + reflexivity.
    + rewrite Hlist. reflexivity.
Defined.

(** The arguments of [User.id] that [Node.id] does not have: [extra] of
    type [String!] is reported, [opt] of type [String] is not; of the check
    of the field, the diagnostic for [extra] is the last part. *)
Lemma C5_extra_argument_must_be_nullable_witness :
  getErrors
    (checkObjectArg Sample.User Sample.Node "id" Sample.Node_id
       new_SchemaValidationContext
       (Sample.arg "extra" (GraphQLNonNull Sample.StringType)))
  = [Expected.requiredExtraArg Sample.User Sample.Node "id"
       (Sample.arg "extra" (GraphQLNonNull Sample.StringType))]
  /\ getErrors
       (checkObjectArg Sample.User Sample.Node "id" Sample.Node_id
          new_SchemaValidationContext (Sample.arg "opt" Sample.StringType))
     = []
  /\ getErrors
       (checkIfaceField isTypeSubTypeOf isEqualType Sample.schema Sample.User
          Sample.Node new_SchemaValidationContext "id")
     = [Expected.argTypeMismatch Sample.User Sample.Node "id"
          (Sample.arg "format" Sample.StringType)
          (Sample.arg "format" (GraphQLNonNull Sample.StringType));
        Expected.requiredExtraArg Sample.User Sample.Node "id"
          (Sample.arg "extra" (GraphQLNonNull Sample.StringType))]
  /\ In (Expected.requiredExtraArg Sample.User Sample.Node "id"
           (Sample.arg "extra" (GraphQLNonNull Sample.StringType)))
       (getErrors
          (validateObjectImplementsInterface isTypeSubTypeOf isEqualType
             new_SchemaValidationContext Sample.schema Sample.User
             Sample.Node)).
Proof.
  destruct (C5_extra_argument_must_be_nullable isTypeSubTypeOf isEqualType
              Sample.User Sample.Node "id" Sample.Node_id Sample.User_id
              new_SchemaValidationContext
              (Sample.arg "extra" (GraphQLNonNull Sample.StringType))
              eq_refl)
    as (Hextra & _ & _ & Hfield).
  destruct (C5_extra_argument_must_be_nullable isTypeSubTypeOf isEqualType
              Sample.User Sample.Node "id" Sample.Node_id Sample.User_id
              new_SchemaValidationContext
              (Sample.arg "opt" Sample.StringType) eq_refl)
    as (Hopt & _).
  destruct (Hfield eq_refl eq_refl Sample.schema) as (Hexact & Hmember).
  split; [exact Hextra | split; [exact Hopt | split]].
  - rewrite Hexact. reflexivity.
  - apply Hmember; [right; left; reflexivity | reflexivity | reflexivity].
Defined.

Lemma C6_missing_field_witness :
  prop (getFields Sample.Node) "name" = Some Sample.Node_name
  /\ prop (getFields Sample.User) "name" = None
  /\ getErrors
       (checkIfaceField isTypeSubTypeOf isEqualType Sample.schema Sample.User
          Sample.Node new_SchemaValidationContext "name")
     = [Expected.missingField Sample.User Sample.Node "name"].
Proof.
  split; [reflexivity | split; [reflexivity |]].
  apply (C6_missing_field isTypeSubTypeOf isEqualType Sample.schema
           Sample.User Sample.Node new_SchemaValidationContext "name"
           Sample.Node_name []);
    reflexivity.
Defined.

Lemma C7_root_type_checks_witness :
  (exists rest,
     fst (validateSchema isTypeSubTypeOf isEqualType (Schema Sample.schema))
     = Return
         (mkGraphQLError "Query root type must be provided." [] :: rest))
  /\ Expected.queryTypeErrors Sample.schema
     = [mkGraphQLError "Query root type must be provided." []].
Proof.
  split.
  - destruct (proj1 (C7_root_type_checks isTypeSubTypeOf isEqualType
                       Sample.schema) eq_refl) as [rest H].
    exists rest. exact H.
  - exact (proj1 (proj1 (proj2 (C7_root_type_checks isTypeSubTypeOf
                                  isEqualType Sample.schema)) eq_refl)).
Defined.



Lemma C9_assertValidSchema_witness :
  fst (assertValidSchema isTypeSubTypeOf isEqualType
         (Schema Sample.bareSchema))
  = Throw
      (Error
         ("Query root type must be provided." +:+ LF +:+ LF
            +:+ dq +:+ "Plain" +:+ dq +:+ " expects field " +:+ dq +:+ "id"
            +:+ dq +:+ " but " +:+ dq +:+ "Bare" +:+ dq
            +:+ " does not provide it." +:+ LF +:+ LF
            +:+ "Bare must declare it implements Plain only once."
            +:+ LF +:+ LF
            +:+ dq +:+ "Plain" +:+ dq +:+ " expects field " +:+ dq +:+ "id"
            +:+ dq +:+ " but " +:+ dq +:+ "Bare" +:+ dq
            +:+ " does not provide it."))
  /\ fst (assertValidSchema isTypeSubTypeOf isEqualType
            (Schema Sample.validSchema)) = Return tt.
Proof.
  split.
  - exact (f_equal fst
             (proj1 (C9_assertValidSchema isTypeSubTypeOf isEqualType
                       (Schema Sample.bareSchema) _ _ eq_refl))).
  - exact (f_equal fst
             (proj1 (C9_assertValidSchema isTypeSubTypeOf isEqualType
                       (Schema Sample.validSchema) _ _ eq_refl))).
Defined.

Lemma C2_validate_is_memoized_witness :
  validateSchema isTypeSubTypeOf isEqualType
    (Schema (set_validationErrors Sample.schema []))
  = (Return [], Schema (set_validationErrors Sample.schema []))
  /\ (forall n,
        fst (validateSchema isTypeSubTypeOf isEqualType
               (Nat.iter n
                  (fun a => snd (validateSchema isTypeSubTypeOf isEqualType a))
                  (snd (validateSchema isTypeSubTypeOf isEqualType
                          (Schema Sample.validSchema)))))
        = fst (validateSchema isTypeSubTypeOf isEqualType
                 (Schema Sample.validSchema))).
Proof.
  split.
  - apply (proj1 (C2_validate_is_memoized isTypeSubTypeOf isEqualType
                    (set_validationErrors Sample.schema [])) [] eq_refl).
  - intros n.
    apply (proj2 (proj2 (proj2 (proj2 (C2_validate_is_memoized
                                          isTypeSubTypeOf isEqualType
                                          Sample.validSchema) eq_refl))) n).
Defined.

Lemma C10_nodes_are_present_witness :
  Forall (fun e => nodes e = [])
    (rootTypeDiagnostics Sample.bareSchema
       ++ directiveDiagnostics Sample.bareSchema
       ++ typeDiagnostics isTypeSubTypeOf isEqualType Sample.bareSchema)
  /\ Forall noAbsentNode
       (rootTypeDiagnostics Sample.schema
          ++ directiveDiagnostics Sample.schema
          ++ typeDiagnostics isTypeSubTypeOf isEqualType Sample.schema).
Proof.
  split.
  - apply (proj2 (proj2 (C10_nodes_are_present isTypeSubTypeOf isEqualType))
             Sample.bareSchema _ _ eq_refl eq_refl).
    unfold noSyntax, noSyntaxValue, noSyntaxType. cbn.
    repeat first [split | constructor | reflexivity].
  - apply (proj2 (proj2 (C10_nodes_are_present isTypeSubTypeOf isEqualType))
             Sample.schema _ _ eq_refl eq_refl).
Defined.

(** * Further properties of the validator *)

Lemma TypeClass_eqb_eq a b : TypeClass_eqb a b = true <-> a = b.
Proof. destruct a, b; cbn; split; intros H; congruence. Qed.

Lemma flat_map_nil_iff {A B} (f : A -> list B) l :
  flat_map f l = [] <-> forall a, In a l -> f a = [].
Proof.
  induction l as [|x l IH]; cbn.
  - split; [intros _ a [] | reflexivity].
  - split.
    + intros H. apply app_eq_nil in H as [Hx Hl].
      intros a [<- | Ha]; [exact Hx | now apply IH].
    + intros H. rewrite (H x) by now left. cbn. apply IH.
      intros a Ha. apply H. now right.
Qed.

(** A loop reports nothing exactly when none of its steps does. *)
Lemma forEach_silent {A}
    (f : SchemaValidationContext -> A -> SchemaValidationContext) l :
  (forall a, framed (fun c => f c a)) ->
  getErrors (forEach l f new_SchemaValidationContext) = []
  <-> forall a, In a l -> getErrors (f new_SchemaValidationContext a) = [].
Proof.
  intros Hf. rewrite (getErrors_forEach f l _ Hf). cbn [getErrors _errors
    new_SchemaValidationContext app].
  apply flat_map_nil_iff.
Qed.

Lemma instanceOf_truthy v c : instanceOf v c = true -> truthy v = true.
Proof. now destruct v. Qed.

Lemma rootTypeDiagnostics_by_slot schema :
  rootTypeDiagnostics schema
  = Expected.queryTypeErrors schema ++ Expected.mutationTypeErrors schema
    ++ Expected.subscriptionTypeErrors schema.
Proof.
  unfold rootTypeDiagnostics, validateRootTypes, Expected.queryTypeErrors,
    Expected.mutationTypeErrors, Expected.subscriptionTypeErrors,
    Expected.optionalRootErrors.
  cbv zeta.
  destruct (negb (truthy (getQueryType schema)));
    [| destruct (negb (instanceOf (getQueryType schema) GraphQLObjectType))];
    (destruct (truthy (getMutationType schema)
               && negb (instanceOf (getMutationType schema) GraphQLObjectType));
     destruct (truthy (getSubscriptionType schema)
               && negb (instanceOf (getSubscriptionType schema)
                          GraphQLObjectType)));
    reflexivity.
Qed.

Lemma rootTypeDiagnostics_silent schema :
  rootTypeDiagnostics schema = []
  <-> instanceOf (getQueryType schema) GraphQLObjectType = true
      /\ (truthy (getMutationType schema) = false
          \/ instanceOf (getMutationType schema) GraphQLObjectType = true)
      /\ (truthy (getSubscriptionType schema) = false
          \/ instanceOf (getSubscriptionType schema) GraphQLObjectType = true).
Proof.
  rewrite rootTypeDiagnostics_by_slot.
  unfold Expected.queryTypeErrors, Expected.mutationTypeErrors,
    Expected.subscriptionTypeErrors, Expected.optionalRootErrors.
  pose proof (instanceOf_truthy (getQueryType schema) GraphQLObjectType) as Hq.
  destruct (truthy (getQueryType schema));
    destruct (instanceOf (getQueryType schema) GraphQLObjectType);
    destruct (truthy (getMutationType schema));
    destruct (instanceOf (getMutationType schema) GraphQLObjectType);
    destruct (truthy (getSubscriptionType schema));
    destruct (instanceOf (getSubscriptionType schema) GraphQLObjectType);
    cbn; split; try discriminate; try tauto;
    try (intros (? & [? | ?] & [? | ?]); discriminate);
    try (intros _; specialize (Hq eq_refl); discriminate Hq).
Qed.

(** X8. The root type checker reports at most three diagnostics, and none
    exactly when the query slot holds an object type and each of the
    mutation and subscription slots is absent or holds an object type. *)
Theorem X8_root_types_silent schema :
  List.length (rootTypeDiagnostics schema) <= 3
  /\ (rootTypeDiagnostics schema = []
      <-> instanceOf (getQueryType schema) GraphQLObjectType = true
          /\ (truthy (getMutationType schema) = false
              \/ instanceOf (getMutationType schema) GraphQLObjectType = true)
          /\ (truthy (getSubscriptionType schema) = false
              \/ instanceOf (getSubscriptionType schema) GraphQLObjectType
                 = true)).
Proof.
  split; [| apply rootTypeDiagnostics_silent].
  rewrite rootTypeDiagnostics_by_slot.
  unfold Expected.queryTypeErrors, Expected.mutationTypeErrors,
    Expected.subscriptionTypeErrors, Expected.optionalRootErrors.
  destruct (negb (truthy (getQueryType schema)));
    [| destruct (negb (instanceOf (getQueryType schema) GraphQLObjectType))];
    (destruct (truthy (getMutationType schema)
               && negb (instanceOf (getMutationType schema) GraphQLObjectType));
     destruct (truthy (getSubscriptionType schema)
               && negb (instanceOf (getSubscriptionType schema)
                          GraphQLObjectType)));
    cbn; lia.
Qed.

Section MoreProperties.

Variable isTypeSubTypeOf : GraphQLSchema -> GraphQLType -> GraphQLType -> bool.
Variable isEqualType : GraphQLType -> GraphQLType -> bool.

Local Abbreviation checkIfaceArg := (checkIfaceArg isEqualType).
Local Abbreviation checkIfaceField :=
  (checkIfaceField isTypeSubTypeOf isEqualType).
Local Abbreviation validateObjectImplementsInterface :=
  (validateObjectImplementsInterface isTypeSubTypeOf isEqualType).
Local Abbreviation checkImplementedInterface :=
  (checkImplementedInterface isTypeSubTypeOf isEqualType).
Local Abbreviation validateType := (validateType isTypeSubTypeOf isEqualType).
Local Abbreviation validateTypes := (validateTypes isTypeSubTypeOf isEqualType).
Local Abbreviation validateSchema := (validateSchema isTypeSubTypeOf isEqualType).
Local Abbreviation assertValidSchema :=
  (assertValidSchema isTypeSubTypeOf isEqualType).
Local Abbreviation typeDiagnostics :=
  (typeDiagnostics isTypeSubTypeOf isEqualType).
Local Abbreviation Conforms := (Conforms isTypeSubTypeOf isEqualType).

(** *** Conformance of one object type with one interface *)

Lemma notInterface_errors schema object iface context :
  constructor iface <> GraphQLInterfaceType ->
  getErrors (validateObjectImplementsInterface context schema object iface)
  = getErrors context ++ [Expected.notInterface object iface].
Proof.
  intros Hc. unfold validateObjectImplementsInterface.
  destruct (TypeClass_eqb (constructor iface) GraphQLInterfaceType) eqn:E.
  - apply TypeClass_eqb_eq in E. contradiction.
  - reflexivity.
Qed.

Lemma checkIfaceArg_silent object iface fieldName objectField ifaceArg :
  getErrors
    (checkIfaceArg object iface fieldName objectField
       new_SchemaValidationContext ifaceArg) = []
  <-> exists objectArg,
        findArg (field_args objectField) (arg_name ifaceArg) = Some objectArg
        /\ isEqualType (arg_type ifaceArg) (arg_type objectArg) = true.
Proof.
  rewrite checkIfaceArg_errors. cbn [getErrors _errors
    new_SchemaValidationContext app].
  destruct (findArg _ _) as [objectArg|].
  - destruct (isEqualType _ _) eqn:E.
    + split; [intros _; eauto | reflexivity].
    + split; [discriminate |]. intros (x & [= <-] & H). congruence.
  - split; [discriminate | intros (x & H & _); discriminate H].
Qed.

Lemma checkObjectArg_silent object iface fieldName ifaceField objectArg :
  getErrors
    (checkObjectArg object iface fieldName ifaceField
       new_SchemaValidationContext objectArg) = []
  <-> (findArg (field_args ifaceField) (arg_name objectArg) = None ->
       isNonNull (arg_type objectArg) = false).
Proof.
  rewrite checkObjectArg_errors. cbn [getErrors _errors
    new_SchemaValidationContext app].
  destruct (findArg _ _) as [ifaceArg|]; cbn [Boolean negb andb].
  - split; [discriminate | reflexivity].
  - destruct (isNonNull _).
    + split; [discriminate | intros H; now specialize (H eq_refl)].
    + split; [reflexivity | reflexivity].
Qed.

Lemma checkIfaceField_silent schema object iface fieldName ifaceField :
  prop (getFields iface) fieldName = Some ifaceField ->
  getErrors
    (checkIfaceField schema object iface new_SchemaValidationContext fieldName)
  = []
  <-> exists objectField,
        prop (getFields object) fieldName = Some objectField
        /\ isTypeSubTypeOf schema (field_type objectField)
             (field_type ifaceField) = true
        /\ (forall ifaceArg,
              In ifaceArg (field_args ifaceField) ->
              exists objectArg,
                findArg (field_args objectField) (arg_name ifaceArg)
                = Some objectArg
                /\ isEqualType (arg_type ifaceArg) (arg_type objectArg) = true)
        /\ (forall objectArg,
              In objectArg (field_args objectField) ->
              findArg (field_args ifaceField) (arg_name objectArg) = None ->
              isNonNull (arg_type objectArg) = false).
Proof.
  intros Hi.
  destruct (prop (getFields object) fieldName) as [objectField|] eqn:Ho.
  - rewrite (checkIfaceField_errors isTypeSubTypeOf isEqualType schema object
               iface _ fieldName ifaceField objectField Hi Ho).
    cbn [getErrors _errors new_SchemaValidationContext app].
    split.
    + intros H. apply app_eq_nil in H as [Ht H].
      apply app_eq_nil in H as [Ha He].
      exists objectField. split; [reflexivity |]. split; [| split].
      * now destruct (isTypeSubTypeOf _ _ _).
      * intros ifaceArg Hin.
        apply (proj1 (checkIfaceArg_silent object iface fieldName
                        objectField ifaceArg)).
        now apply (proj1 (flat_map_nil_iff _ _) Ha).
      * intros objectArg Hin.
        apply (proj1 (checkObjectArg_silent object iface fieldName
                        ifaceField objectArg)).
        now apply (proj1 (flat_map_nil_iff _ _) He).
    + intros (objectField' & [= <-] & Ht & Ha & He). rewrite Ht. cbn [app].
      assert (Hnil : forall (l1 l2 : list GraphQLError),
                 l1 = [] -> l2 = [] -> l1 ++ l2 = []) by (now intros ? ? -> ->).
      apply Hnil; apply flat_map_nil_iff.
      * intros ifaceArg Hin.
        apply (proj2 (checkIfaceArg_silent object iface fieldName
                        objectField ifaceArg)). auto.
      * intros objectArg Hin.
        apply (proj2 (checkObjectArg_silent object iface fieldName
                        ifaceField objectArg)). auto.
  - rewrite (checkIfaceField_missing isTypeSubTypeOf isEqualType schema object
               iface _ fieldName ifaceField Hi Ho).
    split; [discriminate | intros (x & H & _); discriminate H].
Qed.

Lemma conformance_silent schema object iface :
  getErrors
    (validateObjectImplementsInterface new_SchemaValidationContext schema
       object iface) = []
  <-> Conforms schema object iface.
Proof.
  unfold Conforms, validateObjectImplementsInterface.
  destruct (TypeClass_eqb (constructor iface) GraphQLInterfaceType) eqn:E;
    cbn [negb].
  - apply TypeClass_eqb_eq in E.
    rewrite (forEach_silent (checkIfaceField schema object iface))
      by (intros a; apply framed_checkIfaceField).
    split.
    + intros H. split; [exact E |]. intros fieldName ifaceField Hi.
      apply (proj1 (checkIfaceField_silent schema object iface fieldName
                      ifaceField Hi)).
      apply H. now apply prop_Some_keys in Hi.
    + intros [_ H] fieldName Hk.
      destruct (prop_keys _ _ Hk) as [ifaceField Hi].
      apply (proj2 (checkIfaceField_silent schema object iface fieldName
                      ifaceField Hi)).
      now apply H.
  - split; [discriminate |]. intros [H _]. apply TypeClass_eqb_eq in H.
    congruence.
Qed.

(** *** The interfaces of one object type, and the type map *)

Lemma interfaces_silent schema type ifaces implemented :
  getErrors
    (snd (forEach ifaces (checkImplementedInterface schema type)
            (implemented, new_SchemaValidationContext))) = []
  <-> (forall iface, In iface ifaces -> name iface ∉ implemented)
      /\ NoDup (map name ifaces)
      /\ forall iface,
           In iface ifaces ->
           getErrors
             (validateObjectImplementsInterface new_SchemaValidationContext
                schema type iface) = [].
Proof.
  revert implemented. induction ifaces as [|iface l IH]; intros implemented.
  - cbn. split; [| reflexivity].
    intros _. split; [intros ? [] | split; [constructor | intros ? []]].
  - rewrite forEach_cons.
    pose proof (checkImplementedInterface_step isTypeSubTypeOf isEqualType
                  schema type implemented new_SchemaValidationContext iface)
      as [H1 H2].
    destruct (checkImplementedInterface schema type
                (implemented, new_SchemaValidationContext) iface) as [i1 c1].
    cbn [fst snd] in H1, H2. subst i1.
    rewrite (framed_interfaces isTypeSubTypeOf isEqualType schema type l _ c1),
      H2.
    cbn [getErrors _errors new_SchemaValidationContext app].
    cbn [map]. rewrite NoDup_cons.
    split.
    + intros H. apply app_eq_nil in H as [H Hrest].
      apply app_eq_nil in H as [Hdup Hconf].
      apply IH in Hrest as (Hfresh & Hnodup & Hall).
      assert (Hnew : name iface ∉ implemented).
      { destruct (bool_decide (name iface ∈ implemented)) eqn:E;
          [discriminate Hdup |].
        now apply bool_decide_eq_false in E. }
      split; [| split; [split |]].
      * intros x [<- | Hx]; [exact Hnew |].
        specialize (Hfresh x Hx). set_solver.
      * rewrite list_elem_of_In. intros Hin.
        apply in_map_iff in Hin as (x & Hn & Hx).
        specialize (Hfresh x Hx). rewrite Hn in Hfresh. set_solver.
      * exact Hnodup.
      * intros x [<- | Hx]; [exact Hconf | now apply Hall].
    + intros (Hfresh & [Hnotin Hnodup] & Hall).
      rewrite (bool_decide_eq_false_2 (name iface ∈ implemented))
        by (apply Hfresh; now left).
      rewrite (Hall iface) by now left. cbn [app].
      apply IH. split; [| split].
      * intros x Hx. assert (Hx' := Hfresh x (or_intror Hx)).
        assert (name x <> name iface).
        { intros Heq. apply Hnotin. rewrite list_elem_of_In.
          apply in_map_iff. eauto. }
        set_solver.
      * exact Hnodup.
      * intros x Hx. apply Hall. now right.
Qed.

Lemma validateType_errors schema typeName v :
  prop (getTypeMap schema) typeName = Some v ->
  getErrors (validateType schema new_SchemaValidationContext typeName)
  = (if isType v then [] else [Expected.notType v])
    ++ match v with
       | TypeValue t =>
           if TypeClass_eqb (constructor t) GraphQLObjectType then
             getErrors
               (snd (forEach (getInterfaces t)
                       (checkImplementedInterface schema t)
                       (∅, new_SchemaValidationContext)))
           else []
       | _ => []
       end.
Proof.
  intros Hp. unfold validateType. cbv zeta. rewrite Hp.
  destruct v as [str|t|ofType|ofType|str node]; cbn [isType negb];
    try reflexivity.
  now destruct (TypeClass_eqb (constructor t) GraphQLObjectType).
Qed.

Lemma validateDirectives_errors schema :
  directiveDiagnostics schema
  = flat_map (fun d => match d with
                       | NotDirective v => [Expected.notDirective v]
                       | GraphQLDirective _ _ => []
                       end) (getDirectives schema).
Proof.
  unfold directiveDiagnostics, validateDirectives. cbv zeta.
  rewrite (getErrors_forEach validateDirective)
    by (intros a; apply framed_validateDirective).
  cbn [getErrors _errors new_SchemaValidationContext app].
  induction (getDirectives schema) as [|d l IH]; [reflexivity |].
  cbn [flat_map]. rewrite IH. now destruct d.
Qed.

Lemma validateType_silent schema typeName v :
  prop (getTypeMap schema) typeName = Some v ->
  getErrors (validateType schema new_SchemaValidationContext typeName) = []
  <-> isType v = true
      /\ forall type,
           v = TypeValue type ->
           constructor type = GraphQLObjectType ->
           NoDup (map name (getInterfaces type))
           /\ forall iface,
                In iface (getInterfaces type) -> Conforms schema type iface.
Proof.
  intros Hp. rewrite (validateType_errors schema typeName v Hp).
  destruct v as [str|t|ofType|ofType|str node]; cbn [isType app].
  - split; [discriminate | intros [H _]; discriminate H].
  - destruct (TypeClass_eqb (constructor t) GraphQLObjectType) eqn:E.
    + apply TypeClass_eqb_eq in E. rewrite interfaces_silent. split.
      * intros (_ & Hn & Hall). split; [reflexivity |].
        intros type [= <-] _. split; [exact Hn |].
        intros iface Hin. apply conformance_silent. now apply Hall.
      * intros [_ H]. destruct (H t eq_refl E) as [Hn Hall].
        split; [intros; set_solver | split; [exact Hn |]].
        intros iface Hin. apply conformance_silent. now apply Hall.
    + split; [| reflexivity]. intros _. split; [reflexivity |].
      intros type [= <-] Hc. apply TypeClass_eqb_eq in Hc. congruence.
  - split; [| reflexivity]. intros _. split; [reflexivity | discriminate].
  - split; [| reflexivity]. intros _. split; [reflexivity | discriminate].
  - split; [discriminate | intros [H _]; discriminate H].
Qed.

(** *** Properties *)

(** X1. When the claimed interface is not an interface type, the conformance
    check reports exactly one diagnostic, the "must only implement Interface
    types" one, and looks at no field: the outcome depends on neither field
    map and on no comparator. *)
Theorem X1_not_an_interface schema object iface context :
  constructor iface <> GraphQLInterfaceType ->
  getErrors (validateObjectImplementsInterface context schema object iface)
  = getErrors context ++ [Expected.notInterface object iface].
Proof. apply notInterface_errors. Qed.

(** X2. The conformance check adds nothing to the sink exactly when the
    object type conforms: the interface is an interface type, each of its
    fields is there with a subtype, each interface argument is there with an
    equal type, and no further argument is of NonNull type. *)
Theorem X2_silent_iff_conforms schema object iface context :
  getErrors (validateObjectImplementsInterface context schema object iface)
  = getErrors context
  <-> Conforms schema object iface.
Proof.
  rewrite (framed_validateObjectImplementsInterface isTypeSubTypeOf
             isEqualType schema object iface context).
  rewrite <- conformance_silent.
  split.
  - intros H. apply (app_inv_head (getErrors context)).
    now rewrite app_nil_r.
  - intros ->. apply app_nil_r.
Qed.

(** X3. An argument of an interface field that the object field does not
    declare yields exactly one diagnostic, the missing-argument one, and its
    type is compared with nothing; the diagnostic is among those of the
    field and of the conformance check. *)
Theorem X3_missing_argument schema object iface context fieldName ifaceField
    objectField ifaceArg :
  prop (getFields iface) fieldName = Some ifaceField ->
  prop (getFields object) fieldName = Some objectField ->
  In ifaceArg (field_args ifaceField) ->
  findArg (field_args objectField) (arg_name ifaceArg) = None ->
  getErrors (checkIfaceArg object iface fieldName objectField context ifaceArg)
  = getErrors context ++ [Expected.missingArg object iface fieldName ifaceArg]
  /\ In (Expected.missingArg object iface fieldName ifaceArg)
       (getErrors (checkIfaceField schema object iface context fieldName))
  /\ (constructor iface = GraphQLInterfaceType ->
      In (Expected.missingArg object iface fieldName ifaceArg)
        (getErrors
           (validateObjectImplementsInterface context schema object iface))).
Proof.
  intros Hi Ho Hin Hfind.
  assert (Hstep : forall c,
             getErrors
               (checkIfaceArg object iface fieldName objectField c ifaceArg)
             = getErrors c
               ++ [Expected.missingArg object iface fieldName ifaceArg]).
  { intros c. now rewrite checkIfaceArg_errors, Hfind. }
  assert (Hfield : forall c,
             In (Expected.missingArg object iface fieldName ifaceArg)
               (getErrors (checkIfaceField schema object iface c fieldName))).
  { intros c.
    rewrite (checkIfaceField_errors isTypeSubTypeOf isEqualType schema object
               iface c fieldName ifaceField objectField Hi Ho).
    apply in_or_app. right. apply in_or_app. right. apply in_or_app. left.
    apply in_flat_map. exists ifaceArg. split; [exact Hin |].
    rewrite Hstep. now left. }
  split; [apply Hstep | split; [apply Hfield |]].
  intros Hc.
  apply (In_validateObjectImplementsInterface isTypeSubTypeOf isEqualType
           schema object iface context fieldName);
    [exact Hc | now apply prop_Some_keys in Hi | apply Hfield].
Qed.

(** X4. The directive checker reports one diagnostic for each entry of the
    directive list that is not a directive, in the order of the list, and
    nothing else: never more diagnostics than entries, and none exactly when
    every entry is a directive. *)
Theorem X4_directive_diagnostics schema :
  directiveDiagnostics schema
  = flat_map (fun d => match d with
                       | NotDirective v => [Expected.notDirective v]
                       | GraphQLDirective _ _ => []
                       end) (getDirectives schema)
  /\ List.length (directiveDiagnostics schema)
     <= List.length (getDirectives schema)
  /\ (directiveDiagnostics schema = []
      <-> forall d, In d (getDirectives schema) ->
                    exists n node, d = GraphQLDirective n node).
Proof.
  rewrite validateDirectives_errors. split; [reflexivity | split].
  - induction (getDirectives schema) as [|d l IH]; [cbn; lia |].
    cbn [flat_map]. rewrite length_app. destruct d; cbn; lia.
  - rewrite flat_map_nil_iff. split.
    + intros H d Hd. specialize (H d Hd). destruct d; [eauto | discriminate H].
    + intros H d Hd. destruct (H d Hd) as (n & node & ->). reflexivity.
Qed.

(** X5. An entry of the type map that is not an instance of the object type
    class is reported exactly once when it is no type at all, and not at all
    when it is a type: scalar, interface, union, enum, input object, list
    and non-null entries pass the walker without a diagnostic. *)
Theorem X5_type_map_entry schema context typeName v :
  prop (getTypeMap schema) typeName = Some v ->
  instanceOf v GraphQLObjectType = false ->
  getErrors (validateType schema context typeName)
  = getErrors context ++ (if isType v then [] else [Expected.notType v]).
Proof.
  intros Hp Hi.
  rewrite (framed_validateType isTypeSubTypeOf isEqualType schema typeName
             context).
  rewrite (validateType_errors schema typeName v Hp). f_equal.
  destruct v as [str|t|ofType|ofType|str node]; cbn [isType];
    try reflexivity.
  cbn [instanceOf] in Hi. rewrite Hi. reflexivity.
Qed.

(** X6. For an object type of the type map, the walker reports nothing
    exactly when the names of its interfaces are pairwise distinct and it
    conforms to each of them. *)
Theorem X6_object_type_silent schema typeName type :
  prop (getTypeMap schema) typeName = Some (TypeValue type) ->
  constructor type = GraphQLObjectType ->
  getErrors (validateType schema new_SchemaValidationContext typeName) = []
  <-> NoDup (map name (getInterfaces type))
      /\ forall iface,
           In iface (getInterfaces type) -> Conforms schema type iface.
Proof.
  intros Hp Hc. rewrite (validateType_errors schema typeName _ Hp).
  cbn [isType app]. rewrite Hc. cbn [TypeClass_eqb].
  rewrite interfaces_silent. split.
  - intros (_ & Hn & Hall). split; [exact Hn |].
    intros iface Hin. apply conformance_silent. now apply Hall.
  - intros [Hn Hall]. split; [intros; set_solver | split; [exact Hn |]].
    intros iface Hin. apply conformance_silent. now apply Hall.
Qed.

(** X7. On a schema not validated before, [validateSchema] returns the empty
    list exactly when the schema is valid: the query slot holds an object
    type; the mutation and subscription slots are absent or hold object
    types; every entry of the directive list is a directive; every value of
    the type map is a type; and every object type of the type map lists
    interfaces of pairwise distinct names and conforms to each of them. *)
Theorem X7_valid_schema schema :
  __validationErrors schema = None ->
  fst (validateSchema (Schema schema)) = Return []
  <-> (instanceOf (getQueryType schema) GraphQLObjectType = true
       /\ (truthy (getMutationType schema) = false
           \/ instanceOf (getMutationType schema) GraphQLObjectType = true)
       /\ (truthy (getSubscriptionType schema) = false
           \/ instanceOf (getSubscriptionType schema) GraphQLObjectType
              = true))
      /\ (forall d, In d (getDirectives schema) ->
                    exists n node, d = GraphQLDirective n node)
      /\ (forall typeName v,
            prop (getTypeMap schema) typeName = Some v ->
            isType v = true
            /\ forall type,
                 v = TypeValue type ->
                 constructor type = GraphQLObjectType ->
                 NoDup (map name (getInterfaces type))
                 /\ forall iface,
                      In iface (getInterfaces type) ->
                      Conforms schema type iface).
Proof.
  intros Hnone.
  rewrite (validateSchema_first isTypeSubTypeOf isEqualType schema Hnone).
  cbn [fst].
  assert (Hd : directiveDiagnostics schema = []
               <-> forall d, In d (getDirectives schema) ->
                             exists n node, d = GraphQLDirective n node).
  { rewrite validateDirectives_errors, flat_map_nil_iff. split.
    - intros H d Hin. specialize (H d Hin).
      destruct d; [eauto | discriminate H].
    - intros H d Hin. destruct (H d Hin) as (n & node & ->). reflexivity. }
  assert (Ht : typeDiagnostics schema = []
               <-> forall typeName v,
                     prop (getTypeMap schema) typeName = Some v ->
                     isType v = true
                     /\ forall type,
                          v = TypeValue type ->
                          constructor type = GraphQLObjectType ->
                          NoDup (map name (getInterfaces type))
                          /\ forall iface,
                               In iface (getInterfaces type) ->
                               Conforms schema type iface).
  { unfold typeDiagnostics, validateTypes. cbv zeta.
    rewrite (forEach_silent (validateType schema))
      by (intros a; apply framed_validateType).
    split.
    - intros H typeName v Hp.
      apply (proj1 (validateType_silent schema typeName v Hp)).
      apply H. now apply prop_Some_keys in Hp.
    - intros H typeName Hk. destruct (prop_keys _ _ Hk) as [v Hp].
      apply (proj2 (validateType_silent schema typeName v Hp)).
      now apply (H typeName). }
  rewrite <- rootTypeDiagnostics_silent, <- Hd, <- Ht.
  split.
  - intros [= H]. apply app_eq_nil in H as [Hr H].
    apply app_eq_nil in H as [Hdir Hty]. auto.
  - intros (-> & -> & ->). reflexivity.
Qed.

(** X9. No checker removes, reorders or rewrites a diagnostic that is in the
    sink already: each one leaves the sink as it finds it and appends what
    it would report to a fresh sink, so that what a checker reports does not
    depend on what was reported before it ran. *)
Theorem X9_checkers_only_append schema context :
  getErrors (validateRootTypes context schema)
  = getErrors context ++ rootTypeDiagnostics schema
  /\ getErrors (validateDirectives context schema)
     = getErrors context ++ directiveDiagnostics schema
  /\ getErrors (validateTypes context schema)
     = getErrors context ++ typeDiagnostics schema
  /\ (forall typeName,
        getErrors (validateType schema context typeName)
        = getErrors context
          ++ getErrors (validateType schema new_SchemaValidationContext
                          typeName))
  /\ (forall object iface,
        getErrors (validateObjectImplementsInterface context schema object
                     iface)
        = getErrors context
          ++ getErrors
               (validateObjectImplementsInterface new_SchemaValidationContext
                  schema object iface)).
Proof.
  split; [apply (framed_validateRootTypes schema) |].
  split; [apply (framed_validateDirectives schema) |].
  split; [apply (framed_validateTypes isTypeSubTypeOf isEqualType schema) |].
  split.
  - intros typeName.
    apply (framed_validateType isTypeSubTypeOf isEqualType schema typeName).
  - intros object iface.
    apply (framed_validateObjectImplementsInterface isTypeSubTypeOf
             isEqualType schema object iface).
Qed.

(** X10. [assertValidSchema] passes on the usage error of [validateSchema]
    unchanged; on a schema it leaves the list stored on the schema, also
    when it throws; and calling it again on what it left gives the same
    outcome and changes nothing more. *)
Theorem X10_assertValidSchema_repeats arg :
  assertValidSchema (snd (assertValidSchema arg)) = assertValidSchema arg
  /\ (forall e,
        fst (validateSchema arg) = Throw e ->
        assertValidSchema arg = (Throw e, arg))
  /\ (forall schema,
        arg = Schema schema ->
        exists schema' errors,
          snd (assertValidSchema arg) = Schema schema'
          /\ __validationErrors schema' = Some errors
          /\ fst (validateSchema arg) = Return errors).
Proof.
  destruct arg as [|[ctor|] str|schema].
  - split; [reflexivity | split; [| discriminate]].
    intros e [= <-]. reflexivity.
  - assert (Ha : exists e,
               validateSchema (NotSchema (Some ctor) str)
               = (Throw e, NotSchema (Some ctor) str)
               /\ assertValidSchema (NotSchema (Some ctor) str)
                  = (Throw e, NotSchema (Some ctor) str)).
    { unfold assertValidSchema, validateSchema.
      destruct (String.eqb ctor "GraphQLSchema"); eauto. }
    destruct Ha as (e0 & Hv & Ha).
    split; [| split; [| discriminate]].
    + rewrite Ha. cbn [snd]. exact Ha.
    + intros e He. rewrite Hv in He. injection He as <-. exact Ha.
  - split; [reflexivity | split; [| discriminate]].
    intros e [= <-]. reflexivity.
  - destruct (__validationErrors schema) as [errors|] eqn:E.
    + assert (Ha : assertValidSchema (Schema schema)
                   = (if negb (Nat.eqb (List.length errors) 0)
                      then Throw (Error (join (LF +:+ LF) (map message errors)))
                      else Return tt, Schema schema)).
      { unfold assertValidSchema.
        rewrite (validateSchema_stored isTypeSubTypeOf isEqualType schema
                   errors E).
        now destruct (negb (Nat.eqb (List.length errors) 0)). }
      split; [| split].
      * rewrite Ha. cbn [snd]. exact Ha.
      * intros e He.
        rewrite (validateSchema_stored isTypeSubTypeOf isEqualType schema
                   errors E) in He.
        discriminate He.
      * intros schema0 [= <-]. exists schema, errors. rewrite Ha.
        rewrite (validateSchema_stored isTypeSubTypeOf isEqualType schema
                   errors E).
        auto.
    + set (errors := rootTypeDiagnostics schema ++ directiveDiagnostics schema
                       ++ typeDiagnostics schema).
      set (schema' := set_validationErrors schema errors).
      assert (Hv : validateSchema (Schema schema)
                   = (Return errors, Schema schema'))
        by apply (validateSchema_first isTypeSubTypeOf isEqualType schema E).
      assert (Hv' : validateSchema (Schema schema')
                    = (Return errors, Schema schema')) by reflexivity.
      assert (Ha : forall s,
                 validateSchema (Schema s) = (Return errors, Schema schema') ->
                 assertValidSchema (Schema s)
                 = (if negb (Nat.eqb (List.length errors) 0)
                    then Throw (Error (join (LF +:+ LF) (map message errors)))
                    else Return tt, Schema schema')).
      { intros s Hs. unfold assertValidSchema. rewrite Hs.
        now destruct (negb (Nat.eqb (List.length errors) 0)). }
      split; [| split].
      * rewrite (Ha schema Hv). cbn [snd]. exact (Ha schema' Hv').
      * intros e He. rewrite Hv in He. discriminate He.
      * intros schema0 [= <-]. exists schema', errors.
        rewrite (Ha schema Hv), Hv. auto.
Qed.

(** *** The diagnostics and the defects of a schema *)

Local Abbreviation conformanceDiagnostics :=
  (conformanceDiagnostics isTypeSubTypeOf isEqualType).
Local Abbreviation conformanceDefect :=
  (conformanceDefect isTypeSubTypeOf isEqualType).
Local Abbreviation schemaDefect :=
  (schemaDefect isTypeSubTypeOf isEqualType).

Lemma TypeClass_eqb_false a b : TypeClass_eqb a b = false <-> a <> b.
Proof.
  rewrite <- TypeClass_eqb_eq. destruct (TypeClass_eqb a b); split; congruence.
Qed.

Lemma conformanceDiagnostics_defect schema object iface e :
  In e (conformanceDiagnostics schema object iface)
  -> conformanceDefect schema object iface e.
Proof.
  unfold conformanceDiagnostics.
  destruct (TypeClass_eqb (constructor iface) GraphQLInterfaceType) eqn:Hc.
  - apply TypeClass_eqb_eq in Hc.
    intros H. apply in_flat_map in H. destruct H as (fieldName & _ & H).
    unfold fieldDiagnostics in H.
    destruct (prop (getFields iface) fieldName) as [ifaceField|] eqn:Hi;
      [| destruct H].
    destruct (prop (getFields object) fieldName) as [objectField|] eqn:Ho.
    + apply in_app_or in H. destruct H as [H | H].
      { destruct (isTypeSubTypeOf schema (field_type objectField)
                    (field_type ifaceField)) eqn:Hsub; [destruct H |].
        destruct H as [<- | []].
        now apply CD_fieldTypeMismatch. }
      apply in_app_or in H. destruct H as [H | H].
      { apply in_flat_map in H. destruct H as (ifaceArg & Hin & H).
        unfold ifaceArgDiagnostics in H.
        destruct (findArg (field_args objectField) (arg_name ifaceArg))
          as [objectArg|] eqn:Hfind.
        - destruct (isEqualType (arg_type ifaceArg) (arg_type objectArg))
            eqn:Heq; [destruct H |].
          destruct H as [<- | []].
          now apply CD_argTypeMismatch
            with (ifaceField := ifaceField) (objectField := objectField).
        - destruct H as [<- | []].
          now apply CD_missingArg
            with (ifaceField := ifaceField) (objectField := objectField). }
      apply in_map_iff in H. destruct H as (objectArg & <- & H).
      apply filter_In in H. destruct H as [Hin H].
      unfold isRequiredExtraArg in H. apply andb_prop in H.
      destruct H as [Hfind Hnn].
      destruct (findArg (field_args ifaceField) (arg_name objectArg))
        eqn:Hf; [discriminate Hfind |].
      now apply CD_requiredExtraArg
        with (ifaceField := ifaceField) (objectField := objectField).
    + destruct H as [<- | []].
      now apply CD_missingField with (ifaceField := ifaceField).
  - apply TypeClass_eqb_false in Hc. intros [<- | []].
    now apply CD_notInterface.
Qed.

Lemma defect_conformanceDiagnostics schema object iface e :
  conformanceDefect schema object iface e
  -> In e (conformanceDiagnostics schema object iface).
Proof.
  assert (Hfield : forall fieldName ifaceField e,
             constructor iface = GraphQLInterfaceType ->
             prop (getFields iface) fieldName = Some ifaceField ->
             In e (fieldDiagnostics isTypeSubTypeOf isEqualType schema object
                     iface fieldName) ->
             In e (conformanceDiagnostics schema object iface)).
  { intros fieldName ifaceField e' Hc Hi H. unfold conformanceDiagnostics.
    rewrite Hc. cbn [TypeClass_eqb]. apply in_flat_map.
    exists fieldName. split; [now apply prop_Some_keys in Hi | exact H]. }
  intros [Hc
         |fieldName ifaceField Hc Hi Ho
         |fieldName ifaceField objectField Hc Hi Ho Hsub
         |fieldName ifaceField objectField ifaceArg Hc Hi Ho Hin Hfind
         |fieldName ifaceField objectField ifaceArg objectArg Hc Hi Ho Hin
            Hfind Heq
         |fieldName ifaceField objectField objectArg Hc Hi Ho Hin Hfind Hnn].
  - unfold conformanceDiagnostics. apply TypeClass_eqb_false in Hc.
    rewrite Hc. now left.
  - apply (Hfield fieldName ifaceField _ Hc Hi).
    unfold fieldDiagnostics. rewrite Hi, Ho. now left.
  - apply (Hfield fieldName ifaceField _ Hc Hi).
    unfold fieldDiagnostics. rewrite Hi, Ho, Hsub.
    apply in_or_app. left. now left.
  - apply (Hfield fieldName ifaceField _ Hc Hi).
    unfold fieldDiagnostics. rewrite Hi, Ho.
    apply in_or_app. right. apply in_or_app. left.
    apply in_flat_map. exists ifaceArg. split; [exact Hin |].
    unfold ifaceArgDiagnostics. rewrite Hfind. now left.
  - apply (Hfield fieldName ifaceField _ Hc Hi).
    unfold fieldDiagnostics. rewrite Hi, Ho.
    apply in_or_app. right. apply in_or_app. left.
    apply in_flat_map. exists ifaceArg. split; [exact Hin |].
    unfold ifaceArgDiagnostics. rewrite Hfind, Heq. now left.
  - apply (Hfield fieldName ifaceField _ Hc Hi).
    unfold fieldDiagnostics. rewrite Hi, Ho.
    apply in_or_app. right. apply in_or_app. right.
    apply in_map, filter_In. split; [exact Hin |].
    unfold isRequiredExtraArg. now rewrite Hfind, Hnn.
Qed.

Lemma In_referenceDiagnostics type conformance seen ifaces e :
  In e (referenceDiagnostics type conformance seen ifaces)
  <-> (exists pre iface post,
         ifaces = pre ++ iface :: post
         /\ In (name iface) (seen ++ map name pre)
         /\ e = Expected.onlyOnce type iface)
      \/ (exists iface, In iface ifaces /\ In e (conformance iface)).
Proof.
  revert seen. induction ifaces as [|iface0 rest IH]; intros seen.
  - cbn [referenceDiagnostics In]. split; [intros [] |].
    intros [(pre & iface & post & H & _) | (iface & [] & _)].
    now destruct pre.
  - cbn [referenceDiagnostics]. rewrite !in_app_iff, IH. split.
    + intros [H | [H | [H | H]]].
      * destruct (existsb (String.eqb (name iface0)) seen) eqn:He;
          [| destruct H].
        destruct H as [<- | []]. left. exists [], iface0, rest.
        cbn [app map]. rewrite app_nil_r.
        split; [reflexivity | split; [| reflexivity]].
        now apply existsb_eqb_In.
      * right. exists iface0. split; [now left | exact H].
      * destruct H as (pre & iface & post & -> & Hin & ->).
        left. exists (iface0 :: pre), iface, post. cbn [app map].
        split; [reflexivity | split; [| reflexivity]].
        rewrite <- app_assoc in Hin. exact Hin.
      * destruct H as (iface & Hin & H). right. exists iface.
        split; [now right | exact H].
    + intros [(pre & iface & post & Heq & Hin & ->) | (iface & Hin & H)].
      * destruct pre as [|p pre]; cbn [app map] in Heq, Hin.
        -- injection Heq as <- <-. rewrite app_nil_r in Hin.
           apply existsb_eqb_In in Hin. rewrite Hin. left. now left.
        -- injection Heq as <- ->. right. right. left.
           exists pre, iface, post.
           split; [reflexivity | split; [| reflexivity]].
           now rewrite <- app_assoc.
      * destruct Hin as [<- | Hin].
        -- right. now left.
        -- right. right. right. exists iface. now split.
Qed.

Lemma In_rootTypeDiagnostics schema e :
  In e (rootTypeDiagnostics schema)
  <-> (truthy (getQueryType schema) = false
       /\ e = Expected.queryTypeMissing schema)
      \/ (truthy (getQueryType schema) = true
          /\ instanceOf (getQueryType schema) GraphQLObjectType = false
          /\ e = Expected.rootNotObject
                   "Query root type must be Object type but got: " "query"
                   schema (getQueryType schema))
      \/ (truthy (getMutationType schema) = true
          /\ instanceOf (getMutationType schema) GraphQLObjectType = false
          /\ e = Expected.rootNotObject
                   "Mutation root type must be Object type if provided but got: "
                   "mutation" schema (getMutationType schema))
      \/ (truthy (getSubscriptionType schema) = true
          /\ instanceOf (getSubscriptionType schema) GraphQLObjectType = false
          /\ e = Expected.rootNotObject
                   "Subscription root type must be Object type if provided but got: "
                   "subscription" schema (getSubscriptionType schema)).
Proof.
  rewrite rootTypeDiagnostics_by_slot, !in_app_iff.
  unfold Expected.queryTypeErrors, Expected.mutationTypeErrors,
    Expected.subscriptionTypeErrors, Expected.optionalRootErrors.
  destruct (truthy (getQueryType schema));
    destruct (instanceOf (getQueryType schema) GraphQLObjectType);
    destruct (truthy (getMutationType schema));
    destruct (instanceOf (getMutationType schema) GraphQLObjectType);
    destruct (truthy (getSubscriptionType schema));
    destruct (instanceOf (getSubscriptionType schema) GraphQLObjectType);
    cbn [negb andb In]; intuition congruence.
Qed.

Lemma In_typeDiagnostics schema e :
  In e (typeDiagnostics schema)
  <-> (exists typeName v,
         prop (getTypeMap schema) typeName = Some v
         /\ isType v = false /\ e = Expected.notType v)
      \/ (exists typeName type,
            prop (getTypeMap schema) typeName = Some (TypeValue type)
            /\ constructor type = GraphQLObjectType
            /\ In e (referenceDiagnostics type
                       (conformanceDiagnostics schema type) []
                       (getInterfaces type))).
Proof.
  assert (Hobject : forall typeName type,
             prop (getTypeMap schema) typeName = Some (TypeValue type) ->
             constructor type = GraphQLObjectType ->
             getErrors
               (validateType schema new_SchemaValidationContext typeName)
             = referenceDiagnostics type (conformanceDiagnostics schema type)
                 [] (getInterfaces type)).
  { intros typeName type Hp Hc.
    rewrite (validateType_object isTypeSubTypeOf isEqualType schema
               new_SchemaValidationContext typeName type Hp Hc).
    cbn [getErrors _errors new_SchemaValidationContext app].
    apply referenceDiagnostics_ext. intros iface.
    now rewrite (validateObjectImplementsInterface_exact isTypeSubTypeOf
                   isEqualType). }
  unfold typeDiagnostics.
  rewrite (validateTypes_exact isTypeSubTypeOf isEqualType).
  cbn [getErrors _errors new_SchemaValidationContext app].
  rewrite in_flat_map. split.
  - intros (typeName & Hkey & H).
    destruct (prop_keys _ _ Hkey) as [v Hp].
    destruct v as [str|type|ofType|ofType|str node].
    1,3,4,5:
      rewrite (validateType_errors schema typeName _ Hp) in H;
      cbn [isType app In] in H;
      first [ contradiction
            | destruct H as [<- | []]; left; eexists; eexists;
              split; [exact Hp | split; reflexivity] ].
    destruct (TypeClass_eqb (constructor type) GraphQLObjectType) eqn:Hc.
    + apply TypeClass_eqb_eq in Hc. rewrite (Hobject _ _ Hp Hc) in H.
      right. exists typeName, type. now repeat split.
    + rewrite (validateType_errors schema typeName _ Hp) in H.
      rewrite Hc in H. destruct H.
  - intros [(typeName & v & Hp & Hv & ->) | (typeName & type & Hp & Hc & H)].
    + exists typeName. split; [now apply prop_Some_keys in Hp |].
      rewrite (validateType_errors schema typeName _ Hp), Hv.
      apply in_or_app. left. now left.
    + exists typeName. split; [now apply prop_Some_keys in Hp |].
      now rewrite (Hobject _ _ Hp Hc).
Qed.

(** X11. On a schema not validated before, the diagnostics [validateSchema]
    returns are those of the defects of that schema, and every defect has
    its diagnostic: the query root slot is empty; one of the three root
    slots holds something else than an object type; an entry of the
    directive list is no directive; a value of the type map is no type; an
    object type of the type map lists an interface whose name an earlier
    reference has; or an object type of the type map fails one of the six
    requirements of the conformance check against an interface it lists. *)
Theorem X11_diagnostics_are_about_the_schema schema errors arg' :
  __validationErrors schema = None ->
  validateSchema (Schema schema) = (Return errors, arg') ->
  forall e, In e errors <-> schemaDefect schema e.
Proof.
  intros Hnone H e.
  rewrite (validateSchema_first isTypeSubTypeOf isEqualType schema Hnone) in H.
  injection H as <- _.
  rewrite !in_app_iff, In_rootTypeDiagnostics, In_typeDiagnostics,
    validateDirectives_errors, in_flat_map.
  split.
  - intros [[(Hq & ->) | [(Hq & Hi & ->) | [(Hq & Hi & ->) | (Hq & Hi & ->)]]]
           | [(d & Hin & H)
             | [(typeName & v & Hp & Hv & ->)
               | (typeName & type & Hp & Hc & H)]]].
    + now apply SD_queryTypeMissing.
    + now apply SD_queryNotObject.
    + now apply SD_mutationNotObject.
    + now apply SD_subscriptionNotObject.
    + destruct d as [n node|v]; [destruct H |].
      destruct H as [<- | []]. now apply SD_notDirective.
    + now apply SD_notType with (typeName := typeName).
    + apply In_referenceDiagnostics in H.
      destruct H as [(pre & iface & post & Hsplit & Hin & ->)
                    | (iface & Hin & H)].
      * now apply SD_onlyOnce
          with (typeName := typeName) (pre := pre) (post := post).
      * apply SD_conformance
          with (typeName := typeName) (type := type) (iface := iface);
          auto.
        now apply conformanceDiagnostics_defect.
  - intros [Hq | Hq Hi | Hq Hi | Hq Hi | v Hin | typeName v Hp Hv
           | typeName type pre iface post Hp Hc Hsplit Hin
           | typeName type iface e' Hp Hc Hin H].
    + left. left. now split.
    + left. right. left. now repeat split.
    + left. right. right. left. now repeat split.
    + left. right. right. right. now repeat split.
    + right. left. exists (NotDirective v). split; [exact Hin | now left].
    + right. right. left. exists typeName, v. now repeat split.
    + right. right. right. exists typeName, type.
      split; [exact Hp | split; [exact Hc |]].
      apply In_referenceDiagnostics. left. exists pre, iface, post.
      now repeat split.
    + right. right. right. exists typeName, type.
      split; [exact Hp | split; [exact Hc |]].
      apply In_referenceDiagnostics. right. exists iface.
      split; [exact Hin | now apply defect_conformanceDiagnostics].
Qed.

End MoreProperties.

(** ** The node locator *)

Lemma getFieldNode_from_Some astNodes fieldName node :
  getFieldNode_from astNodes fieldName = Some node ->
  value (fd_name node) = fieldName
  /\ exists astNode fields,
       In (Some astNode) astNodes
       /\ td_fields astNode = Some fields
       /\ In node fields.
Proof.
  induction astNodes as [|[n|] l IH]; cbn [getFieldNode_from];
    [discriminate | | ].
  - destruct (td_fields n) as [fields|] eqn:Ef.
    + destruct (List.find _ fields) as [f|] eqn:E.
      * intros [= ->]. apply List.find_some in E as [Hin Hn].
        apply String.eqb_eq in Hn. split; [exact Hn |].
        exists n, fields. cbn. auto.
      * intros H. destruct (IH H) as (Hn & a & fs & Hin & Hf & Hnode).
        split; [exact Hn |]. exists a, fs. cbn. auto.
    + intros H. destruct (IH H) as (Hn & a & fs & Hin & Hf & Hnode).
      split; [exact Hn |]. exists a, fs. cbn. auto.
  - intros H. destruct (IH H) as (Hn & a & fs & Hin & Hf & Hnode).
    split; [exact Hn |]. exists a, fs. cbn. auto.
Qed.

Lemma getFieldNode_from_None astNodes fieldName :
  getFieldNode_from astNodes fieldName = None
  <-> forall astNode fields node,
        In (Some astNode) astNodes ->
        td_fields astNode = Some fields ->
        In node fields ->
        value (fd_name node) <> fieldName.
Proof.
  induction astNodes as [|[n|] l IH]; cbn [getFieldNode_from].
  - split; [intros _ ? ? ? [] | reflexivity].
  - destruct (td_fields n) as [fields|] eqn:Ef.
    + destruct (List.find _ fields) as [f|] eqn:E.
      * split; [discriminate |]. intros H. exfalso.
        apply List.find_some in E as [Hin Hn]. apply String.eqb_eq in Hn.
        apply (H n fields f); cbn; auto.
      * rewrite IH. split.
        -- intros H a fs node [[= <-] | Hin] Hf Hnode.
           ++ rewrite Ef in Hf. injection Hf as <-.
              apply (List.find_none _ _ E) in Hnode.
              now apply String.eqb_neq in Hnode.
           ++ now apply (H a fs).
        -- intros H a fs node Hin. apply H. now right.
    + rewrite IH. split.
      * intros H a fs node [[= <-] | Hin] Hf Hnode; [congruence |].
        now apply (H a fs).
      * intros H a fs node Hin. apply H. now right.
  - rewrite IH. split.
    + intros H a fs node [Hin | Hin] Hf Hnode; [discriminate Hin |].
      now apply (H a fs).
    + intros H a fs node Hin. apply H. now right.
Qed.

Lemma getFieldNode_from_app pre astNodes fieldName :
  getFieldNode_from pre fieldName = None ->
  getFieldNode_from (pre ++ astNodes) fieldName
  = getFieldNode_from astNodes fieldName.
Proof.
  induction pre as [|[n|] l IH]; cbn [getFieldNode_from app];
    [reflexivity | | exact IH].
  destruct (td_fields n) as [fields|]; [| exact IH].
  destruct (List.find _ fields); [discriminate | exact IH].
Qed.

(** X12. The field node the locator returns carries the name asked for and
    is a field of the definition node or of an extension node of the type;
    the locator returns none exactly when no node of the type has a field
    of that name; and among the nodes that have one, the first in the order
    definition node, then extension nodes, decides. *)
Theorem X12_getFieldNode type fieldName :
  (forall node,
     getFieldNode type fieldName = Some node ->
     value (fd_name node) = fieldName
     /\ exists astNode fields,
          In (Some astNode) (allASTNodes type)
          /\ td_fields astNode = Some fields
          /\ In node fields)
  /\ (getFieldNode type fieldName = None
      <-> forall astNode fields node,
            In (Some astNode) (allASTNodes type) ->
            td_fields astNode = Some fields ->
            In node fields ->
            value (fd_name node) <> fieldName)
  /\ (forall pre astNode post fields node,
        allASTNodes type = pre ++ Some astNode :: post ->
        getFieldNode_from pre fieldName = None ->
        td_fields astNode = Some fields ->
        List.find (fun f => String.eqb (value (fd_name f)) fieldName) fields
        = Some node ->
        getFieldNode type fieldName = Some node).
Proof.
  split; [| split].
  - intros node. apply getFieldNode_from_Some.
  - apply getFieldNode_from_None.
  - intros pre astNode post fields node Hall Hpre Hf Hfind.
    unfold getFieldNode. rewrite Hall.
    rewrite (getFieldNode_from_app pre _ fieldName Hpre).
    cbn [getFieldNode_from]. now rewrite Hf, Hfind.
Qed.

Lemma find_first {A} (p : A -> bool) pre x post :
  (forall a, In a pre -> p a = false) ->
  p x = true ->
  List.find p (pre ++ x :: post) = Some x.
Proof.
  intros Hpre Hx. induction pre as [|a pre IH]; cbn [app List.find].
  - now rewrite Hx.
  - rewrite (Hpre a) by now left. apply IH.
    intros a' Hin. apply Hpre. now right.
Qed.

Lemma find_nowhere {A} (p : A -> bool) l :
  (forall a, In a l -> p a = false) -> List.find p l = None.
Proof.
  intros H. induction l as [|a l IH]; [reflexivity |].
  cbn [List.find]. rewrite (H a) by now left.
  apply IH. intros a' Hin. apply H. now right.
Qed.

(** X13. The type node the locator returns for a field is the type of the
    field node it finds for the field. The argument node it returns is the
    first argument of that field node that carries the name asked for, and
    there is none when the field node has no argument list or no argument of
    that name; the type node it returns for an argument is the type of that
    argument node. When no field node is found, no argument node and no
    type node is. *)
Theorem X13_getFieldArgNode type fieldName argName :
  (forall argNode,
     getFieldArgNode type fieldName argName = Some argNode ->
     value (iv_name argNode) = argName
     /\ getFieldArgTypeNode type fieldName argName = Some (iv_type argNode)
     /\ exists fieldNode arguments,
          getFieldNode type fieldName = Some fieldNode
          /\ getFieldTypeNode type fieldName = Some (fd_type fieldNode)
          /\ fd_arguments fieldNode = Some arguments
          /\ In argNode arguments)
  /\ (getFieldNode type fieldName = None ->
      getFieldTypeNode type fieldName = None
      /\ getFieldArgNode type fieldName argName = None
      /\ getFieldArgTypeNode type fieldName argName = None)
  /\ (getFieldArgNode type fieldName argName = None ->
      getFieldArgTypeNode type fieldName argName = None)
  /\ (forall fieldNode,
        getFieldNode type fieldName = Some fieldNode ->
        getFieldTypeNode type fieldName = Some (fd_type fieldNode)
        /\ (fd_arguments fieldNode = None ->
            getFieldArgNode type fieldName argName = None)
        /\ (forall pre argNode post,
              fd_arguments fieldNode = Some (pre ++ argNode :: post) ->
              (forall a, In a pre -> value (iv_name a) <> argName) ->
              value (iv_name argNode) = argName ->
              getFieldArgNode type fieldName argName = Some argNode
              /\ getFieldArgTypeNode type fieldName argName
                 = Some (iv_type argNode))
        /\ (forall arguments,
              fd_arguments fieldNode = Some arguments ->
              (forall a, In a arguments -> value (iv_name a) <> argName) ->
              getFieldArgNode type fieldName argName = None)).
Proof.
  unfold getFieldArgTypeNode, getFieldTypeNode, getFieldArgNode.
  split; [| split; [| split]].
  - intros argNode H.
    destruct (getFieldNode type fieldName) as [fieldNode|];
      [| discriminate H].
    destruct (fd_arguments fieldNode) as [arguments|] eqn:Ea;
      [| discriminate H].
    rewrite H. apply List.find_some in H as [Hin Hn].
    apply String.eqb_eq in Hn.
    split; [exact Hn | split; [reflexivity |]].
    exists fieldNode, arguments. auto.
  - intros ->. auto.
  - intros ->. reflexivity.
  - intros fieldNode ->.
    split; [reflexivity | split; [| split]].
    + intros ->. reflexivity.
    + intros pre argNode post -> Hpre Hn.
      rewrite find_first.
      * split; reflexivity.
      * intros a Hin. apply String.eqb_neq. now apply Hpre.
      * now apply String.eqb_eq.
    + intros arguments -> Hno.
      apply find_nowhere. intros a Hin. apply String.eqb_neq. now apply Hno.
Qed.

(** X14. The node a root type diagnostic points at: when the schema
    definition node declares the operation, the type reference of the first
    such declaration, the one no declaration of that operation comes
    before, whatever the root type itself carries; when there is no schema
    definition node, or it does not declare the operation, the definition
    node of the root type, if it has one. *)
Theorem X14_getOperationTypeNode schema type operation_ :
  (forall astNode n,
     schema_astNode schema = Some astNode ->
     In n (operationTypes astNode) ->
     operation n = operation_ ->
     exists first,
       In first (operationTypes astNode)
       /\ operation first = operation_
       /\ forall type',
            getOperationTypeNode schema type' operation_
            = Some (N_Type (NamedType (ot_type first))))
  /\ ((forall astNode n,
         schema_astNode schema = Some astNode ->
         In n (operationTypes astNode) ->
         operation n <> operation_) ->
      getOperationTypeNode schema type operation_ = astNodeOf type)
  /\ (forall astNode pre first post,
        schema_astNode schema = Some astNode ->
        operationTypes astNode = pre ++ first :: post ->
        (forall n, In n pre -> operation n <> operation_) ->
        operation first = operation_ ->
        getOperationTypeNode schema type operation_
        = Some (N_Type (NamedType (ot_type first)))).
Proof.
  unfold getOperationTypeNode. split; [| split].
  - intros astNode n -> Hin Hop.
    destruct (List.find _ (operationTypes astNode)) as [first|] eqn:E.
    + apply List.find_some in E as [Hf Ho]. apply String.eqb_eq in Ho.
      exists first. auto.
    + exfalso. apply (List.find_none _ _ E) in Hin.
      apply String.eqb_neq in Hin. contradiction.
  - intros H. destruct (schema_astNode schema) as [astNode|]; [| reflexivity].
    destruct (List.find _ (operationTypes astNode)) as [first|] eqn:E;
      [| reflexivity].
    exfalso. apply List.find_some in E as [Hf Ho]. apply String.eqb_eq in Ho.
    now apply (H astNode first).
  - intros astNode pre first post -> -> Hpre Hop.
    rewrite find_first; [reflexivity | | now apply String.eqb_eq].
    intros n Hin. apply String.eqb_neq. now apply Hpre.
Qed.

(** ** The rule "unique operation names" *)

Module Import RuleFacts.
Import UniqueOperationNames.

Lemma duplicateOperationNameMessage_inj a b :
  duplicateOperationNameMessage a = duplicateOperationNameMessage b -> a = b.
Proof.
  unfold duplicateOperationNameMessage. intros H.
  apply append_inv_head, append_inv_head in H.
  now apply append_inv_tail in H.
Qed.

Lemma enterOperations_cons node nodes st :
  enterOperations (node :: nodes) st
  = enterOperations nodes (fst (OperationDefinition st node)).
Proof. reflexivity. Qed.

(** A name once known stays known with the node it was first seen with;
    another name gets the first node that carries it. *)
Lemma knownOperationNames_after nodes st n :
  knownOperationNames (enterOperations nodes st) !! n
  = match knownOperationNames st !! n with
    | Some x => Some x
    | None => firstNamed n (operationNames nodes)
    end.
Proof.
  revert st. induction nodes as [|node l IH]; intros st.
  - cbn. now destruct (knownOperationNames st !! n).
  - rewrite enterOperations_cons, IH. unfold OperationDefinition.
    cbn [operationNames flat_map].
    destruct (op_name node) as [nm|]; cbn [fst app]; [| reflexivity].
    fold (operationNames l).
    destruct (knownOperationNames st !! name_value nm) as [k|] eqn:Ek;
      cbn [fst reportRuleError knownOperationNames].
    + destruct (knownOperationNames st !! n) as [x|] eqn:En; [reflexivity |].
      unfold firstNamed. cbn [List.find].
      destruct (String.eqb (name_value nm) n) eqn:E; [| reflexivity].
      apply String.eqb_eq in E. congruence.
    + unfold firstNamed. cbn [List.find].
      destruct (String.eqb (name_value nm) n) eqn:E.
      * apply String.eqb_eq in E. subst n.
        rewrite lookup_insert_eq, Ek. reflexivity.
      * apply String.eqb_neq in E. rewrite lookup_insert_ne by exact E.
        reflexivity.
Qed.

Lemma countRuleMessage_app msg l1 l2 :
  countRuleMessage msg (l1 ++ l2)
  = countRuleMessage msg l1 + countRuleMessage msg l2.
Proof. unfold countRuleMessage. now rewrite List.filter_app, length_app. Qed.

Lemma reported_count nodes st n :
  countRuleMessage (duplicateOperationNameMessage n)
    (reported (enterOperations nodes st))
  = countRuleMessage (duplicateOperationNameMessage n) (reported st)
    + (countNamed n (operationNames nodes)
       - match knownOperationNames st !! n with
         | Some _ => 0
         | None => 1
         end).
Proof.
  revert st. induction nodes as [|node l IH]; intros st.
  - cbn. lia.
  - rewrite enterOperations_cons, IH. unfold OperationDefinition.
    cbn [operationNames flat_map].
    destruct (op_name node) as [nm|]; cbn [fst app]; [| reflexivity].
    fold (operationNames l). unfold countNamed. cbn [List.filter].
    destruct (knownOperationNames st !! name_value nm) as [k|] eqn:Ek;
      cbn [fst reportRuleError knownOperationNames reported].
    + rewrite countRuleMessage_app.
      destruct (String.eqb (name_value nm) n) eqn:E.
      * apply String.eqb_eq in E. subst n. rewrite Ek.
        unfold countRuleMessage at 2. cbn [List.filter rule_message].
        rewrite String.eqb_refl. cbn [List.length]. lia.
      * apply String.eqb_neq in E.
        unfold countRuleMessage at 2. cbn [List.filter rule_message].
        destruct (String.eqb (duplicateOperationNameMessage (name_value nm))
                    (duplicateOperationNameMessage n)) eqn:Em.
        -- apply String.eqb_eq, duplicateOperationNameMessage_inj in Em.
           contradiction.
        -- cbn [List.length]. lia.
    + destruct (String.eqb (name_value nm) n) eqn:E.
      * apply String.eqb_eq in E. subst n.
        rewrite lookup_insert_eq, Ek. cbn [List.length]. lia.
      * apply String.eqb_neq in E. rewrite lookup_insert_ne by exact E.
        lia.
Qed.

(** Each error cites the node finally known for its name and a node of the
    list. *)
Lemma reported_shape nodes st :
  exists new,
    reported (enterOperations nodes st) = reported st ++ new
    /\ Forall
         (fun e =>
            exists first current,
              e = mkRuleError
                    (duplicateOperationNameMessage (name_value current))
                    [first; current]
              /\ In current (operationNames nodes)
              /\ knownOperationNames (enterOperations nodes st)
                   !! name_value current = Some first)
         new.
Proof.
  revert st. induction nodes as [|node l IH]; intros st.
  - exists []. split; [now rewrite app_nil_r | constructor].
  - rewrite enterOperations_cons.
    destruct (IH (fst (OperationDefinition st node))) as (new & Hnew & Hall).
    assert (Hweak :
              Forall
                (fun e =>
                   exists first current,
                     e = mkRuleError
                           (duplicateOperationNameMessage (name_value current))
                           [first; current]
                     /\ In current (operationNames (node :: l))
                     /\ knownOperationNames
                          (enterOperations l (fst (OperationDefinition st node)))
                          !! name_value current = Some first)
                new).
    { eapply List.Forall_impl; [| exact Hall].
      intros e (first & current & He & Hin & Hk).
      exists first, current. split; [exact He | split; [| exact Hk]].
      cbn [operationNames flat_map]. apply in_or_app. now right. }
    destruct (op_name node) as [nm|] eqn:En.
    + destruct (knownOperationNames st !! name_value nm) as [k|] eqn:Ek.
      * assert (Hst : fst (OperationDefinition st node)
                      = reportRuleError st
                          (mkRuleError
                             (duplicateOperationNameMessage (name_value nm))
                             [k; nm])).
        { unfold OperationDefinition. now rewrite En, Ek. }
        exists (mkRuleError (duplicateOperationNameMessage (name_value nm))
                  [k; nm] :: new).
        split.
        -- rewrite Hnew, Hst. cbn [reportRuleError reported].
           now rewrite <- app_assoc.
        -- constructor; [| exact Hweak].
           exists k, nm. split; [reflexivity | split].
           ++ cbn [operationNames flat_map]. rewrite En. now left.
           ++ rewrite knownOperationNames_after, Hst.
              cbn [reportRuleError knownOperationNames]. now rewrite Ek.
      * assert (Hst : reported (fst (OperationDefinition st node))
                      = reported st).
        { unfold OperationDefinition. now rewrite En, Ek. }
        exists new. split; [now rewrite Hnew, Hst | exact Hweak].
    + assert (Hst : fst (OperationDefinition st node) = st).
      { unfold OperationDefinition. now rewrite En. }
      exists new. split; [now rewrite Hnew, Hst | exact Hweak].
Qed.

Lemma countNamed_count_occ n names :
  countNamed n names = count_occ string_dec (map name_value names) n.
Proof.
  unfold countNamed. induction names as [|x l IH]; [reflexivity |].
  cbn [List.filter map count_occ].
  destruct (string_dec (name_value x) n) as [-> | Hne].
  - rewrite String.eqb_refl. cbn [List.length]. now rewrite IH.
  - apply String.eqb_neq in Hne. rewrite Hne. exact IH.
Qed.

Lemma firstNamed_snoc n seen current :
  firstNamed n (seen ++ [current])
  = match firstNamed n seen with
    | Some first => Some first
    | None =>
        if String.eqb (name_value current) n then Some current else None
    end.
Proof.
  unfold firstNamed. induction seen as [|x seen IH]; cbn [app List.find].
  - reflexivity.
  - now destruct (String.eqb (name_value x) n).
Qed.

(** What the handler reports on a list of operations, from a state that
    knows each name with the first of the nodes [seen] that carries it. *)
Lemma reported_duplicates nodes st seen :
  (forall n, knownOperationNames st !! n = firstNamed n seen) ->
  reported (enterOperations nodes st)
  = reported st ++ duplicates seen (operationNames nodes).
Proof.
  revert st seen. induction nodes as [|node nodes IH]; intros st seen Hknown.
  - cbn. now rewrite app_nil_r.
  - rewrite enterOperations_cons. unfold OperationDefinition.
    cbn [operationNames flat_map].
    destruct (op_name node) as [current|]; cbn [fst app];
      [| now apply IH].
    fold (operationNames nodes). cbn [duplicates].
    rewrite <- Hknown.
    destruct (knownOperationNames st !! name_value current) as [first|] eqn:Ek;
      cbn [fst].
    + rewrite (IH _ (seen ++ [current])).
      * cbn [reportRuleError reported]. now rewrite <- app_assoc.
      * intros n. cbn [reportRuleError knownOperationNames].
        rewrite firstNamed_snoc, <- Hknown.
        destruct (knownOperationNames st !! n) as [x|] eqn:En; [reflexivity |].
        destruct (String.eqb (name_value current) n) eqn:E; [| reflexivity].
        apply String.eqb_eq in E. congruence.
    + rewrite (IH _ (seen ++ [current])).
      * reflexivity.
      * intros n. cbn [knownOperationNames].
        rewrite firstNamed_snoc, <- Hknown.
        destruct (String.eqb (name_value current) n) eqn:E.
        -- apply String.eqb_eq in E. subst n.
           now rewrite lookup_insert_eq, Ek.
        -- apply String.eqb_neq in E. rewrite lookup_insert_ne by exact E.
           now destruct (knownOperationNames st !! n).
Qed.

(** Each of these errors is for a node of the list, and cites the first
    node of that value before it and then that node. *)
Lemma In_duplicates seen names e :
  In e (duplicates seen names)
  <-> exists pre current post first,
        names = pre ++ current :: post
        /\ firstNamed (name_value current) (seen ++ pre) = Some first
        /\ e = mkRuleError
                 (duplicateOperationNameMessage (name_value current))
                 [first; current].
Proof.
  revert seen. induction names as [|x names IH]; intros seen.
  - cbn [duplicates In]. split; [intros [] |].
    intros (pre & current & post & first & H & _). now destruct pre.
  - cbn [duplicates]. rewrite in_app_iff, IH. split.
    + intros [H | (pre & current & post & first & -> & Hf & ->)].
      * destruct (firstNamed (name_value x) seen) as [first|] eqn:Ef;
          [| destruct H].
        destruct H as [<- | []].
        exists [], x, names, first. rewrite app_nil_r. auto.
      * exists (x :: pre), current, post, first. cbn [app].
        rewrite <- app_assoc in Hf. auto.
    + intros (pre & current & post & first & Heq & Hf & ->).
      destruct pre as [|p pre]; cbn [app] in Heq.
      * injection Heq as <- <-. rewrite app_nil_r in Hf. rewrite Hf.
        left. now left.
      * injection Heq as <- ->. right.
        exists pre, current, post, first.
        rewrite <- app_assoc. auto.
Qed.

End RuleFacts.

(** X15. After the handler has been called on a list of operation
    definitions, starting with nothing known: each name is known with the
    first Name node that carries it; the duplicate-name error for a name has
    been reported once for each operation of that name after the first; the
    errors are, in the order of the operations, one for each named
    operation whose name an operation before it has; and each error cites
    two nodes, the first node of its name and then the node of the later
    operation it is reported for. *)
Theorem X15_duplicate_operation_names nodes :
  let final :=
    UniqueOperationNames.enterOperations nodes UniqueOperationNames.initial in
  let names := UniqueOperationNames.operationNames nodes in
  (forall n,
     UniqueOperationNames.knownOperationNames final !! n
     = UniqueOperationNames.firstNamed n names)
  /\ (forall n,
        UniqueOperationNames.countRuleMessage
          (UniqueOperationNames.duplicateOperationNameMessage n)
          (UniqueOperationNames.reported final)
        = UniqueOperationNames.countNamed n names - 1)
  /\ Forall
       (fun e =>
          exists first current,
            e = UniqueOperationNames.mkRuleError
                  (UniqueOperationNames.duplicateOperationNameMessage
                     (UniqueOperationNames.name_value current))
                  [first; current]
            /\ In current names
            /\ UniqueOperationNames.name_value first
               = UniqueOperationNames.name_value current
            /\ UniqueOperationNames.firstNamed
                 (UniqueOperationNames.name_value current) names
               = Some first)
       (UniqueOperationNames.reported final)
  /\ UniqueOperationNames.reported final
     = UniqueOperationNames.duplicates [] names
  /\ (forall e,
        In e (UniqueOperationNames.reported final)
        <-> exists pre current post first,
              names = pre ++ current :: post
              /\ UniqueOperationNames.firstNamed
                   (UniqueOperationNames.name_value current) pre
                 = Some first
              /\ e = UniqueOperationNames.mkRuleError
                       (UniqueOperationNames.duplicateOperationNameMessage
                          (UniqueOperationNames.name_value current))
                       [first; current]).
Proof.
  intros final names. subst final names.
  assert (Hknown : forall n,
             UniqueOperationNames.knownOperationNames
               (UniqueOperationNames.enterOperations nodes
                  UniqueOperationNames.initial) !! n
             = UniqueOperationNames.firstNamed n
                 (UniqueOperationNames.operationNames nodes)).
  { intros n. rewrite knownOperationNames_after. reflexivity. }
  assert (Hreported :
            UniqueOperationNames.reported
              (UniqueOperationNames.enterOperations nodes
                 UniqueOperationNames.initial)
            = UniqueOperationNames.duplicates []
                (UniqueOperationNames.operationNames nodes)).
  { rewrite (reported_duplicates nodes UniqueOperationNames.initial []).
    - reflexivity.
    - intros n. apply lookup_empty. }
  split; [exact Hknown | split; [| split; [| split]]].
  - intros n. rewrite reported_count. reflexivity.
  - destruct (reported_shape nodes UniqueOperationNames.initial)
      as (new & Hnew & Hall).
    rewrite Hnew. cbn [UniqueOperationNames.reported
      UniqueOperationNames.initial app].
    eapply List.Forall_impl; [| exact Hall].
    intros e (first & current & He & Hin & Hk).
    rewrite Hknown in Hk.
    exists first, current. split; [exact He | split; [exact Hin | split]].
    + apply List.find_some in Hk as [_ Hk]. now apply String.eqb_eq in Hk.
    + exact Hk.
  - exact Hreported.
  - intros e. rewrite Hreported. apply In_duplicates.
Qed.

(** X16. The handler, called on a list of operation definitions starting
    with nothing known, reports no error exactly when the names of the
    operations that have one are pairwise distinct; operations without a
    name never count. *)
Theorem X16_no_error_iff_distinct_names nodes :
  UniqueOperationNames.reported
    (UniqueOperationNames.enterOperations nodes UniqueOperationNames.initial)
  = []
  <-> NoDup (map UniqueOperationNames.name_value
               (UniqueOperationNames.operationNames nodes)).
Proof.
  rewrite NoDup_ListNoDup.
  rewrite (List.NoDup_count_occ string_dec).
  split.
  - intros H n. rewrite <- countNamed_count_occ.
    pose proof (reported_count nodes UniqueOperationNames.initial n) as Hc.
    rewrite H in Hc. unfold UniqueOperationNames.countRuleMessage in Hc.
    cbn [UniqueOperationNames.reported UniqueOperationNames.initial
         UniqueOperationNames.knownOperationNames List.filter List.length]
      in Hc.
    rewrite lookup_empty in Hc. lia.
  - intros H.
    destruct (reported_shape nodes UniqueOperationNames.initial)
      as (new & Hnew & Hall).
    rewrite Hnew. cbn [UniqueOperationNames.reported
      UniqueOperationNames.initial app].
    destruct new as [|e new']; [reflexivity | exfalso].
    apply Forall_cons_1 in Hall as [(first & current & He & _) _].
    pose proof (reported_count nodes UniqueOperationNames.initial
                  (UniqueOperationNames.name_value current)) as Hc.
    rewrite Hnew, He in Hc.
    specialize (H (UniqueOperationNames.name_value current)).
    rewrite <- countNamed_count_occ in H.
    unfold UniqueOperationNames.countRuleMessage in Hc.
    cbn [UniqueOperationNames.reported UniqueOperationNames.initial app
         UniqueOperationNames.knownOperationNames
         List.filter UniqueOperationNames.rule_message] in Hc.
    rewrite String.eqb_refl, lookup_empty in Hc. cbn [List.length] in Hc.
    lia.
Qed.

(** ** The further properties on the sample schemas *)

Lemma X1_not_an_interface_witness :
  getErrors
    (validateObjectImplementsInterface isTypeSubTypeOf isEqualType
       new_SchemaValidationContext Sample.schema Sample.Query Sample.User)
  = [mkGraphQLError
       "Query must only implement Interface types, it cannot implement User."
       []].
Proof.
  apply (X1_not_an_interface isTypeSubTypeOf isEqualType Sample.schema
           Sample.Query Sample.User new_SchemaValidationContext).
  discriminate.
Defined.

Lemma X2_silent_iff_conforms_witness :
  Conforms isTypeSubTypeOf isEqualType Sample.conformingSchema
    Sample.Conforming Sample.Plain
  /\ ~ Conforms isTypeSubTypeOf isEqualType Sample.bareSchema Sample.Bare
         Sample.Plain.
Proof.
  split.
  - apply (proj1 (X2_silent_iff_conforms isTypeSubTypeOf isEqualType
                    Sample.conformingSchema Sample.Conforming Sample.Plain
                    new_SchemaValidationContext)).
    reflexivity.
  - intros H.
    apply (proj2 (X2_silent_iff_conforms isTypeSubTypeOf isEqualType
                    Sample.bareSchema Sample.Bare Sample.Plain
                    new_SchemaValidationContext)) in H.
    discriminate H.
Defined.

Lemma X3_missing_argument_witness :
  In (Expected.missingArg Sample.Conforming Sample.Node "id"
        (Sample.arg "format" Sample.StringType))
    (getErrors
       (validateObjectImplementsInterface isTypeSubTypeOf isEqualType
          new_SchemaValidationContext Sample.schema Sample.Conforming
          Sample.Node)).
Proof.
  apply (X3_missing_argument isTypeSubTypeOf isEqualType Sample.schema
           Sample.Conforming Sample.Node new_SchemaValidationContext "id"
           Sample.Node_id Sample.Node_name
           (Sample.arg "format" Sample.StringType));
    try reflexivity.
  simpl. left. reflexivity.
Defined.

Lemma X4_directive_diagnostics_witness :
  directiveDiagnostics Sample.definedSchema
  = [mkGraphQLError "Expected directive but got: [object Object]." []]
  /\ directiveDiagnostics Sample.conformingSchema = [].
Proof.
  split.
  - exact (proj1 (X4_directive_diagnostics Sample.definedSchema)).
  - apply (proj2 (proj2 (X4_directive_diagnostics Sample.conformingSchema))).
    intros d [<- | []]. eauto.
Defined.

Lemma X5_type_map_entry_witness :
  getErrors
    (validateType isTypeSubTypeOf isEqualType Sample.schema
       new_SchemaValidationContext "Node") = [].
Proof.
  apply (X5_type_map_entry isTypeSubTypeOf isEqualType Sample.schema
           new_SchemaValidationContext "Node" (TypeValue Sample.Node));
    reflexivity.
Defined.

Lemma X6_object_type_silent_witness :
  NoDup (map name (getInterfaces Sample.Conforming))
  /\ Conforms isTypeSubTypeOf isEqualType Sample.conformingSchema
       Sample.Conforming Sample.Plain.
Proof.
  destruct (proj1 (X6_object_type_silent isTypeSubTypeOf isEqualType
                     Sample.conformingSchema "Conforming" Sample.Conforming
                     eq_refl eq_refl) eq_refl) as [Hn Hall].
  split; [exact Hn |]. apply Hall. now left.
Defined.

Lemma X7_valid_schema_witness :
  fst (validateSchema isTypeSubTypeOf isEqualType
         (Schema Sample.conformingSchema)) = Return []
  /\ Conforms isTypeSubTypeOf isEqualType Sample.conformingSchema
       Sample.Conforming Sample.Plain.
Proof.
  split; [reflexivity |].
  destruct (proj1 (X7_valid_schema isTypeSubTypeOf isEqualType
                     Sample.conformingSchema eq_refl) eq_refl)
    as (_ & _ & Htypes).
  destruct (Htypes "Conforming" (TypeValue Sample.Conforming) eq_refl)
    as [_ H].
  apply (proj2 (H Sample.Conforming eq_refl eq_refl)). now left.
Defined.

Lemma X8_root_types_silent_witness :
  rootTypeDiagnostics Sample.validSchema = []
  /\ rootTypeDiagnostics Sample.definedSchema <> [].
Proof.
  split.
  - apply (proj2 (proj2 (X8_root_types_silent Sample.validSchema))).
    cbn. auto.
  - intros H.
    apply (proj1 (proj2 (X8_root_types_silent Sample.definedSchema))) in H.
    destruct H as [H _]. discriminate H.
Defined.

Lemma X10_assertValidSchema_repeats_witness :
  (exists schema' errors,
     snd (assertValidSchema isTypeSubTypeOf isEqualType
            (Schema Sample.bareSchema)) = Schema schema'
     /\ __validationErrors schema' = Some errors
     /\ List.length errors = 4)
  /\ assertValidSchema isTypeSubTypeOf isEqualType NoSchema
     = (Throw (Error "Must provide schema."), NoSchema).
Proof.
  split.
  - destruct (proj2 (proj2 (X10_assertValidSchema_repeats isTypeSubTypeOf
                              isEqualType (Schema Sample.bareSchema)))
                Sample.bareSchema eq_refl)
      as (schema' & errors & H1 & H2 & H3).
    exists schema', errors. split; [exact H1 | split; [exact H2 |]].
    injection H3 as <-. reflexivity.
  - apply (proj1 (proj2 (X10_assertValidSchema_repeats isTypeSubTypeOf
                           isEqualType NoSchema))).
    reflexivity.
Defined.

(** [User] lists [Node] a second time: a defect of [Sample.schema]. The
    valid schema has no defect, whatever the diagnostic. *)
Lemma X11_diagnostics_are_about_the_schema_witness :
  schemaDefect isTypeSubTypeOf isEqualType Sample.schema
    (Expected.onlyOnce Sample.User Sample.Node)
  /\ ~ schemaDefect isTypeSubTypeOf isEqualType Sample.validSchema
         (mkGraphQLError "Drop table undefined." []).
Proof.
  split.
  - apply (proj1 (X11_diagnostics_are_about_the_schema isTypeSubTypeOf
                    isEqualType Sample.schema _ _ eq_refl eq_refl _)).
    vm_compute. right. right. right. right. left. reflexivity.
  - intros H.
    apply (proj2 (X11_diagnostics_are_about_the_schema isTypeSubTypeOf
                    isEqualType Sample.validSchema _ _ eq_refl eq_refl _))
      in H.
    exact H.
Defined.

Lemma X12_getFieldNode_witness :
  (exists node,
     getFieldNode Sample.Node "name" = Some node
     /\ value (fd_name node) = "name")
  /\ getFieldNode Sample.Node "missing" = None.
Proof.
  split.
  - eexists. split; [reflexivity |].
    apply (proj1 (X12_getFieldNode Sample.Node "name") _ eq_refl).
  - apply (proj2 (proj1 (proj2 (X12_getFieldNode Sample.Node "missing")))).
    intros astNode fields node [[= <-] | []] [= <-] [<- | [<- | []]];
      discriminate.
Defined.

Lemma X13_getFieldArgNode_witness :
  getFieldArgTypeNode Sample.Node "id" "format"
  = Some (NamedType (Sample.named "String"))
  /\ getFieldArgNode Sample.User "id" "format" = None
  /\ getFieldTypeNode Sample.Node "name"
     = Some (NamedType (Sample.named "String")).
Proof.
  split; [| split].
  - apply (proj1 (X13_getFieldArgNode Sample.Node "id" "format") _ eq_refl).
  - apply (proj1 (proj2 (X13_getFieldArgNode Sample.User "id" "format"))).
    reflexivity.
  - apply (proj2 (proj2 (proj2 (X13_getFieldArgNode Sample.Node "name"
                                  "format")))
             {| fd_name := {| value := "name" |};
                fd_arguments := Some [];
                fd_type := NamedType (Sample.named "String") |}
             eq_refl).
Defined.

(** Of the two declarations of [query], the first is cited; [mutation] is
    declared as well, and [subscription] is not. *)
Lemma X14_getOperationTypeNode_witness :
  getOperationTypeNode Sample.redeclaredSchema (TypeValue Sample.Node) "query"
  = Some (N_Type (NamedType (Sample.namedAt "User" 5)))
  /\ getOperationTypeNode Sample.redeclaredSchema (TypeValue Sample.Node)
       "subscription"
     = Some (N_TypeDefinition Sample.NodeDefinition).
Proof.
  split.
  - apply (proj2 (proj2 (X14_getOperationTypeNode Sample.redeclaredSchema
                           (TypeValue Sample.Node) "query"))
             _ [ {| operation := "mutation";
                    ot_type := Sample.namedAt "User" 4 |} ]
             {| operation := "query"; ot_type := Sample.namedAt "User" 5 |}
             [ {| operation := "query"; ot_type := Sample.namedAt "Node" 6 |} ]
             eq_refl eq_refl).
    + intros n [<- | []]. discriminate.
    + reflexivity.
  - apply (proj1 (proj2 (X14_getOperationTypeNode Sample.redeclaredSchema
                           (TypeValue Sample.Node) "subscription"))).
    intros astNode n [= <-] [<- | [<- | [<- | []]]]; discriminate.
Defined.

(** [query A] at 1, 4 and 5: two errors, each citing the node at 1 and then
    the later node. *)
Lemma X15_duplicate_operation_names_witness :
  UniqueOperationNames.reported
    (UniqueOperationNames.enterOperations
       UniqueOperationNames.sampleOperations UniqueOperationNames.initial)
  = [ UniqueOperationNames.mkRuleError
        (UniqueOperationNames.duplicateOperationNameMessage "A")
        [ {| UniqueOperationNames.name_value := "A";
             UniqueOperationNames.name_loc := 1 |};
          {| UniqueOperationNames.name_value := "A";
             UniqueOperationNames.name_loc := 4 |} ];
      UniqueOperationNames.mkRuleError
        (UniqueOperationNames.duplicateOperationNameMessage "A")
        [ {| UniqueOperationNames.name_value := "A";
             UniqueOperationNames.name_loc := 1 |};
          {| UniqueOperationNames.name_value := "A";
             UniqueOperationNames.name_loc := 5 |} ] ].
Proof.
  rewrite (proj1 (proj2 (proj2 (proj2 (X15_duplicate_operation_names
                                         UniqueOperationNames.sampleOperations))))).
  reflexivity.
Defined.

Lemma X16_no_error_iff_distinct_names_witness :
  NoDup (map UniqueOperationNames.name_value
           (UniqueOperationNames.operationNames
              UniqueOperationNames.distinctOperations))
  /\ ~ NoDup (map UniqueOperationNames.name_value
                (UniqueOperationNames.operationNames
                   UniqueOperationNames.sampleOperations)).
Proof.
  split.
  - apply (proj1 (X16_no_error_iff_distinct_names
                    UniqueOperationNames.distinctOperations)).
    reflexivity.
  - intros H.
    apply (proj2 (X16_no_error_iff_distinct_names
                    UniqueOperationNames.sampleOperations)) in H.
    discriminate H.
Defined.
